(** * USFConcierge: the completion adapter, the chat persistence gateway and
      the session state

    A shallow embedding of [utils/azure_llm.py], [utils/database.py] and
    [utils/state_manager.py].

    Python objects that reach the code from the provider (decoded JSON bodies,
    message contents) are values of [value]; a raised exception is a value of
    [exn]; a function that may raise returns a [result].  A [str] is the string
    of the bytes of its UTF-8 text, on which equality, concatenation and the
    substring test are those of Python.  Case folding is another matter:
    [lower] is [str.lower] on ASCII text only, and a statement that rests on
    how a text it does not fix is folded takes that text to be ASCII
    ([is_ascii]); the session state takes the case mapping as a parameter. *)

From Stdlib Require Import ZArith List Bool Lia.
From Stdlib Require Import Strings.String Strings.Ascii Numbers.DecimalString.
From Stdlib Require Import Sorting.Permutation Sorting.Sorted.
Import ListNotations.

Set Warnings "-register-all".

Open Scope string_scope.
Open Scope Z_scope.

(** ** Python values *)

Module Py.

(** The part of Python's object universe that a decoded JSON document or a
    completion content can be.  A dict keeps its (string) keys in insertion
    order; keys are distinct, as in any Python dict. *)
Inductive value : Type :=
| VNone
| VBool (b : bool)
| VInt (n : Z)
| VStr (s : string)
| VList (items : list value)
| VDict (entries : list (string * value)).

(** Exceptions, by class, each with its message.  [BadRequestError] and
    [NotFoundError] are the SDK's status errors, the first with its [body]
    attribute; [TimeoutError] is the builtin.  [OtherError] stands for every
    other class: a subclass of [Exception] that is none of the classes above
    nor a subclass of one. *)
Inductive exn : Type :=
| BadRequestError (message : string) (body : value)
| NotFoundError (message : string)
| TimeoutError (message : string)
| RuntimeError (message : string)
| AttributeError (message : string)
| TypeError (message : string)
| OtherError (class message : string).

Inductive result (A : Type) : Type :=
| Ok (a : A)
| Raise (e : exn).
Arguments Ok {A} a.
Arguments Raise {A} e.

(** [str(exc)] *)
Definition exn_str (e : exn) : string :=
  match e with
  | BadRequestError m _ | NotFoundError m | TimeoutError m | RuntimeError m
  | AttributeError m | TypeError m | OtherError _ m => m
  end.

(** [bool(v)] *)
Definition truthy (v : value) : bool :=
  match v with
  | VNone => false
  | VBool b => b
  | VInt n => negb (n =? 0)
  | VStr s => negb (s =? "")%string
  | VList items => match items with [] => false | _ => true end
  | VDict entries => match entries with [] => false | _ => true end
  end.

(** [a or b] *)
Definition py_or (a b : value) : value := if truthy a then a else b.

(** [type(v).__name__] *)
Definition type_name (v : value) : string :=
  match v with
  | VNone => "NoneType"
  | VBool _ => "bool"
  | VInt _ => "int"
  | VStr _ => "str"
  | VList _ => "list"
  | VDict _ => "dict"
  end.

Fixpoint lookup (k : string) (entries : list (string * value)) : option value :=
  match entries with
  | [] => None
  | (k', v) :: rest => if (k =? k')%string then Some v else lookup k rest
  end.

(** [obj.get(k, default)]: only a dict has the method. *)
Definition get (obj : value) (k : string) (default : value) : result value :=
  match obj with
  | VDict entries =>
      Ok (match lookup k entries with Some v => v | None => default end)
  | _ => Raise (AttributeError
                  ("'" ++ type_name obj ++ "' object has no attribute 'get'"))
  end.

(** *** [repr] and [str] *)

Definition dquote : ascii := ascii_of_nat 34.
Definition squote : ascii := ascii_of_nat 39.
Definition backslash : ascii := ascii_of_nat 92.

Fixpoint has_char (c : ascii) (s : string) : bool :=
  match s with
  | EmptyString => false
  | String c' s' => (c =? c')%char || has_char c s'
  end.

Definition hex_digit (n : nat) : ascii :=
  match n with
  | 0%nat => "0" | 1%nat => "1" | 2%nat => "2" | 3%nat => "3" | 4%nat => "4"
  | 5%nat => "5" | 6%nat => "6" | 7%nat => "7" | 8%nat => "8" | 9%nat => "9"
  | 10%nat => "a" | 11%nat => "b" | 12%nat => "c" | 13%nat => "d"
  | 14%nat => "e" | _ => "f"
  end%char.

Definition escape_char (quote c : ascii) : string :=
  let n := nat_of_ascii c in
  if (c =? quote)%char || (c =? backslash)%char then
    String backslash (String c EmptyString)
  else if (n =? 9)%nat then String backslash "t"
  else if (n =? 10)%nat then String backslash "n"
  else if (n =? 13)%nat then String backslash "r"
  else if (n <? 32)%nat || (n =? 127)%nat then
    String backslash
      (String "x" (String (hex_digit (n / 16)) (String (hex_digit (n mod 16)) EmptyString)))
  else String c EmptyString.

Fixpoint escape_chars (quote : ascii) (s : string) : string :=
  match s with
  | EmptyString => EmptyString
  | String c s' => escape_char quote c ++ escape_chars quote s'
  end.

(** [repr(s)] of a string: single quotes, unless the text has one and has no
    double quote. *)
Definition repr_str (s : string) : string :=
  let quote := if has_char squote s && negb (has_char dquote s)
               then dquote else squote in
  String quote (escape_chars quote s ++ String quote EmptyString).

Definition repr_int (n : Z) : string := NilZero.string_of_int (Z.to_int n).

Fixpoint repr (v : value) : string :=
  match v with
  | VNone => "None"
  | VBool true => "True"
  | VBool false => "False"
  | VInt n => repr_int n
  | VStr s => repr_str s
  | VList items => "[" ++ String.concat ", " (map repr items) ++ "]"
  | VDict entries =>
      "{" ++ String.concat ", "
               (map (fun kv => repr_str (fst kv) ++ ": " ++ repr (snd kv)) entries)
          ++ "}"
  end.

(** [str(v)] *)
Definition str (v : value) : string :=
  match v with
  | VStr s => s
  | _ => repr v
  end.

(** [sep.join(parts)] for [sep] the empty string: every part must be a [str]. *)
Fixpoint join_from (i : nat) (parts : list value) : result string :=
  match parts with
  | [] => Ok EmptyString
  | VStr s :: rest =>
      match join_from (S i) rest with
      | Ok t => Ok (s ++ t)
      | Raise e => Raise e
      end
  | v :: _ =>
      Raise (TypeError ("sequence item " ++ repr_int (Z.of_nat i)
                          ++ ": expected str instance, " ++ type_name v ++ " found"))
  end.

Definition join (parts : list value) : result string := join_from 0 parts.

(** [v == s] for a string literal [s] *)
Definition eq_str (v : value) (s : string) : bool :=
  match v with
  | VStr t => (t =? s)%string
  | _ => false
  end.

Definition bind {A B : Type} (m : result A) (k : A -> result B) : result B :=
  match m with
  | Ok a => k a
  | Raise e => Raise e
  end.

(** *** String methods *)

(** [needle in hay] *)
Fixpoint contains (needle hay : string) : bool :=
  String.prefix needle hay
  || match hay with
     | EmptyString => false
     | String _ hay' => contains needle hay'
     end.

(** [s.endswith(suffix)] *)
Fixpoint endswith (s suffix : string) : bool :=
  (s =? suffix)%string
  || match s with
     | EmptyString => false
     | String _ s' => endswith s' suffix
     end.

(** [s.rstrip(c)] for a one-character argument *)
Fixpoint rstrip (c : ascii) (s : string) : string :=
  match s with
  | EmptyString => EmptyString
  | String a s' =>
      match rstrip c s' with
      | EmptyString => if (a =? c)%char then EmptyString else String a EmptyString
      | t => String a t
      end
  end.

(** The text is ASCII: every byte is below 128, so every byte is a character. *)
Fixpoint is_ascii (s : string) : bool :=
  match s with
  | EmptyString => true
  | String c s' => (nat_of_ascii c <? 128)%nat && is_ascii s'
  end.

Definition lower_char (c : ascii) : ascii :=
  let n := nat_of_ascii c in
  if (65 <=? n)%nat && (n <=? 90)%nat then ascii_of_nat (n + 32) else c.

(** [s.lower()] for an ASCII [s]: the letters A to Z are folded and nothing
    else is.  On other text Python folds by the Unicode tables, which this
    function does not follow: what is stated of a lowered text holds of the
    code where the text is ASCII. *)
Fixpoint lower (s : string) : string :=
  match s with
  | EmptyString => EmptyString
  | String c s' => String (lower_char c) (lower s')
  end.

End Py.
Export Py.

Notation "x <- m ;; k" := (bind m (fun x => k))
  (at level 61, m at next level, right associativity).

(** ** utils/azure_llm.py *)

Module AzureLlm.

(** The loop of [_content_to_text] over a list content: the [text] of a dict
    item when it is truthy, a string item as it is, nothing for anything else. *)
Fixpoint text_parts (content : list value) : list value :=
  match content with
  | [] => []
  | VDict entries :: rest =>
      match lookup "text" entries with
      | Some text => if truthy text then text :: text_parts rest else text_parts rest
      | None => text_parts rest
      end
  | VStr s :: rest => VStr s :: text_parts rest
  | _ :: rest => text_parts rest
  end.

Definition _content_to_text (content : value) : result string :=
  match content with
  | VStr s => Ok s
  | VList items =>
      match text_parts items with
      | [] => Ok (str (py_or content (VStr "")))
      | parts => join parts
      end
  | _ => Ok (str (py_or content (VStr "")))
  end.

(** *** Configuration and the transport client *)

Definition DEFAULT_AZURE_OPENAI_API_VERSION : string := "2024-02-15-preview".

Definition require_azure_env (value : option string) (name : string) : result string :=
  match value with
  | Some v => if (v =? "")%string
              then Raise (RuntimeError ("Missing required environment variable: " ++ name))
              else Ok v
  | None => Raise (RuntimeError ("Missing required environment variable: " ++ name))
  end.

(** The process environment, as [os.getenv] reads it. *)
Record Env : Type := {
  AZURE_OPENAI_ENDPOINT : option string;
  AZURE_OPENAI_API_KEY : option string;
  AZURE_OPENAI_API_VERSION : option string
}.

(** The two request shapes: [OpenAI(base_url, api_key, default_headers)] and
    [AzureOpenAI(api_key, api_version, azure_endpoint)]. *)
Inductive Client : Type :=
| OpenAI (base_url api_key : string) (default_headers : list (string * string))
| AzureOpenAI (api_key api_version azure_endpoint : string).

Definition _build_openai_compatible_client (endpoint key : string) : Client :=
  let base := rstrip "/" endpoint in
  let base := if negb (endswith base "/openai/v1") then base ++ "/openai/v1/" else base in
  OpenAI base key [("api-key", key)].

(** The function under the decorator, [get_azure_client.__wrapped__]
    (lines 30-43): the client the environment asks for. *)
Definition get_azure_client_wrapped (env : Env) : result Client :=
  endpoint <- require_azure_env (AZURE_OPENAI_ENDPOINT env) "AZURE_OPENAI_ENDPOINT" ;;
  let endpoint := rstrip "/" endpoint in
  key <- require_azure_env (AZURE_OPENAI_API_KEY env) "AZURE_OPENAI_API_KEY" ;;
  let api_version :=
    match AZURE_OPENAI_API_VERSION env with
    | Some v => v
    | None => DEFAULT_AZURE_OPENAI_API_VERSION
    end in
  if contains ".services.ai.azure.com" endpoint
     || endswith endpoint "/openai/v1"
     || contains "/openai/" endpoint
  then Ok (_build_openai_compatible_client endpoint key)
  else Ok (AzureOpenAI key api_version endpoint).

(** What [lru_cache(maxsize=1)] keeps for a function of no argument: the
    value of the first call that returned, if there was one. *)
Definition ClientCache : Type := option Client.

(** [get_azure_client()] as decorated (line 28): a client in the cache is
    returned without a look at the environment; otherwise the function runs,
    and its value is stored when it returns one.  A call that raises stores
    nothing. *)
Definition get_azure_client (cache : ClientCache) (env : Env)
  : result Client * ClientCache :=
  match cache with
  | Some client => (Ok client, cache)
  | None =>
      match get_azure_client_wrapped env with
      | Ok client => (Ok client, Some client)
      | Raise e => (Raise e, None)
      end
  end.

(** *** What the provider sends back *)

(** A single-shot response: [resp.choices[i].message.content]. *)
Record Choice : Type := { message_content : value }.
Record Response : Type := { choices : list Choice }.

(** A streamed event: [event.choices[i].delta.content]; [delta] may be missing
    ([getattr(choice, "delta", None)]). *)
Record Delta : Type := { content : value }.
Record StreamChoice : Type := { delta : option Delta }.
Record Event : Type := { event_choices : list StreamChoice }.

(** The stream the transport hands back: it ends, or iterating it raises. *)
Inductive Stream : Type :=
| SEnd
| SFault (e : exn)
| SEvent (event : Event) (rest : Stream).

(** What a generator does when it is drained: the fragments it yields, then a
    normal end or an exception. *)
Inductive Generator : Type :=
| GStop
| GRaise (e : exn)
| GYield (fragment : string) (rest : Generator).

Fixpoint yielded (g : Generator) : list string :=
  match g with
  | GStop | GRaise _ => []
  | GYield fragment rest => fragment :: yielded rest
  end.

Fixpoint outcome (g : Generator) : option exn :=
  match g with
  | GStop => None
  | GRaise e => Some e
  | GYield _ rest => outcome rest
  end.

(** *** The error taxonomy, as the [RuntimeError]s the code raises *)

Definition PromptInjectionBlocked : exn :=
  RuntimeError
    ("This request was blocked by Azure's content safety filters. "
     ++ "It appears to be attempting to bypass system instructions or extract sensitive prompts. "
     ++ "Please rephrase your question to focus on the information you need.").

Definition ContentPolicyBlocked : exn :=
  RuntimeError
    ("This request was blocked by Azure's content safety filters. "
     ++ "Please rephrase your question in a way that complies with content policies.").

Definition StreamProcessingError (cause : exn) : exn :=
  RuntimeError ("Error during Azure OpenAI stream processing: " ++ exn_str cause).

(** The SDK's status errors carry the decoded JSON of the response in [body].
    For a response whose JSON is an object with an [error] entry the SDK keeps
    that entry, not the whole object ([body.get("error", body)] where it
    raises a status error); any other JSON is kept as it is.  The SDK is not
    among the sources; this is the one step of it between the provider's
    payload and the [exc.body] the handlers read. *)
Definition status_error_body (payload : value) : value :=
  match payload with
  | VDict entries =>
      match lookup "error" entries with
      | Some detail => detail
      | None => payload
      end
  | _ => payload
  end.

(** [openai.APITimeoutError], which the SDK raises when a request runs into
    its deadline: a subclass of [APIConnectionError], not of the builtin
    [TimeoutError]. *)
Definition APITimeoutError : exn := OtherError "APITimeoutError" "Request timed out.".

(** The [except BadRequestError] handler, the same text in [stream_chat]
    (lines 81-105) and [complete_chat] (lines 146-170): the exception that
    leaves it. *)
Definition on_bad_request (exc : exn) (body : value) : exn :=
  let error_body := py_or body (VDict []) in
  let raised : result exn :=
    error_detail <- get error_body "error" (VDict []) ;;
    error_code <- get error_detail "code" (VStr "") ;;
    if eq_str error_code "content_filter" then
      inner_error <- get error_detail "innererror" (VDict []) ;;
      filter_result <- get inner_error "content_filter_result" (VDict []) ;;
      jailbreak <- get filter_result "jailbreak" (VDict []) ;;
      filtered <- get jailbreak "filtered" VNone ;;
      if truthy filtered then Ok PromptInjectionBlocked else Ok ContentPolicyBlocked
    else Ok exc in
  match raised with
  | Ok e => e
  | Raise e => e
  end.

(** The loop body of [stream_chat] over the choices of one event, followed by
    [k], the rest of the drain.  Anything raised inside is wrapped. *)
Fixpoint drain_choices (cs : list StreamChoice) (k : Generator) : Generator :=
  match cs with
  | [] => k
  | choice :: cs' =>
      match delta choice with
      | Some d =>
          if truthy (content d) then
            match _content_to_text (content d) with
            | Ok fragment => GYield fragment (drain_choices cs' k)
            | Raise e => GRaise (StreamProcessingError e)
            end
          else drain_choices cs' k
      | None => drain_choices cs' k
      end
  end.

Fixpoint drain (stream : Stream) : Generator :=
  match stream with
  | SEnd => GStop
  | SFault e => GRaise (StreamProcessingError e)
  | SEvent event rest => drain_choices (event_choices event) (drain rest)
  end.

Section Completions.

(** Python floats (temperature, timeout) with the text an f-string gives them. *)
Variable float : Type.
Variable float_str : float -> string.

Definition ChatMessage : Type := list (string * string).

(** The keyword arguments of [client.chat.completions.create]. *)
Record Request : Type := {
  model : string;
  messages : list ChatMessage;
  temperature : float;
  stream : bool;
  timeout : float
}.

(** The SDK behind [client.chat.completions.create]: with [stream=True] it
    returns a stream, otherwise a response; either call may raise.  A
    [BadRequestError] it raises carries [status_error_body] of the payload,
    and a request that runs into the deadline raises [APITimeoutError]. *)
Record Sdk : Type := {
  create : Client -> Request -> result Response;
  create_stream : Client -> Request -> result Stream
}.

Variable sdk : Sdk.

(** The client cache as the call finds it, and the environment. *)
Variable cache : ClientCache.
Variable env : Env.

Definition RequestTimeout (timeout : float) : exn :=
  RuntimeError
    ("Azure OpenAI request timed out after " ++ float_str timeout ++ "s. "
     ++ "The service may be slow or unavailable.").

(** Both operations return what the caller sees together with the client
    cache as the call leaves it.  For [stream_chat] that is what draining the
    generator gives: its body runs when the generator is first advanced. *)
Definition stream_chat (deployment : option string) (messages : list ChatMessage)
    (temperature : float) (deployment_name : string) (timeout : float)
  : Generator * ClientCache :=
  match require_azure_env deployment deployment_name with
  | Raise e => (GRaise e, cache)
  | Ok model =>
  match get_azure_client cache env with
  | (Raise e, cache') => (GRaise e, cache')
  | (Ok client, cache') =>
  (match create_stream sdk client
           {| model := model; messages := messages; temperature := temperature;
              stream := true; timeout := timeout |} with
   | Raise (BadRequestError m body) => GRaise (on_bad_request (BadRequestError m body) body)
   | Raise (NotFoundError _) =>
       GRaise (RuntimeError
                 ("Azure OpenAI deployment '" ++ model ++ "' was not found. "
                  ++ "Ensure AZURE_PHI4_ORCHESTRATOR (or AZURE_OPENAI_DEPLOYMENT) matches the deployment name in Azure."))
   | Raise (TimeoutError _) => GRaise (RequestTimeout timeout)
   | Raise e => GRaise e
   | Ok stream => drain stream
   end, cache')
  end end.

Definition complete_chat (deployment : option string) (messages : list ChatMessage)
    (temperature : float) (deployment_name : string) (timeout : float)
  : result string * ClientCache :=
  match require_azure_env deployment deployment_name with
  | Raise e => (Raise e, cache)
  | Ok model =>
  match get_azure_client cache env with
  | (Raise e, cache') => (Raise e, cache')
  | (Ok client, cache') =>
  (match create sdk client
           {| model := model; messages := messages; temperature := temperature;
              stream := false; timeout := timeout |} with
   | Raise (BadRequestError m body) => Raise (on_bad_request (BadRequestError m body) body)
   | Raise (NotFoundError _) =>
       Raise (RuntimeError
                ("Azure OpenAI deployment '" ++ model ++ "' was not found. "
                 ++ "Check AZURE_PHI4_EMAIL/AZURE_PHI4_MEETING env vars and ensure the deployments exist."))
   | Raise (TimeoutError _) => Raise (RequestTimeout timeout)
   | Raise e => Raise e
   | Ok resp =>
       match choices resp with
       | [] => Ok ""
       | first :: _ => _content_to_text (message_content first)
       end
   end, cache')
  end end.

End Completions.

Arguments model {float}.
Arguments messages {float}.
Arguments temperature {float}.
Arguments stream {float}.
Arguments timeout {float}.
Arguments create {float}.
Arguments create_stream {float}.

End AzureLlm.

(** ** utils/database.py *)

Module Database.

(** *** Rows, the store and the world around a call *)

(** [created_at] and [updated_at] hold the text of
    [datetime.utcnow().isoformat(timespec="seconds")]; a stamp is kept here as
    the count of whole seconds it spells, which orders as the text does.  The
    name of a session is a text or null: the code writes the name it is
    given, and reads whatever the column holds. *)
Record SessionRow : Type := {
  id : string;
  user_id : string;
  session_name : option string;
  created_at : Z;
  updated_at : Z
}.

Record MessageRow : Type := {
  msg_id : string;
  msg_session_id : string;
  msg_role : string;
  msg_content : string;
  msg_tokens_in : option Z;
  msg_tokens_out : option Z;
  msg_created_at : Z
}.

Record Store : Type := {
  chat_sessions : list SessionRow;
  messages : list MessageRow
}.

(** A reading of the clock, in microseconds, and the stamp [isoformat] with
    [timespec="seconds"] makes of it: the fraction of the second is dropped. *)
Definition isoformat_seconds (clock : Z) : Z := clock / 1000000.

(** The world a method runs in: the remote store, the failures the store will
    answer the coming [execute()] calls with ([true]: that call raises and
    changes nothing; no entry: it succeeds), and the local error log. *)
Record World : Type := {
  store : Store;
  faults : list bool;
  log : list string
}.

Definition Action (A : Type) : Type := World -> result A * World.

Definition ret {A : Type} (a : A) : Action A := fun w => (Ok a, w).

Definition and_then {A B : Type} (m : Action A) (k : A -> Action B) : Action B :=
  fun w =>
    match m w with
    | (Ok a, w') => k a w'
    | (Raise e, w') => (Raise e, w')
    end.

(** [try: body / except Exception as e: handler e] *)
Definition try_except {A : Type} (body : Action A) (handler : exn -> Action A) : Action A :=
  fun w =>
    match body w with
    | (Ok a, w') => (Ok a, w')
    | (Raise e, w') => handler e w'
    end.

(** [logger.error(msg)] *)
Definition logger_error (msg : string) : Action unit :=
  fun w => (Ok tt, {| store := store w; faults := faults w; log := log w ++ [msg] |}).

Definition store_failure : exn := OtherError "APIError" "store request failed".

(** One [....execute()]: the store applies [op], or the call raises. *)
Definition execute {A : Type} (op : Store -> A * Store) : Action A :=
  fun w =>
    let run rest :=
      let (a, s') := op (store w) in
      (Ok a, {| store := s'; faults := rest; log := log w |}) in
    match faults w with
    | [] => run []
    | false :: rest => run rest
    | true :: rest =>
        (Raise store_failure, {| store := store w; faults := rest; log := log w |})
    end.

Notation "x <~ m ;; k" := (and_then m (fun x => k))
  (at level 61, m at next level, right associativity).
Notation "m ;;; k" := (and_then m (fun _ => k))
  (at level 61, right associativity).

(** *** The store's side of the queries *)

Definition in_order (desc : bool) (x y : Z) : Prop :=
  if desc then y <= x else x <= y.

(** [.order(column, desc=...)]: the store answers with the selected rows sorted
    on the column.  Rows that tie on the column come in an order the store
    chooses, so the sort is any function with this contract. *)
Class StoreOrder : Type := {
  order : forall {A : Type}, (A -> Z) -> bool -> list A -> list A;
  order_perm : forall (A : Type) (key : A -> Z) (desc : bool) (rows : list A),
      Permutation rows (order key desc rows);
  order_sorted : forall (A : Type) (key : A -> Z) (desc : bool) (rows : list A),
      StronglySorted (fun a b => in_order desc (key a) (key b)) (order key desc rows)
}.

Fixpoint insert_row {A : Type} (before : A -> A -> bool) (x : A) (rows : list A) : list A :=
  match rows with
  | [] => [x]
  | y :: rows' => if before x y then x :: rows else y :: insert_row before x rows'
  end.

Definition insertion_sort {A : Type} (before : A -> A -> bool) (rows : list A) : list A :=
  fold_right (insert_row before) [] rows.

(** A store that keeps tied rows in the order they were written. *)
Definition stable_sort {A : Type} (key : A -> Z) (desc : bool) : list A -> list A :=
  insertion_sort (fun x y => if desc then key y <=? key x else key x <=? key y).

(** A store that hands tied rows back latest first. *)
Definition latest_first_sort {A : Type} (key : A -> Z) (desc : bool) : list A -> list A :=
  insertion_sort (fun x y => if desc then key y <? key x else key x <? key y).

Definition mem (k : string) (ks : list string) : bool :=
  existsb (fun k' => (k =? k')%string) ks.

(** SQL [LIKE] with the backslash as escape character; a pattern that ends in
    a lone backslash matches nothing. *)
Fixpoint like (pattern text : string) : bool :=
  match pattern with
  | EmptyString => (text =? "")%string
  | String c pattern' =>
      if (c =? "%")%char then
        (fix any (text : string) : bool :=
           like pattern' text
           || match text with
              | EmptyString => false
              | String _ text' => any text'
              end) text
      else if (c =? "_")%char then
        match text with
        | EmptyString => false
        | String _ text' => like pattern' text'
        end
      else if (c =? backslash)%char then
        match pattern', text with
        | String c' pattern'', String a text' => (a =? c')%char && like pattern'' text'
        | _, _ => false
        end
      else
        match text with
        | EmptyString => false
        | String a text' => (a =? c)%char && like pattern' text'
        end
  end.

(** [ILIKE]: [LIKE] without regard to case. *)
Definition ilike (pattern text : string) : bool := like (lower pattern) (lower text).

Section Queries.

Context {store_order : StoreOrder}.

Definition with_sessions (rows : list SessionRow) (s : Store) : Store :=
  {| chat_sessions := rows; messages := messages s |}.

Definition with_messages (rows : list MessageRow) (s : Store) : Store :=
  {| chat_sessions := chat_sessions s; messages := rows |}.

(** [table(sessions).insert(record)]: the answer carries the inserted row. *)
Definition insert_session (record : SessionRow) (s : Store) : list SessionRow * Store :=
  ([record], with_sessions (chat_sessions s ++ [record]) s).

(** [table(sessions).select("*").eq("user_id", u).order("updated_at", desc=True)] *)
Definition select_user_sessions (u : string) (s : Store) : list SessionRow * Store :=
  (order updated_at true (filter (fun r => (user_id r =? u)%string) (chat_sessions s)), s).

(** [table(sessions).select("*").eq("id", sid).limit(1)] *)
Definition select_session (sid : string) (s : Store) : list SessionRow * Store :=
  (firstn 1 (filter (fun r => (id r =? sid)%string) (chat_sessions s)), s).

(** [table(sessions).update(changes).eq("id", sid)] *)
Definition update_session (change : SessionRow -> SessionRow) (sid : string) (s : Store)
  : unit * Store :=
  (tt, with_sessions
         (map (fun r => if (id r =? sid)%string then change r else r) (chat_sessions s)) s).

(** [table(sessions).delete().eq("id", sid)] *)
Definition delete_session_row (sid : string) (s : Store) : unit * Store :=
  (tt, with_sessions (filter (fun r => negb (id r =? sid)%string) (chat_sessions s)) s).

(** [table(messages).delete().eq("session_id", sid)] *)
Definition delete_session_messages (sid : string) (s : Store) : unit * Store :=
  (tt, with_messages (filter (fun m => negb (msg_session_id m =? sid)%string) (messages s)) s).

(** [table(messages).insert(record)] *)
Definition insert_message (record : MessageRow) (s : Store) : unit * Store :=
  (tt, with_messages (messages s ++ [record]) s).

(** [table(messages).select("*").eq("session_id", sid).order("created_at", desc=False)] *)
Definition select_session_messages (sid : string) (s : Store) : list MessageRow * Store :=
  (order msg_created_at false
     (filter (fun m => (msg_session_id m =? sid)%string) (messages s)), s).

(** [table(messages).select("session_id").in_("session_id", ids).ilike("content", pattern)] *)
Definition select_matching_session_ids (ids : list string) (pattern : string) (s : Store)
  : list string * Store :=
  (map msg_session_id
     (filter (fun m => mem (msg_session_id m) ids && ilike pattern (msg_content m))
        (messages s)), s).

(** *** ChatDatabase

    A method that calls [uuid.uuid4()] or [datetime.utcnow()] takes the
    identifier drawn and the clock reading as its first arguments. *)

Definition create_session (sid : string) (clock : Z) (user : string) (name : string)
  : Action (option string) :=
  let now := isoformat_seconds clock in
  let record := {| id := sid; user_id := user; session_name := Some name;
                   created_at := now; updated_at := now |} in
  try_except
    (data <~ execute (insert_session record) ;;
     match data with
     | [] => ret None
     | _ => ret (Some sid)
     end)
    (fun e => logger_error ("Failed to create session: " ++ exn_str e) ;;; ret None).

Definition get_user_sessions (user : string) : Action (list SessionRow) :=
  try_except
    (execute (select_user_sessions user))
    (fun e =>
       logger_error ("Failed to get user sessions for " ++ user ++ ": " ++ exn_str e) ;;;
       ret []).

Definition get_session (session_id : string) : Action (option SessionRow) :=
  try_except
    (data <~ execute (select_session session_id) ;;
     ret (match data with
          | [] => None
          | first :: _ => Some first
          end))
    (fun e =>
       logger_error ("Failed to get session " ++ session_id ++ ": " ++ exn_str e) ;;;
       ret None).

Definition rename_session (clock : Z) (session_id new_name : string) : Action bool :=
  let now := isoformat_seconds clock in
  try_except
    (execute (update_session
                (fun r => {| id := id r; user_id := user_id r;
                             session_name := Some new_name;
                             created_at := created_at r; updated_at := now |})
                session_id) ;;;
     ret true)
    (fun e =>
       logger_error ("Failed to rename session " ++ session_id ++ ": " ++ exn_str e) ;;;
       ret false).

Definition delete_session (session_id : string) : Action unit :=
  try_except
    (execute (delete_session_messages session_id) ;;;
     execute (delete_session_row session_id))
    (fun e =>
       logger_error ("Failed to delete session " ++ session_id ++ ": " ++ exn_str e) ;;;
       ret tt).

Definition get_session_messages (session_id : string) : Action (list MessageRow) :=
  try_except
    (execute (select_session_messages session_id))
    (fun e =>
       logger_error ("Failed to get session messages for " ++ session_id ++ ": "
                     ++ exn_str e) ;;;
       ret []).

Definition add_message (mid : string) (clock : Z) (session_id role content : string)
    (tokens_in tokens_out : option Z) : Action (option string) :=
  let now := isoformat_seconds clock in
  let record := {| msg_id := mid; msg_session_id := session_id; msg_role := role;
                   msg_content := content; msg_tokens_in := tokens_in;
                   msg_tokens_out := tokens_out; msg_created_at := now |} in
  try_except
    (execute (insert_message record) ;;;
     execute (update_session
                (fun r => {| id := id r; user_id := user_id r;
                             session_name := session_name r;
                             created_at := created_at r; updated_at := now |})
                session_id) ;;;
     ret (Some mid))
    (fun e =>
       logger_error ("Failed to add message to session " ++ session_id ++ ": "
                     ++ exn_str e) ;;;
       ret None).

(** Modelled from the spec: [escape_sql_like] of [utils/security.py], which is
    not among the sources.  The query text is escaped against the special
    characters of the pattern-matching operator: the wildcards and the escape
    character itself each get a backslash in front. *)
Fixpoint escape_sql_like (text : string) : string :=
  match text with
  | EmptyString => EmptyString
  | String c text' =>
      if (c =? backslash)%char || (c =? "%")%char || (c =? "_")%char
      then String backslash (String c (escape_sql_like text'))
      else String c (escape_sql_like text')
  end.

(** A Python dict keyed by session id: a new key goes last, an old key keeps
    its place. *)
Fixpoint dict_set {A : Type} (k : string) (v : A) (d : list (string * A)) : list (string * A) :=
  match d with
  | [] => [(k, v)]
  | (k', v') :: d' => if (k =? k')%string then (k, v) :: d' else (k', v') :: dict_set k v d'
  end.

Definition dict_keys {A : Type} (d : list (string * A)) : list string := map fst d.
Definition dict_values {A : Type} (d : list (string * A)) : list A := map snd d.

(** The first pass of [search_sessions] (lines 189-192), from the dict [d] on:
    the sessions matched by name.  [s.get("session_name", "")] is the value
    of the column, null included, and [name.lower()] raises on null; the pass
    stands outside the [try], so the exception leaves the method. *)
Fixpoint name_pass (q : string) (sessions : list SessionRow) (d : list (string * SessionRow))
  : result (list (string * SessionRow)) :=
  match sessions with
  | [] => Ok d
  | s :: rest =>
      match session_name s with
      | None => Raise (AttributeError "'NoneType' object has no attribute 'lower'")
      | Some name =>
          name_pass q rest (if contains q (lower name) then dict_set (id s) s d else d)
      end
  end.

Definition name_matches (q : string) (sessions : list SessionRow)
  : result (list (string * SessionRow)) :=
  name_pass q sessions [].

(** A step that touches nothing of the world. *)
Definition lift {A : Type} (r : result A) : Action A := fun w => (r, w).

Definition search_sessions (user : string) (query : string) : Action (list SessionRow) :=
  sessions <~ get_user_sessions user ;;
  if (query =? "")%string then ret sessions
  else
    let q := escape_sql_like (lower query) in
    matching_sessions <~ lift (name_matches q sessions) ;;
    matching_sessions <~
      try_except
        (let session_ids :=
           map id (filter (fun s => negb (mem (id s) (dict_keys matching_sessions)))
                     sessions) in
         match session_ids with
         | [] => ret matching_sessions
         | _ =>
             matched_session_ids <~
               execute (select_matching_session_ids session_ids ("%" ++ q ++ "%")) ;;
             ret (fold_left
                    (fun d s => if mem (id s) matched_session_ids
                                then dict_set (id s) s d else d)
                    sessions matching_sessions)
         end)
        (fun e =>
           logger_error ("Failed to search messages: " ++ exn_str e) ;;;
           ret matching_sessions) ;;
    ret (dict_values matching_sessions).

(** [table(sessions).select("id").eq("user_id", u)] *)
Definition select_user_session_ids (u : string) (s : Store) : list string * Store :=
  (map id (filter (fun r => (user_id r =? u)%string) (chat_sessions s)), s).

(** [table(messages).select("id", count="exact").in_("session_id", ids)]: the
    [count] of the answer. *)
Definition count_messages_in (ids : list string) (s : Store) : Z * Store :=
  (Z.of_nat (List.length (filter (fun m => mem (msg_session_id m) ids) (messages s))), s).

Definition get_total_message_count (user : string) : Action Z :=
  try_except
    (session_ids <~ execute (select_user_session_ids user) ;;
     match session_ids with
     | [] => ret 0
     | _ => execute (count_messages_in session_ids)
     end)
    (fun e =>
       logger_error ("Failed to get total message count for user " ++ user ++ ": "
                     ++ exn_str e) ;;;
       ret 0).

(** What [export_session_json] hands to [json.dumps]: the error payload, or
    the bundle of the session's name (null if the column is), its created-at
    and its messages. *)
Inductive ExportData : Type :=
| ExportError (error : string)
| ExportBundle (name : option string) (created : Z) (rows : list MessageRow).

(** [json.dumps], whose text is not modelled. *)
Variable json_dumps : ExportData -> string.

Definition export_session_json (user : string) (session_id : string) : Action string :=
  session <~ get_session session_id ;;
  match session with
  | None => ret (json_dumps (ExportError "session not found"))
  | Some row =>
      if negb (user_id row =? user)%string
      then ret (json_dumps (ExportError "session not found"))
      else
        rows <~ get_session_messages session_id ;;
        ret (json_dumps (ExportBundle (session_name row) (created_at row) rows))
  end.

End Queries.

End Database.

(** ** utils/state_manager.py *)

Module StateManager.

(** [st.session_state]: the keys set so far, each with its value. *)
Definition SessionState : Type := list (string * value).

Definition RECENT_ACTION_LIMIT : nat := 5.

(** [k in st.session_state] *)
Definition has_key (k : string) (state : SessionState) : bool :=
  match lookup k state with
  | Some _ => true
  | None => false
  end.

(** [st.session_state.k = v] *)
Fixpoint setattr (k : string) (v : value) (state : SessionState) : SessionState :=
  match state with
  | [] => [(k, v)]
  | (k', v') :: state' =>
      if (k =? k')%string then (k, v) :: state' else (k', v') :: setattr k v state'
  end.

(** [st.session_state.setdefault(k, v)], and the same as a test followed by
    an assignment ([if k not in st.session_state: st.session_state.k = v]). *)
Definition setdefault (k : string) (v : value) (state : SessionState) : SessionState :=
  if has_key k state then state else setattr k v state.

(** [st.session_state.k]; the words of Streamlit's error are not modelled, the
    message is the name asked for. *)
Definition getattr (k : string) (state : SessionState) : result value :=
  match lookup k state with
  | Some v => Ok v
  | None => Raise (AttributeError k)
  end.

(** The defaults of [initialize_session_state], in the order of the source.
    [today] is [date.today()] and [now_time] is
    [datetime.now().replace(second=0, microsecond=0).time()]. *)
Definition defaults (today now_time : value) : list (string * value) :=
  [ ("authenticated", VBool false);
    ("user_id", VNone);
    ("username", VNone);
    ("current_session_id", VNone);
    ("messages", VList []);
    ("pending_regen", VBool false);
    ("token_total", VInt 0);
    ("limit_reached", VBool false);
    ("show_tool_picker", VBool false);
    ("show_email_builder", VBool false);
    ("show_meeting_builder", VBool false);
    ("pending_email", VNone);
    ("pending_email_draft", VNone);
    ("pending_email_edit", VNone);
    ("email_to_input", VStr "");
    ("email_subject_input", VStr "");
    ("email_student_message", VStr "");
    ("email_draft_text", VStr "");
    ("email_draft_sync_value", VNone);
    ("email_subject_sync_value", VNone);
    ("email_edit_instructions", VStr "");
    ("email_fields_reset_pending", VBool false);
    ("pending_meeting", VNone);
    ("pending_meeting_plan", VNone);
    ("pending_meeting_edit", VNone);
    ("meeting_summary_input", VStr "");
    ("meeting_duration_input", VInt 30);
    ("meeting_attendees_input", VStr "");
    ("meeting_description_input", VStr "");
    ("meeting_location_input", VStr "");
    ("meeting_timezone_input", VStr "US/Eastern (EST)");
    ("meeting_date_input", today);
    ("meeting_time_input", now_time);
    ("meeting_fields_reset_pending", VBool false);
    ("meeting_notes_text", VStr "");
    ("meeting_notes_sync_value", VNone);
    ("meeting_edit_instructions", VStr "");
    ("recent_actions", VList []);
    ("pending_action_collapses", VList []);
    ("is_processing", VBool false);
    ("pending_user_input", VNone);
    ("show_dashboard", VBool true);
    ("pending_login", VNone) ].

Definition initialize_session_state (today now_time : value) (state : SessionState)
  : SessionState :=
  fold_left (fun st kv => setdefault (fst kv) (snd kv) st) (defaults today now_time) state.

(** [activate_assistant(kind, rerun=...)]: the state it leaves, and whether it
    ends in [st.rerun()], which stops the script run. *)
Definition activate_assistant (kind : option string) (rerun : bool) (state : SessionState)
  : SessionState * bool :=
  let kind_is name := match kind with
                      | Some k => (k =? name)%string
                      | None => false
                      end in
  let state := setattr "show_email_builder" (VBool (kind_is "email")) state in
  let state := setattr "show_meeting_builder" (VBool (kind_is "meeting")) state in
  let state := setattr "show_tool_picker" (VBool false) state in
  (state, rerun).

(** The builder an action of the given type closes. *)
Definition close_builder (action_type : string) (state : SessionState) : SessionState :=
  if (action_type =? "email")%string then setattr "show_email_builder" (VBool false) state
  else if (action_type =? "meeting")%string
       then setattr "show_meeting_builder" (VBool false) state
       else state.

(** [queue_action_collapse(action_type, data)] at the clock reading [clock];
    the timestamp is kept as the count of seconds its text spells. *)
Definition queue_action_collapse (clock : Z) (action_type : string) (data : value)
    (state : SessionState) : result unit * SessionState :=
  let state := close_builder action_type state in
  let state := setattr "show_tool_picker" (VBool false) state in
  match getattr "pending_action_collapses" state with
  | Raise e => (Raise e, state)
  | Ok (VList pending) =>
      (Ok tt,
       setattr "pending_action_collapses"
         (VList (pending ++ [VDict [("type", VStr action_type);
                                    ("timestamp", VInt (Database.isoformat_seconds clock));
                                    ("data", data)]]))
         state)
  | Ok v =>
      (Raise (AttributeError ("'" ++ type_name v ++ "' object has no attribute 'append'")),
       state)
  end.

(** [entry["type"]] *)
Definition entry_type (entry : value) : result value :=
  match entry with
  | VDict entries =>
      match lookup "type" entries with
      | Some v => Ok v
      | None => Raise (OtherError "KeyError" "'type'")
      end
  | VList _ => Raise (TypeError "list indices must be integers or slices, not str")
  | VStr _ => Raise (TypeError "string indices must be integers, not 'str'")
  | _ => Raise (TypeError ("'" ++ type_name entry ++ "' object is not subscriptable"))
  end.

(** The loop of [handle_pending_action_collapses] over the pending entries. *)
Fixpoint collapse_builders (pending : list value) (state : SessionState)
  : result unit * SessionState :=
  match pending with
  | [] => (Ok tt, state)
  | entry :: rest =>
      match entry_type entry with
      | Raise e => (Raise e, state)
      | Ok t =>
          let state :=
            if eq_str t "email" then setattr "show_email_builder" (VBool false) state
            else if eq_str t "meeting"
                 then setattr "show_meeting_builder" (VBool false) state
                 else state in
          collapse_builders rest state
      end
  end.

Definition handle_pending_action_collapses (state : SessionState)
  : result unit * SessionState :=
  match getattr "pending_action_collapses" state with
  | Raise e => (Raise e, state)
  | Ok pending =>
      if negb (truthy pending) then (Ok tt, state)
      else
        match pending with
        | VList entries =>
            match collapse_builders entries state with
            | (Raise e, state) => (Raise e, state)
            | (Ok _, state) =>
                match getattr "recent_actions" state with
                | Raise e => (Raise e, state)
                | Ok (VList recent) =>
                    let updated := (entries ++ recent)%list in
                    let state :=
                      setattr "recent_actions"
                        (VList (firstn RECENT_ACTION_LIMIT updated)) state in
                    (Ok tt, setattr "pending_action_collapses" (VList []) state)
                | Ok v =>
                    (Raise (TypeError
                              ("can only concatenate list (not "
                               ++ String dquote (type_name v ++ String dquote ") to list"))),
                     state)
                end
            end
        | VStr _ | VDict _ =>
            (Raise (TypeError "string indices must be integers, not 'str'"), state)
        | _ =>
            (Raise (TypeError ("'" ++ type_name pending ++ "' object is not iterable")),
             state)
        end
  end.

Definition email_cues : list string :=
  ["email assistant"; "draft an email"; "compose an email"; "send an email"].

Definition meeting_cues : list string :=
  ["meeting assistant"; "schedule a meeting"; "calendar invite"; "book a meeting"].

(** [maybe_auto_open_assistant(response_text)].  [lower] is [str.lower],
    which maps by the Unicode tables of the interpreter; the tables are not
    modelled, and the function is given the mapping. *)
Definition maybe_auto_open_assistant (lower : string -> string)
    (response_text : option string) (state : SessionState) : SessionState :=
  match response_text with
  | None => state
  | Some text =>
      if (text =? "")%string then state
      else
        let lowered := lower text in
        if existsb (fun cue => contains cue lowered) email_cues
        then fst (activate_assistant (Some "email") false state)
        else if existsb (fun cue => contains cue lowered) meeting_cues
             then fst (activate_assistant (Some "meeting") false state)
             else state
  end.

End StateManager.

(** * Properties *)

(** ** Stores that meet the ordering contract *)

Module StoreOrders.
Import Database.

Section InsertionSort.

Variable A : Type.
Variable R : A -> A -> Prop.
Variable before : A -> A -> bool.
Hypothesis R_trans : forall x y z, R x y -> R y z -> R x z.
Hypothesis before_true : forall x y, before x y = true -> R x y.
Hypothesis before_false : forall x y, before x y = false -> R y x.

Lemma insert_row_perm (x : A) (rows : list A) :
  Permutation (x :: rows) (insert_row before x rows).
Proof.
  induction rows as [|y rows IH]; simpl.
  - apply Permutation_refl.
  - destruct (before x y).
    + apply Permutation_refl.
    + eapply perm_trans; [apply perm_swap|]. now apply perm_skip.
Qed.

Lemma insertion_sort_perm (rows : list A) :
  Permutation rows (insertion_sort before rows).
Proof.
  induction rows as [|x rows IH]; simpl.
  - apply perm_nil.
  - eapply perm_trans; [apply perm_skip, IH|]. apply insert_row_perm.
Qed.

Lemma insert_row_Forall (P : A -> Prop) (x : A) (rows : list A) :
  P x -> Forall P rows -> Forall P (insert_row before x rows).
Proof.
  intros Hx Hrows.
  eapply Permutation_Forall; [apply insert_row_perm|].
  now constructor.
Qed.

Lemma insert_row_sorted (x : A) (rows : list A) :
  StronglySorted R rows -> StronglySorted R (insert_row before x rows).
Proof.
  induction 1 as [|y rows Hs IH Hy]; simpl.
  - repeat constructor.
  - destruct (before x y) eqn:E.
    + constructor; [now constructor|].
      constructor; [now apply before_true|].
      eapply Forall_impl; [|exact Hy].
      intros z Hz. eapply R_trans; [apply before_true, E|exact Hz].
    + constructor; [exact IH|].
      apply insert_row_Forall; [now apply before_false|exact Hy].
Qed.

Lemma insertion_sort_sorted (rows : list A) :
  StronglySorted R (insertion_sort before rows).
Proof.
  induction rows as [|x rows IH]; simpl.
  - constructor.
  - now apply insert_row_sorted.
Qed.

End InsertionSort.

Lemma in_order_trans (desc : bool) (x y z : Z) :
  in_order desc x y -> in_order desc y z -> in_order desc x z.
Proof. destruct desc; simpl; lia. Qed.

Lemma stable_sort_sorted (A : Type) (key : A -> Z) (desc : bool) (rows : list A) :
  StronglySorted (fun a b => in_order desc (key a) (key b)) (stable_sort key desc rows).
Proof.
  apply insertion_sort_sorted.
  - intros x y z. apply in_order_trans.
  - intros x y. destruct desc; simpl; lia.
  - intros x y. destruct desc; simpl; lia.
Qed.

Lemma latest_first_sort_sorted (A : Type) (key : A -> Z) (desc : bool) (rows : list A) :
  StronglySorted (fun a b => in_order desc (key a) (key b)) (latest_first_sort key desc rows).
Proof.
  apply insertion_sort_sorted.
  - intros x y z. apply in_order_trans.
  - intros x y. destruct desc; simpl; lia.
  - intros x y. destruct desc; simpl; lia.
Qed.

Definition stable_store : StoreOrder := {|
  order := @stable_sort;
  order_perm := fun A key desc rows => insertion_sort_perm A _ rows;
  order_sorted := stable_sort_sorted
|}.

Definition latest_first_store : StoreOrder := {|
  order := @latest_first_sort;
  order_perm := fun A key desc rows => insertion_sort_perm A _ rows;
  order_sorted := latest_first_sort_sorted
|}.

End StoreOrders.

(** ** The completion adapter *)

Module AzureLlmFacts.
Import AzureLlm.

(** The provider's payload as the specification reads it: the value found by
    following keys through nested objects, if every step is there. *)
Fixpoint path (keys : list string) (v : value) : option value :=
  match keys with
  | [] => Some v
  | k :: keys' =>
      match v with
      | VDict entries =>
          match lookup k entries with
          | Some v' => path keys' v'
          | None => None
          end
      | _ => None
      end
  end.

Definition error_code (payload : value) : option value := path ["error"; "code"] payload.

Definition jailbreak_filtered (payload : value) : option value :=
  path ["error"; "innererror"; "content_filter_result"; "jailbreak"; "filtered"] payload.

(** The level reached by [keys] is an object, or is not there at all. *)
Definition object_if_present (keys : list string) (payload : value) : Prop :=
  match path keys payload with
  | Some (VDict _) | None => True
  | Some _ => False
  end.

(** An SDK whose every request the provider rejects with the given payload:
    the [BadRequestError] it raises carries [status_error_body] of it. *)
Definition rejecting_sdk (float : Type) (payload : value) : Sdk float :=
  {| create := fun _ _ =>
       Raise (BadRequestError "Error code: 400" (status_error_body payload));
     create_stream := fun _ _ =>
       Raise (BadRequestError "Error code: 400" (status_error_body payload)) |}.

(** An SDK that answers every request with the same response or stream. *)
Definition answering_sdk (float : Type) (resp : Response) (events : Stream) : Sdk float :=
  {| create := fun _ _ => Ok resp;
     create_stream := fun _ _ => Ok events |}.

(** An SDK whose every request runs into the deadline. *)
Definition timing_out_sdk (float : Type) : Sdk float :=
  {| create := fun _ _ => Raise APITimeoutError;
     create_stream := fun _ _ => Raise APITimeoutError |}.

(** An SDK whose every request raises the given exception. *)
Definition failing_sdk (float : Type) (e : exn) : Sdk float :=
  {| create := fun _ _ => Raise e; create_stream := fun _ _ => Raise e |}.

Definition classic_env : Env :=
  {| AZURE_OPENAI_ENDPOINT := Some "https://usf.openai.azure.com/";
     AZURE_OPENAI_API_KEY := Some "key";
     AZURE_OPENAI_API_VERSION := None |}.

(** The client [classic_env] asks for. *)
Definition classic_client : Client :=
  AzureOpenAI "key" DEFAULT_AZURE_OPENAI_API_VERSION "https://usf.openai.azure.com".

(** Whole seconds, printed the way Python prints such a float. *)
Definition seconds_str (t : Z) : string := repr_int t ++ ".0".

(** The exception with which iterating the stream ends, if it does. *)
Fixpoint stream_fault (s : Stream) : option exn :=
  match s with
  | SEnd => None
  | SFault e => Some e
  | SEvent _ rest => stream_fault rest
  end.

Lemma lookup_some_nonempty (k : string) (entries : list (string * value)) (v : value) :
  lookup k entries = Some v -> truthy (VDict entries) = true.
Proof. destruct entries; [discriminate | reflexivity]. Qed.

(** What the handler is written for.  Were [exc.body] the provider's whole
    payload, a content-filter rejection whose nested levels are objects
    wherever they are present would be raised by its jailbreak flag. *)
Lemma on_bad_request_classifies (exc : exn) (payload : value) :
  error_code payload = Some (VStr "content_filter") ->
  object_if_present ["error"; "innererror"] payload ->
  object_if_present ["error"; "innererror"; "content_filter_result"] payload ->
  object_if_present ["error"; "innererror"; "content_filter_result"; "jailbreak"] payload ->
  (jailbreak_filtered payload = Some (VBool true) ->
   on_bad_request exc payload = PromptInjectionBlocked)
  /\ (jailbreak_filtered payload = Some (VBool false) \/ jailbreak_filtered payload = None ->
      on_bad_request exc payload = ContentPolicyBlocked).
Proof.
  unfold error_code, jailbreak_filtered, object_if_present, on_bad_request.
  destruct payload as [| | | | |es]; try discriminate.
  cbn [path]. destruct (lookup "error" es) as [detail|] eqn:Herr; try discriminate.
  unfold py_or. rewrite (lookup_some_nonempty _ _ _ Herr).
  cbn [get bind]. rewrite Herr.
  destruct detail as [| | | | |ed]; try discriminate.
  cbn [get bind]. destruct (lookup "code" ed) as [code|]; try discriminate.
  intros Hcode. injection Hcode as ->. cbn [eq_str]. rewrite String.eqb_refl.
  destruct (lookup "innererror" ed) as [[| | | | |ei]|]; cbn; try tauto;
    try (intros; split; [discriminate | reflexivity]).
  destruct (lookup "content_filter_result" ei) as [[| | | | |ef]|]; cbn; try tauto;
    try (intros; split; [discriminate | reflexivity]).
  destruct (lookup "jailbreak" ef) as [[| | | | |ej]|]; cbn; try tauto;
    try (intros; split; [discriminate | reflexivity]).
  intros _ _ _.
  destruct (lookup "filtered" ej) as [flag|]; cbn.
  - split.
    + intros [= ->]. reflexivity.
    + intros [[= ->]|[=]]. reflexivity.
  - split; [discriminate | reflexivity].
Qed.

(** A body without an [error] entry has no error code for the handler, which
    raises the exception again. *)
Lemma on_bad_request_without_error (exc : exn) (entries : list (string * value)) :
  lookup "error" entries = None -> on_bad_request exc (VDict entries) = exc.
Proof.
  intros Hnone. unfold on_bad_request, py_or.
  destruct entries as [|kv entries]; [reflexivity|].
  cbn [truthy get bind]. rewrite Hnone. reflexivity.
Qed.

(** What the handler raises reaches the caller of either operation. *)
Lemma rejections_reach_the_caller (float : Type) (float_str : float -> string)
    (sdk : Sdk float) (cache : ClientCache) (env : Env) (deployment : option string)
    (messages : list ChatMessage) (temperature : float) (deployment_name : string)
    (timeout : float) (model : string) (client : Client) (cache' : ClientCache)
    (m : string) (body : value) :
  require_azure_env deployment deployment_name = Ok model ->
  get_azure_client cache env = (Ok client, cache') ->
  (create sdk client
     {| AzureLlm.model := model; AzureLlm.messages := messages;
        AzureLlm.temperature := temperature; stream := false;
        AzureLlm.timeout := timeout |} = Raise (BadRequestError m body) ->
   complete_chat float float_str sdk cache env deployment messages temperature
     deployment_name timeout
   = (Raise (on_bad_request (BadRequestError m body) body), cache'))
  /\ (create_stream sdk client
        {| AzureLlm.model := model; AzureLlm.messages := messages;
           AzureLlm.temperature := temperature; stream := true;
           AzureLlm.timeout := timeout |} = Raise (BadRequestError m body) ->
      stream_chat float float_str sdk cache env deployment messages temperature
        deployment_name timeout
      = (GRaise (on_bad_request (BadRequestError m body) body), cache')).
Proof.
  intros Hmodel Hclient. unfold complete_chat, stream_chat.
  rewrite Hmodel, Hclient.
  split; intros ->; reflexivity.
Qed.

(** The error object of a content-filter payload is what [exc.body] holds. *)
Lemma status_error_body_detail (payload : value) :
  error_code payload = Some (VStr "content_filter") ->
  path ["error"; "error"] payload = None ->
  exists detail,
    status_error_body payload = VDict detail
    /\ path ["error"] payload = Some (VDict detail)
    /\ lookup "error" detail = None.
Proof.
  unfold error_code. destruct payload as [| | | | |es]; try discriminate.
  cbn [path status_error_body].
  destruct (lookup "error" es) as [[| | | | |ed]|]; try discriminate.
  intros _ Hnone. exists ed. repeat split.
  now destruct (lookup "error" ed).
Qed.

(** C1, where it fails.  The provider rejects a request with a payload whose
    error code is [content_filter]; the SDK raises [BadRequestError] with the
    payload's error object as its body.  The handler looks for an [error]
    entry inside that object, finds none, and raises the exception again:
    both operations let the [BadRequestError] through as it came, whatever
    the jailbreak flag of the payload, and raise neither
    [PromptInjectionBlocked] nor [ContentPolicyBlocked]. *)
Theorem C1_rejections_are_not_classified (float : Type) (float_str : float -> string)
    (sdk : Sdk float) (cache : ClientCache) (env : Env) (deployment : option string)
    (messages : list ChatMessage) (temperature : float) (deployment_name : string)
    (timeout : float) (model : string) (client : Client) (cache' : ClientCache)
    (m : string) (payload : value) :
  require_azure_env deployment deployment_name = Ok model ->
  get_azure_client cache env = (Ok client, cache') ->
  error_code payload = Some (VStr "content_filter") ->
  path ["error"; "error"] payload = None ->
  let request streaming :=
    {| AzureLlm.model := model; AzureLlm.messages := messages;
       AzureLlm.temperature := temperature; stream := streaming;
       AzureLlm.timeout := timeout |} in
  let rejection := BadRequestError m (status_error_body payload) in
  (create sdk client (request false) = Raise rejection ->
   fst (complete_chat float float_str sdk cache env deployment messages temperature
          deployment_name timeout) = Raise rejection)
  /\ (create_stream sdk client (request true) = Raise rejection ->
      fst (stream_chat float float_str sdk cache env deployment messages temperature
             deployment_name timeout) = GRaise rejection)
  /\ rejection <> PromptInjectionBlocked
  /\ rejection <> ContentPolicyBlocked.
Proof.
  intros Hmodel Hclient Hcode Hinner request rejection.
  destruct (status_error_body_detail payload Hcode Hinner) as (detail & Hbody & _ & Hnone).
  destruct (rejections_reach_the_caller float float_str sdk cache env deployment messages
              temperature deployment_name timeout model client cache' m
              (status_error_body payload) Hmodel Hclient) as [Hc Hs].
  fold (request false) in Hc. fold (request true) in Hs. fold rejection in Hc, Hs.
  assert (Hsame : on_bad_request rejection (status_error_body payload) = rejection)
    by (rewrite Hbody; now apply on_bad_request_without_error).
  rewrite Hsame in Hc, Hs.
  repeat split; try discriminate.
  - intros H. now rewrite (Hc H).
  - intros H. now rewrite (Hs H).
Qed.

(** A content-filter rejection as the provider words it, with the jailbreak
    category filtered. *)
Definition jailbreak_payload : value :=
  VDict [("error",
          VDict [("message", VStr "The response was filtered.");
                 ("type", VNone);
                 ("param", VStr "prompt");
                 ("code", VStr "content_filter");
                 ("status", VInt 400);
                 ("innererror",
                  VDict [("code", VStr "ResponsibleAIPolicyViolation");
                         ("content_filter_result",
                          VDict [("hate", VDict [("filtered", VBool false)]);
                                 ("jailbreak",
                                  VDict [("filtered", VBool true);
                                         ("detected", VBool true)])])])])].

Lemma C1_rejections_are_not_classified_witness :
  jailbreak_filtered jailbreak_payload = Some (VBool true)
  /\ fst (complete_chat Z seconds_str (rejecting_sdk Z jailbreak_payload) None classic_env
            (Some "phi-4") [] 0 "AZURE_PHI4_SPECIALIST" 60)
     = Raise (BadRequestError "Error code: 400" (status_error_body jailbreak_payload))
  /\ fst (stream_chat Z seconds_str (rejecting_sdk Z jailbreak_payload) None classic_env
            (Some "phi-4") [] 0 "AZURE_PHI4_ORCHESTRATOR" 60)
     = GRaise (BadRequestError "Error code: 400" (status_error_body jailbreak_payload)).
Proof.
  split; [reflexivity|]. split.
  - apply (C1_rejections_are_not_classified Z seconds_str
             (rejecting_sdk Z jailbreak_payload) None classic_env (Some "phi-4") [] 0
             "AZURE_PHI4_SPECIALIST" 60 "phi-4" classic_client (Some classic_client)
             "Error code: 400" jailbreak_payload);
      reflexivity.
  - apply (C1_rejections_are_not_classified Z seconds_str
             (rejecting_sdk Z jailbreak_payload) None classic_env (Some "phi-4") [] 0
             "AZURE_PHI4_ORCHESTRATOR" 60 "phi-4" classic_client (Some classic_client)
             "Error code: 400" jailbreak_payload);
      reflexivity.
Defined.

(** *** Timeouts *)

(** What the handlers are written for: a builtin [TimeoutError] of the request
    becomes [RequestTimeout] with the configured timeout, in both
    operations. *)
Lemma builtin_timeouts_are_classified (float : Type) (float_str : float -> string)
    (sdk : Sdk float) (cache : ClientCache) (env : Env) (deployment : option string)
    (messages : list ChatMessage) (temperature : float) (deployment_name : string)
    (timeout : float) (model : string) (client : Client) (cache' : ClientCache) :
  require_azure_env deployment deployment_name = Ok model ->
  get_azure_client cache env = (Ok client, cache') ->
  let request streaming :=
    {| AzureLlm.model := model; AzureLlm.messages := messages;
       AzureLlm.temperature := temperature; stream := streaming;
       AzureLlm.timeout := timeout |} in
  (forall m, create sdk client (request false) = Raise (TimeoutError m) ->
     fst (complete_chat float float_str sdk cache env deployment messages temperature
            deployment_name timeout) = Raise (RequestTimeout float float_str timeout))
  /\ (forall m, create_stream sdk client (request true) = Raise (TimeoutError m) ->
        fst (stream_chat float float_str sdk cache env deployment messages temperature
               deployment_name timeout) = GRaise (RequestTimeout float float_str timeout)).
Proof.
  intros Hmodel Hclient request. unfold complete_chat, stream_chat.
  rewrite Hmodel, Hclient. fold (request false). fold (request true).
  split; intros m ->; reflexivity.
Qed.

(** An exception of the request that is not a [BadRequestError], a
    [NotFoundError] or a [TimeoutError] leaves both operations as it came. *)
Lemma other_errors_pass_through (float : Type) (float_str : float -> string)
    (sdk : Sdk float) (cache : ClientCache) (env : Env) (deployment : option string)
    (messages : list ChatMessage) (temperature : float) (deployment_name : string)
    (timeout : float) (model : string) (client : Client) (cache' : ClientCache)
    (e : exn) :
  require_azure_env deployment deployment_name = Ok model ->
  get_azure_client cache env = (Ok client, cache') ->
  (forall m body, e <> BadRequestError m body) ->
  (forall m, e <> NotFoundError m) ->
  (forall m, e <> TimeoutError m) ->
  let request streaming :=
    {| AzureLlm.model := model; AzureLlm.messages := messages;
       AzureLlm.temperature := temperature; stream := streaming;
       AzureLlm.timeout := timeout |} in
  (create sdk client (request false) = Raise e ->
   complete_chat float float_str sdk cache env deployment messages temperature
     deployment_name timeout = (Raise e, cache'))
  /\ (create_stream sdk client (request true) = Raise e ->
      stream_chat float float_str sdk cache env deployment messages temperature
        deployment_name timeout = (GRaise e, cache')).
Proof.
  intros Hmodel Hclient Hbad Hnot Htime request. unfold complete_chat, stream_chat.
  rewrite Hmodel, Hclient. fold (request false) (request true).
  split; intros ->; destruct e; try reflexivity;
    solve [ exfalso; eapply Hbad; reflexivity
          | exfalso; eapply Hnot; reflexivity
          | exfalso; eapply Htime; reflexivity ].
Qed.

(** C2, where it fails.  A request that runs into the transport deadline
    raises the SDK's [APITimeoutError], which is no [TimeoutError]: neither
    operation has a handler for it, and it reaches the caller as it came, not
    as [RequestTimeout]. *)
Theorem C2_deadline_is_not_classified (float : Type) (float_str : float -> string)
    (sdk : Sdk float) (cache : ClientCache) (env : Env) (deployment : option string)
    (messages : list ChatMessage) (temperature : float) (deployment_name : string)
    (timeout : float) (model : string) (client : Client) (cache' : ClientCache) :
  require_azure_env deployment deployment_name = Ok model ->
  get_azure_client cache env = (Ok client, cache') ->
  let request streaming :=
    {| AzureLlm.model := model; AzureLlm.messages := messages;
       AzureLlm.temperature := temperature; stream := streaming;
       AzureLlm.timeout := timeout |} in
  (create sdk client (request false) = Raise APITimeoutError ->
   fst (complete_chat float float_str sdk cache env deployment messages temperature
          deployment_name timeout) = Raise APITimeoutError)
  /\ (create_stream sdk client (request true) = Raise APITimeoutError ->
      fst (stream_chat float float_str sdk cache env deployment messages temperature
             deployment_name timeout) = GRaise APITimeoutError)
  /\ APITimeoutError <> RequestTimeout float float_str timeout.
Proof.
  intros Hmodel Hclient request.
  destruct (other_errors_pass_through float float_str sdk cache env deployment messages
              temperature deployment_name timeout model client cache' APITimeoutError
              Hmodel Hclient) as [Hc Hs]; try discriminate.
  fold (request false) in Hc. fold (request true) in Hs.
  repeat split; try discriminate.
  - intros H. now rewrite (Hc H).
  - intros H. now rewrite (Hs H).
Qed.

Lemma C2_deadline_is_not_classified_witness :
  fst (complete_chat Z seconds_str (timing_out_sdk Z) None classic_env (Some "phi-4") [] 0
         "AZURE_PHI4_SPECIALIST" 60) = Raise APITimeoutError
  /\ fst (stream_chat Z seconds_str (timing_out_sdk Z) None classic_env (Some "phi-4") [] 0
            "AZURE_PHI4_ORCHESTRATOR" 60) = GRaise APITimeoutError
  /\ APITimeoutError <> RequestTimeout Z seconds_str 60.
Proof.
  split; [|split].
  - apply (C2_deadline_is_not_classified Z seconds_str (timing_out_sdk Z) None classic_env
             (Some "phi-4") [] 0 "AZURE_PHI4_SPECIALIST" 60 "phi-4" classic_client
             (Some classic_client) eq_refl eq_refl).
    reflexivity.
  - apply (C2_deadline_is_not_classified Z seconds_str (timing_out_sdk Z) None classic_env
             (Some "phi-4") [] 0 "AZURE_PHI4_ORCHESTRATOR" 60 "phi-4" classic_client
             (Some classic_client) eq_refl eq_refl).
    reflexivity.
  - apply (C2_deadline_is_not_classified Z seconds_str (timing_out_sdk Z) None classic_env
             (Some "phi-4") [] 0 "AZURE_PHI4_SPECIALIST" 60 "phi-4" classic_client
             (Some classic_client) eq_refl eq_refl).
Defined.

(** A stream that hands over one fragment and then stalls past the deadline:
    iterating it raises the transport's read timeout. *)
Definition stalling_stream : Stream :=
  SEvent {| event_choices := [ {| delta := Some {| content := VStr "Hel" |} |} ] |}
    (SFault (OtherError "ReadTimeout" "The read operation timed out")).

(** When the deadline passes while the stream is drained, [stream_chat] yields
    the fragment it had and then raises [StreamProcessingError], as for any
    fault of the stream. *)
Lemma deadline_while_draining :
  let g := fst (stream_chat Z seconds_str
                  (answering_sdk Z {| choices := [] |} stalling_stream) None classic_env
                  (Some "phi-4") [] 0 "AZURE_PHI4_ORCHESTRATOR" 60) in
  yielded g = ["Hel"]
  /\ outcome g
     = Some (StreamProcessingError
               (OtherError "ReadTimeout" "The read operation timed out"))
  /\ outcome g <> Some (RequestTimeout Z seconds_str 60).
Proof. cbv zeta. repeat split. discriminate. Qed.

(** *** Content normalization *)

(** The text a part of a structured content carries, if any: a string item,
    or the non-empty string under [text] of a typed part. *)
Definition part_text (item : value) : option string :=
  match item with
  | VStr s => Some s
  | VDict entries =>
      match lookup "text" entries with
      | Some (VStr t) => if (t =? "")%string then None else Some t
      | _ => None
      end
  | _ => None
  end.

Fixpoint texts (items : list value) : list string :=
  match items with
  | [] => []
  | item :: rest =>
      match part_text item with
      | Some t => t :: texts rest
      | None => texts rest
      end
  end.

(** The [text] of a typed part is a string, or null, or is not there. *)
Definition text_is_str (item : value) : Prop :=
  match item with
  | VDict entries =>
      match lookup "text" entries with
      | Some (VStr _) | Some VNone | None => True
      | Some _ => False
      end
  | _ => True
  end.

Lemma content_str_unchanged (s : string) : _content_to_text (VStr s) = Ok s.
Proof. reflexivity. Qed.

Lemma content_null_is_empty : _content_to_text VNone = Ok "".
Proof. reflexivity. Qed.

Lemma content_empty_list_is_empty : _content_to_text (VList []) = Ok "".
Proof. reflexivity. Qed.

Lemma text_parts_texts (items : list value) :
  Forall text_is_str items -> text_parts items = map VStr (texts items).
Proof.
  induction 1 as [|item rest Hitem _ IH]; [reflexivity|].
  destruct item as [| | |s| |entries]; simpl; rewrite ?IH; try reflexivity.
  simpl in Hitem.
  destruct (lookup "text" entries) as [[| | |t| |]|]; simpl; try tauto.
  destruct (t =? "")%string; reflexivity.
Qed.

Lemma join_from_strings (i : nat) (parts : list string) :
  join_from i (map VStr parts) = Ok (String.concat "" parts).
Proof.
  revert i. induction parts as [|s parts IH]; intros i; [reflexivity|].
  simpl. rewrite IH. destruct parts; simpl; [|reflexivity].
  f_equal. induction s; simpl; congruence.
Qed.

(** X2: a structured content with at least one text-carrying part normalizes to
    the texts of its parts, in order; the other parts leave no trace. *)
Lemma content_parts_concatenated (items : list value) :
  Forall text_is_str items ->
  texts items <> [] ->
  _content_to_text (VList items) = Ok (String.concat "" (texts items)).
Proof.
  intros Hstr Hsome. unfold _content_to_text.
  rewrite (text_parts_texts _ Hstr).
  destruct (texts items) as [|t ts] eqn:E; [congruence|].
  apply (join_from_strings 0 (t :: ts)).
Qed.

(** A list with no text-carrying part, unless it is empty, normalizes to the
    text Python prints the list as. *)
Lemma content_without_text_is_printed (item : value) (items : list value) :
  text_parts (item :: items) = [] ->
  _content_to_text (VList (item :: items)) = Ok (repr (VList (item :: items)))
  /\ _content_to_text (VList (item :: items)) <> Ok "".
Proof.
  intros H. unfold _content_to_text. rewrite H.
  split; [reflexivity|]. cbn. discriminate.
Qed.

(** C3, at a content that is not normalized to the empty string: a list whose
    only part is an image part carries no text, and [_content_to_text] returns
    the printed list instead of the empty string. *)
Theorem C3_list_without_text_is_printed :
  texts [VDict [("type", VStr "image_url")]] = []
  /\ _content_to_text (VList [VDict [("type", VStr "image_url")]])
     = Ok "[{'type': 'image_url'}]"
  /\ _content_to_text (VList [VDict [("type", VStr "image_url")]]) <> Ok "".
Proof. repeat split. discriminate. Qed.

(** *** Zero choices *)

(** C7: when the provider's response has no choices, [complete_chat] returns
    the empty string and raises nothing. *)
Theorem C7_zero_choices_give_empty_string (float : Type) (float_str : float -> string)
    (sdk : Sdk float) (cache : ClientCache) (env : Env) (deployment : option string)
    (messages : list ChatMessage) (temperature : float) (deployment_name : string)
    (timeout : float) (model : string) (client : Client) (cache' : ClientCache)
    (resp : Response) :
  require_azure_env deployment deployment_name = Ok model ->
  get_azure_client cache env = (Ok client, cache') ->
  create sdk client
    {| AzureLlm.model := model; AzureLlm.messages := messages;
       AzureLlm.temperature := temperature; stream := false;
       AzureLlm.timeout := timeout |} = Ok resp ->
  choices resp = [] ->
  fst (complete_chat float float_str sdk cache env deployment messages temperature
         deployment_name timeout) = Ok "".
Proof.
  intros Hmodel Hclient Hresp Hnone. unfold complete_chat.
  rewrite Hmodel, Hclient, Hresp, Hnone. reflexivity.
Qed.

Lemma C7_zero_choices_give_empty_string_witness :
  fst (complete_chat Z seconds_str (answering_sdk Z {| choices := [] |} SEnd) None
         classic_env (Some "phi-4") [[("role", "user"); ("content", "hello")]] 0
         "AZURE_PHI4_SPECIALIST" 60) = Ok "".
Proof.
  apply (C7_zero_choices_give_empty_string Z seconds_str
           (answering_sdk Z {| choices := [] |} SEnd) None classic_env (Some "phi-4")
           [[("role", "user"); ("content", "hello")]] 0 "AZURE_PHI4_SPECIALIST" 60
           "phi-4" classic_client (Some classic_client) {| choices := [] |});
    reflexivity.
Defined.

(** *** Streamed fragments *)

(** A choice whose delta is missing, or whose content is null or empty, is
    passed over. *)
Lemma empty_delta_is_skipped (c : StreamChoice) (cs : list StreamChoice) (k : Generator) :
  delta c = None
  \/ delta c = Some {| content := VNone |}
  \/ delta c = Some {| content := VStr "" |}
  \/ delta c = Some {| content := VList [] |} ->
  drain_choices (c :: cs) k = drain_choices cs k.
Proof. intros [H|[H|[H|H]]]; simpl; rewrite H; reflexivity. Qed.

(** No item of a list content is the empty string. *)
Definition no_empty_item (v : value) : Prop :=
  match v with
  | VList items => ~ In (VStr "") items
  | _ => True
  end.

Fixpoint stream_contents (s : Stream) : list value :=
  match s with
  | SEnd | SFault _ => []
  | SEvent event rest =>
      flat_map (fun c => match delta c with
                         | Some d => [content d]
                         | None => []
                         end) (event_choices event)
      ++ stream_contents rest
  end.

Lemma repr_int_nonempty (n : Z) : repr_int n <> "".
Proof.
  unfold repr_int. destruct (Z.to_int n) as [u|u]; [|discriminate].
  destruct u; discriminate.
Qed.

Lemma text_parts_truthy (items : list value) :
  ~ In (VStr "") items -> Forall (fun v => truthy v = true) (text_parts items).
Proof.
  induction items as [|item rest IH]; intros Hno; [constructor|].
  assert (Hrest : Forall (fun v => truthy v = true) (text_parts rest))
    by (apply IH; intros Hin; apply Hno; now right).
  destruct item as [| | |s| |entries]; simpl; try exact Hrest.
  - constructor; [|exact Hrest]. simpl.
    destruct s; [exfalso; apply Hno; now left | reflexivity].
  - destruct (lookup "text" entries) as [text|]; [|exact Hrest].
    destruct (truthy text) eqn:E; [|exact Hrest]. now constructor.
Qed.

Lemma join_truthy_nonempty (i : nat) (part : value) (parts : list value) (s : string) :
  truthy part = true -> join_from i (part :: parts) = Ok s -> s <> "".
Proof.
  destruct part as [| | |t| |]; simpl; try discriminate.
  destruct t; [discriminate|].
  destruct (join_from (S i) parts); [|discriminate].
  intros _ [= <-]. discriminate.
Qed.

Lemma truthy_content_gives_text (c : value) (s : string) :
  no_empty_item c -> truthy c = true -> _content_to_text c = Ok s -> s <> "".
Proof.
  intros Hno Htrue.
  destruct c as [|b|n|t|items|entries]; simpl in Htrue; try discriminate.
  - destruct b; [|discriminate]. intros [= <-]. discriminate.
  - unfold _content_to_text, py_or. simpl. rewrite Htrue.
    intros [= <-]. apply repr_int_nonempty.
  - intros [= <-]. now destruct t.
  - unfold _content_to_text.
    pose proof (text_parts_truthy items Hno) as Hparts.
    destruct (text_parts items) as [|part parts].
    + unfold py_or. simpl. rewrite Htrue. intros [= <-]. discriminate.
    + inversion Hparts; subst. now apply join_truthy_nonempty.
  - unfold _content_to_text, py_or. simpl. rewrite Htrue.
    intros [= <-]. discriminate.
Qed.

Lemma drain_choices_fragments (cs : list StreamChoice) (k : Generator) :
  Forall no_empty_item
    (flat_map (fun c => match delta c with
                        | Some d => [content d]
                        | None => []
                        end) cs) ->
  Forall (fun fragment => fragment <> "") (yielded k) ->
  Forall (fun fragment => fragment <> "") (yielded (drain_choices cs k)).
Proof.
  intros Hcs Hk. induction cs as [|c cs IH]; simpl; [exact Hk|].
  simpl in Hcs. apply Forall_app in Hcs as [Hc Hcs].
  specialize (IH Hcs).
  destruct (delta c) as [d|]; [|exact IH].
  destruct (truthy (content d)) eqn:Htrue; [|exact IH].
  destruct (_content_to_text (content d)) as [fragment|e] eqn:Htext; simpl.
  - constructor; [|exact IH].
    inversion Hc; subst. now apply truthy_content_gives_text with (c := content d).
  - constructor.
Qed.

(** When no list content has an empty-string item, every fragment of the
    drain is a non-empty string. *)
Lemma drain_fragments_nonempty (events : Stream) :
  Forall no_empty_item (stream_contents events) ->
  Forall (fun fragment => fragment <> "") (yielded (drain events)).
Proof.
  induction events as [| e | event rest IH]; simpl; intros H; try constructor.
  apply Forall_app in H as [Hevent Hrest].
  apply drain_choices_fragments; [exact Hevent | now apply IH].
Qed.

(** A stream whose one delta has the content [[""]]: a list, not empty, whose
    only item is the empty string. *)
Definition empty_item_stream : Stream :=
  SEvent {| event_choices := [ {| delta := Some {| content := VList [VStr ""] |} |} ] |}
    SEnd.

(** C9, at a stream where it fails: the content [[""]] is truthy, so it is not
    skipped, and it normalizes to the empty string, which [stream_chat] yields
    as a fragment. *)
Theorem C9_empty_item_is_yielded (float : Type) (float_str : float -> string)
    (cache : ClientCache) (messages : list ChatMessage) (temperature timeout : float) :
  truthy (VList [VStr ""]) = true
  /\ fst (stream_chat float float_str
            (answering_sdk float {| choices := [] |} empty_item_stream) cache classic_env
            (Some "phi-4") messages temperature "AZURE_PHI4_ORCHESTRATOR" timeout)
     = GYield "" GStop.
Proof. split; [reflexivity|]. now destruct cache. Qed.

(** Both operations normalize with the one function: [complete_chat] returns
    the normalized content of the first choice, and the drain yields the
    normalized content of every delta that is not skipped. *)
Lemma one_normalization (float : Type) (float_str : float -> string)
    (sdk : Sdk float) (cache : ClientCache) (env : Env) (deployment : option string)
    (messages : list ChatMessage) (temperature : float) (deployment_name : string)
    (timeout : float) (model : string) (client : Client) (cache' : ClientCache)
    (c : value) (others : list Choice) :
  require_azure_env deployment deployment_name = Ok model ->
  get_azure_client cache env = (Ok client, cache') ->
  create sdk client
    {| AzureLlm.model := model; AzureLlm.messages := messages;
       AzureLlm.temperature := temperature; stream := false;
       AzureLlm.timeout := timeout |}
  = Ok {| choices := {| message_content := c |} :: others |} ->
  fst (complete_chat float float_str sdk cache env deployment messages temperature
         deployment_name timeout) = _content_to_text c
  /\ (truthy c = true ->
      forall s cs k,
        _content_to_text c = Ok s ->
        drain_choices ({| delta := Some {| content := c |} |} :: cs) k
        = GYield s (drain_choices cs k)).
Proof.
  intros Hmodel Hclient Hresp. split.
  - unfold complete_chat. now rewrite Hmodel, Hclient, Hresp.
  - intros Htrue s cs k Htext. cbn. now rewrite Htrue, Htext.
Qed.

(** X11: the fragments of [stream_chat] are non-empty whenever the streams the SDK
    hands back have no empty-string item in a list content. *)
Lemma stream_chat_fragments_nonempty (float : Type) (float_str : float -> string)
    (sdk : Sdk float) (cache : ClientCache) (env : Env) (deployment : option string)
    (messages : list ChatMessage) (temperature : float) (deployment_name : string)
    (timeout : float) :
  (forall client request events,
      create_stream sdk client request = Ok events ->
      Forall no_empty_item (stream_contents events)) ->
  Forall (fun fragment => fragment <> "")
    (yielded (fst (stream_chat float float_str sdk cache env deployment messages
                     temperature deployment_name timeout))).
Proof.
  intros Hclean. unfold stream_chat.
  destruct (require_azure_env deployment deployment_name) as [model|e]; [|constructor].
  destruct (get_azure_client cache env) as [[client|e] cache']; [|constructor].
  cbn [fst].
  match goal with |- context [create_stream sdk client ?r] =>
    destruct (create_stream sdk client r) as [events|e] eqn:E end.
  - apply drain_fragments_nonempty. eapply Hclean, E.
  - destruct e; constructor.
Qed.

End AzureLlmFacts.

(** ** The persistence gateway *)

Module DatabaseFacts.
Import Database StoreOrders.

(** A world with an empty store in which no store call fails. *)
Definition fresh : World :=
  {| store := {| chat_sessions := []; messages := [] |}; faults := []; log := [] |}.

(** *** Reads and the empty query *)

Lemma get_session_reads_only (session_id : string) (w : World) :
  store (snd (get_session session_id w)) = store w.
Proof.
  unfold get_session, try_except, and_then, execute, logger_error, ret.
  destruct w as [s f l]; simpl. destruct f as [|[|] rest]; reflexivity.
Qed.

Lemma get_user_sessions_reads_only (so : StoreOrder) (user : string) (w : World) :
  store (snd (get_user_sessions user w)) = store w.
Proof.
  unfold get_user_sessions, try_except, and_then, execute, logger_error, ret.
  destruct w as [s f l]; simpl. destruct f as [|[|] rest]; reflexivity.
Qed.

Lemma get_session_messages_reads_only (so : StoreOrder) (session_id : string) (w : World) :
  store (snd (get_session_messages session_id w)) = store w.
Proof.
  unfold get_session_messages, try_except, and_then, execute, logger_error, ret.
  destruct w as [s f l]; simpl. destruct f as [|[|] rest]; reflexivity.
Qed.

(** [get_user_sessions] never raises: a failed read is an empty list. *)
Lemma get_user_sessions_returns (so : StoreOrder) (user : string) (w : World) :
  exists rows, fst (get_user_sessions user w) = Ok rows.
Proof.
  unfold get_user_sessions, try_except, and_then, execute, logger_error, ret.
  destruct w as [s f l]; simpl. destruct f as [|[|] rest]; simpl; eauto.
Qed.

(** C8: with the empty query, [search_sessions] hands back what its call of
    [get_user_sessions] returned, the same rows in the same order, and leaves
    the world as that call left it. *)
Theorem C8_empty_query_lists_all (so : StoreOrder) (user : string) (w : World) :
  search_sessions user "" w = get_user_sessions user w.
Proof.
  unfold search_sessions, and_then.
  destruct (get_user_sessions_returns so user w) as [rows Hrows].
  destruct (get_user_sessions user w) as [r w'] eqn:E. simpl in Hrows. subst r.
  reflexivity.
Qed.

(** *** Deleting a session *)

Definition delete_failure_line (session_id : string) : string :=
  "Failed to delete session " ++ session_id ++ ": " ++ exn_str store_failure.

(** C10: [delete_session] returns [None] in every world, raising nothing.
    When the first delete fails the store is left as it was; when the second
    fails the messages are gone and the session row stays; either failure
    leaves one line in the log and the same return value as a deletion that
    went through. *)
Theorem C10_delete_session_hides_failure (session_id : string) (s : Store)
    (rest : list bool) (lines : list string) :
  (forall w, fst (delete_session session_id w) = Ok tt)
  /\ delete_session session_id {| store := s; faults := true :: rest; log := lines |}
     = (Ok tt, {| store := s; faults := rest;
                  log := lines ++ [delete_failure_line session_id] |})
  /\ delete_session session_id
       {| store := s; faults := false :: true :: rest; log := lines |}
     = (Ok tt, {| store := snd (delete_session_messages session_id s); faults := rest;
                  log := lines ++ [delete_failure_line session_id] |})
  /\ delete_session session_id
       {| store := s; faults := false :: false :: rest; log := lines |}
     = (Ok tt, {| store := snd (delete_session_row session_id
                                  (snd (delete_session_messages session_id s)));
                  faults := rest; log := lines |}).
Proof.
  repeat split.
  intros [s' f l]. unfold delete_session, try_except, and_then, execute, logger_error, ret.
  simpl. destruct f as [|[|] [|[|] f']]; reflexivity.
Qed.

(** *** Renaming a session *)

Definition renamed (now : Z) (new_name : string) (r : SessionRow) : SessionRow :=
  {| id := id r; user_id := user_id r; session_name := Some new_name;
     created_at := created_at r; updated_at := now |}.

Lemma rename_session_true (clock : Z) (session_id new_name : string) (w w1 : World) :
  rename_session clock session_id new_name w = (Ok true, w1) ->
  chat_sessions (store w1)
  = map (fun r => if (id r =? session_id)%string
                  then renamed (isoformat_seconds clock) new_name r else r)
      (chat_sessions (store w)).
Proof.
  unfold rename_session, try_except, and_then, execute, logger_error, ret.
  destruct w as [s f l]; simpl.
  destruct f as [|[|] rest]; simpl; intros H; inversion H; reflexivity.
Qed.

Lemma get_session_some (session_id : string) (w w' : World) (row : SessionRow) :
  get_session session_id w = (Ok (Some row), w') ->
  In row (chat_sessions (store w)) /\ id row = session_id.
Proof.
  unfold get_session, try_except, and_then, execute, logger_error, ret.
  destruct w as [s f l]; simpl.
  assert (Hhead : forall rows,
             match firstn 1 (filter (fun r => (id r =? session_id)%string) rows) with
             | [] => None
             | first :: _ => Some first
             end = Some row ->
             In row rows /\ id row = session_id).
  { intros rows Hrow.
    destruct (filter (fun r => (id r =? session_id)%string) rows) as [|r rs] eqn:E;
      simpl in Hrow; [discriminate|].
    injection Hrow as ->.
    assert (Hin : In row (filter (fun r => (id r =? session_id)%string) rows))
      by (rewrite E; now left).
    apply filter_In in Hin as [Hin Hid]. split; [exact Hin|].
    now apply String.eqb_eq. }
  destruct f as [|[|] rest]; simpl; intros H; inversion H as [[Hrow Hw]];
    now apply Hhead.
Qed.

Lemma isoformat_seconds_mono (t t' : Z) :
  t <= t' -> isoformat_seconds t <= isoformat_seconds t'.
Proof. intros H. unfold isoformat_seconds. apply Z.div_le_mono; lia. Qed.

Lemma isoformat_seconds_next (t t' : Z) :
  t + 1000000 <= t' -> isoformat_seconds t < isoformat_seconds t'.
Proof.
  intros H. unfold isoformat_seconds.
  assert (t / 1000000 + 1 <= t' / 1000000); [|lia].
  replace (t / 1000000 + 1) with ((t + 1 * 1000000) / 1000000)
    by (rewrite Z.div_add; lia).
  apply Z.div_le_mono; lia.
Qed.

(** C6, as amended: after a successful [rename_session], a [get_session] that
    finds the session shows the new name and an updated-at equal to the
    rename's clock reading cut to whole seconds.  Against a prior value
    stamped at [prior_clock] it is not smaller when the clock has not gone
    back, and strictly greater once a full second has passed.  No read changes
    the store. *)
Theorem C6_rename_then_get (clock : Z) (session_id new_name : string)
    (w w1 w2 : World) (row : SessionRow) :
  rename_session clock session_id new_name w = (Ok true, w1) ->
  get_session session_id w1 = (Ok (Some row), w2) ->
  session_name row = Some new_name
  /\ updated_at row = isoformat_seconds clock
  /\ (forall prior_clock,
        (prior_clock <= clock -> isoformat_seconds prior_clock <= updated_at row)
        /\ (prior_clock + 1000000 <= clock ->
            isoformat_seconds prior_clock < updated_at row))
  /\ (forall sid w', store (snd (get_session sid w')) = store w').
Proof.
  intros Hrename Hget.
  apply rename_session_true in Hrename.
  apply get_session_some in Hget as [Hin Hid].
  rewrite Hrename in Hin. apply in_map_iff in Hin as [r [Hrow _]].
  destruct (id r =? session_id)%string eqn:E.
  - subst row. simpl. repeat split.
    + now apply isoformat_seconds_mono.
    + now apply isoformat_seconds_next.
    + intros sid w'. apply get_session_reads_only.
  - subst row. apply String.eqb_neq in E. contradiction.
Qed.

Lemma C6_rename_then_get_witness :
  let row := {| id := "s1"; user_id := "u1"; session_name := Some "Algebra";
                created_at := 100; updated_at := 102 |} in
  session_name row = Some "Algebra"
  /\ updated_at row = isoformat_seconds 102500000
  /\ (forall prior_clock,
        (prior_clock <= 102500000 -> isoformat_seconds prior_clock <= updated_at row)
        /\ (prior_clock + 1000000 <= 102500000 ->
            isoformat_seconds prior_clock < updated_at row))
  /\ (forall sid w', store (snd (get_session sid w')) = store w').
Proof.
  exact (C6_rename_then_get 102500000 "s1" "Algebra"
           {| store := {| chat_sessions :=
                            [{| id := "s1"; user_id := "u1";
                                session_name := Some "Math Help";
                                created_at := 100; updated_at := 100 |}];
                          messages := [] |};
              faults := []; log := [] |}
           _ _ _ eq_refl eq_refl).
Defined.

(** C6, as stated, fails when the rename falls in the second of the previous
    write: a session created at 100.2 s and renamed at 100.9 s keeps the
    updated-at it had. *)
Lemma C6_same_second_rename :
  exists w1 prior w2 w3 row w4,
    create_session "s1" 100200000 "u1" "Math Help" fresh = (Ok (Some "s1"), w1)
    /\ get_session "s1" w1 = (Ok (Some prior), w2)
    /\ rename_session 100900000 "s1" "Algebra" w2 = (Ok true, w3)
    /\ get_session "s1" w3 = (Ok (Some row), w4)
    /\ session_name row = Some "Algebra"
    /\ updated_at prior = 100
    /\ updated_at row = 100
    /\ ~ updated_at prior < updated_at row.
Proof.
  do 6 eexists. repeat split; try reflexivity. cbv. discriminate.
Qed.

(** *** Appending and listing messages *)

(** One [add_message] call: the arguments, with the identifier drawn and the
    clock reading of that call. *)
Record Append : Type := {
  drawn_id : string;
  clock_at : Z;
  role : string;
  content : string;
  tokens_in : option Z;
  tokens_out : option Z
}.

(** The row the call writes. *)
Definition row_of (session_id : string) (a : Append) : MessageRow :=
  {| msg_id := drawn_id a; msg_session_id := session_id; msg_role := role a;
     msg_content := content a; msg_tokens_in := tokens_in a;
     msg_tokens_out := tokens_out a;
     msg_created_at := isoformat_seconds (clock_at a) |}.

(** The calls made one after the other, with what each returned. *)
Fixpoint add_messages (session_id : string) (calls : list Append)
  : Action (list (option string)) :=
  match calls with
  | [] => ret []
  | a :: rest =>
      r <~ add_message (drawn_id a) (clock_at a) session_id (role a) (content a)
             (tokens_in a) (tokens_out a) ;;
      rs <~ add_messages session_id rest ;;
      ret (r :: rs)
  end.

Definition touched (now : Z) (session_id : string) (rows : list SessionRow)
  : list SessionRow :=
  map (fun r => if (id r =? session_id)%string
                then {| id := id r; user_id := user_id r;
                        session_name := session_name r;
                        created_at := created_at r; updated_at := now |}
                else r) rows.

Lemma add_message_succeeds (session_id : string) (a : Append) (w : World) :
  faults w = [] ->
  add_message (drawn_id a) (clock_at a) session_id (role a) (content a)
    (tokens_in a) (tokens_out a) w
  = (Ok (Some (drawn_id a)),
     {| store := {| chat_sessions :=
                      touched (isoformat_seconds (clock_at a)) session_id
                        (chat_sessions (store w));
                    messages := (messages (store w) ++ [row_of session_id a])%list |};
        faults := []; log := log w |}).
Proof.
  destruct w as [s f l]; simpl. intros ->. reflexivity.
Qed.

Lemma add_messages_succeed (session_id : string) (calls : list Append) (w : World) :
  faults w = [] ->
  exists w',
    add_messages session_id calls w = (Ok (map (fun a => Some (drawn_id a)) calls), w')
    /\ faults w' = []
    /\ messages (store w') = (messages (store w) ++ map (row_of session_id) calls)%list.
Proof.
  revert w. induction calls as [|a calls IH]; intros w Hw.
  - exists w. simpl. rewrite app_nil_r. auto.
  - cbn [add_messages]. unfold and_then. rewrite (add_message_succeeds _ _ _ Hw).
    cbv beta iota.
    match goal with |- context [add_messages session_id calls ?w1] =>
      destruct (IH w1 eq_refl) as (w' & Hrun & Hfaults & Hrows) end.
    exists w'. rewrite Hrun. cbn [store messages] in Hrows.
    rewrite Hrows, <- app_assoc. auto.
Qed.

Lemma get_session_messages_succeeds (so : StoreOrder) (session_id : string) (w : World) :
  faults w = [] ->
  get_session_messages session_id w
  = (Ok (order msg_created_at false
           (filter (fun m => (msg_session_id m =? session_id)%string)
              (messages (store w)))), w).
Proof.
  destruct w as [s f l]; simpl. intros ->. reflexivity.
Qed.

Lemma filter_other_sessions (session_id : string) (rows : list MessageRow) :
  (forall m, In m rows -> msg_session_id m <> session_id) ->
  filter (fun m => (msg_session_id m =? session_id)%string) rows = [].
Proof.
  induction rows as [|m rows IH]; intros H; [reflexivity|]. simpl.
  destruct (msg_session_id m =? session_id)%string eqn:E.
  - apply String.eqb_eq in E. exfalso. apply (H m); [now left | exact E].
  - apply IH. intros m' Hin. apply H. now right.
Qed.

Lemma filter_own_session (session_id : string) (calls : list Append) :
  filter (fun m => (msg_session_id m =? session_id)%string)
    (map (row_of session_id) calls)
  = map (row_of session_id) calls.
Proof.
  induction calls as [|a calls IH]; [reflexivity|]. simpl.
  rewrite String.eqb_refl, IH. reflexivity.
Qed.

(** Rows whose keys strictly increase have one sorted arrangement only. *)
Lemma sorted_arrangement_unique (A : Type) (key : A -> Z) (rows rows' : list A) :
  StronglySorted (fun a b => key a < key b) rows ->
  Permutation rows rows' ->
  StronglySorted (fun a b => key a <= key b) rows' ->
  rows' = rows.
Proof.
  intros Hstrict. revert rows'.
  induction Hstrict as [|a rows Hs IH Ha]; intros rows' Hperm Hsorted.
  - now apply Permutation_nil in Hperm.
  - destruct rows' as [|b rows'].
    + apply Permutation_sym, Permutation_nil in Hperm. discriminate.
    + inversion Hsorted as [|b' rs' Hs' Hb]; subst.
      assert (Hab : b = a).
      { assert (Hin_b : In b (a :: rows))
          by (eapply Permutation_in; [apply Permutation_sym, Hperm | now left]).
        destruct Hin_b as [->|Hin_b]; [reflexivity|].
        assert (Hin_a : In a (b :: rows'))
          by (eapply Permutation_in; [apply Hperm | now left]).
        destruct Hin_a as [->|Hin_a]; [reflexivity|].
        rewrite Forall_forall in Ha, Hb.
        specialize (Ha b Hin_b). specialize (Hb a Hin_a). lia. }
      subst b. f_equal. apply IH; [|exact Hs'].
      now apply Permutation_cons_inv in Hperm.
Qed.

Lemma strictly_increasing_rows (session_id : string) (calls : list Append) :
  StronglySorted Z.lt (map (fun a => isoformat_seconds (clock_at a)) calls) ->
  StronglySorted (fun a b => msg_created_at a < msg_created_at b)
    (map (row_of session_id) calls).
Proof.
  induction calls as [|a calls IH]; simpl; intros H; [constructor|].
  inversion H as [|x l Hl Hx]; subst. constructor; [now apply IH|].
  rewrite Forall_map in *. exact Hx.
Qed.

(** C4, as amended: after N [add_message] calls in a row on a session that
    had no messages, no store call failing, [get_session_messages] returns
    the N rows written, each once, in non-decreasing created-at order; the
    order is the insertion order when the stamps of the calls (clock readings
    cut to whole seconds) strictly increase. *)
Theorem C4_listing_after_appends (so : StoreOrder) (session_id : string)
    (calls : list Append) (w : World) :
  faults w = [] ->
  (forall m, In m (messages (store w)) -> msg_session_id m <> session_id) ->
  exists w1 rows w2,
    add_messages session_id calls w = (Ok (map (fun a => Some (drawn_id a)) calls), w1)
    /\ get_session_messages session_id w1 = (Ok rows, w2)
    /\ List.length rows = List.length calls
    /\ Permutation (map (row_of session_id) calls) rows
    /\ StronglySorted (fun a b => msg_created_at a <= msg_created_at b) rows
    /\ (StronglySorted Z.lt (map (fun a => isoformat_seconds (clock_at a)) calls) ->
        rows = map (row_of session_id) calls).
Proof.
  intros Hfaults Hfresh.
  destruct (add_messages_succeed session_id calls w Hfaults)
    as (w1 & Hrun & Hfaults1 & Hrows).
  exists w1. eexists. exists w1.
  split; [exact Hrun|].
  split; [apply (get_session_messages_succeeds so _ _ Hfaults1)|].
  rewrite Hrows, filter_app, (filter_other_sessions _ _ Hfresh), filter_own_session.
  simpl.
  pose proof (order_perm _ msg_created_at false (map (row_of session_id) calls)) as Hperm.
  pose proof (order_sorted _ msg_created_at false (map (row_of session_id) calls))
    as Hsorted.
  simpl in Hsorted.
  repeat split.
  - rewrite <- (Permutation_length Hperm). apply length_map.
  - exact Hperm.
  - exact Hsorted.
  - intros Hstrict.
    apply (sorted_arrangement_unique _ msg_created_at); [|exact Hperm|exact Hsorted].
    now apply strictly_increasing_rows.
Qed.

(** A question and its answer, written in different seconds. *)
Definition spaced_turns : list Append :=
  [ {| drawn_id := "m1"; clock_at := 100300000; role := "user"; content := "2+2?";
       tokens_in := None; tokens_out := None |};
    {| drawn_id := "m2"; clock_at := 103700000; role := "assistant"; content := "4";
       tokens_in := None; tokens_out := None |} ].

(** The same turns, written 0.4 s apart within one second. *)
Definition quick_turns : list Append :=
  [ {| drawn_id := "m1"; clock_at := 100300000; role := "user"; content := "2+2?";
       tokens_in := None; tokens_out := None |};
    {| drawn_id := "m2"; clock_at := 100700000; role := "assistant"; content := "4";
       tokens_in := None; tokens_out := None |} ].

Lemma C4_listing_after_appends_witness :
  exists w1 rows w2,
    add_messages "s1" spaced_turns fresh = (Ok [Some "m1"; Some "m2"], w1)
    /\ @get_session_messages stable_store "s1" w1 = (Ok rows, w2)
    /\ List.length rows = 2%nat
    /\ rows = map (row_of "s1") spaced_turns.
Proof.
  destruct (C4_listing_after_appends stable_store "s1" spaced_turns fresh eq_refl)
    as (w1 & rows & w2 & Hrun & Hget & Hlen & _ & _ & Horder).
  - intros m [].
  - exists w1, rows, w2. repeat split; try assumption.
    apply Horder. repeat constructor.
Defined.

(** C4, as stated, fails for two messages written within one second: both
    carry the stamp 100, and a store that orders on created-at alone may hand
    them back latest first. *)
Lemma C4_same_second_reordered :
  exists w1 rows w2,
    add_messages "s1" quick_turns fresh = (Ok [Some "m1"; Some "m2"], w1)
    /\ @get_session_messages latest_first_store "s1" w1 = (Ok rows, w2)
    /\ map msg_created_at rows = [100; 100]
    /\ map msg_id rows = ["m2"; "m1"]
    /\ rows <> map (row_of "s1") quick_turns.
Proof.
  do 3 eexists. repeat split; try reflexivity. cbv. discriminate.
Qed.

(** *** Searching *)

Lemma order_single (so : StoreOrder) (A : Type) (key : A -> Z) (desc : bool) (x : A) :
  order key desc [x] = [x].
Proof. apply Permutation_length_1_inv, order_perm. Qed.

Lemma dict_set_keys (A : Type) (k : string) (v : A) (d : list (string * A)) (x : string) :
  In x (dict_keys (dict_set k v d)) <-> x = k \/ In x (dict_keys d).
Proof.
  induction d as [|[k' v'] d IH]; simpl.
  - intuition.
  - destruct (k =? k')%string eqn:E; simpl.
    + apply String.eqb_eq in E. subst k'. intuition.
    + rewrite IH. intuition.
Qed.

(** The test of the name pass on a session: its name, lowered, contains [q].
    A session without a name does not pass; the pass does not get that far. *)
Definition name_test (q : string) (s : SessionRow) : bool :=
  match session_name s with
  | Some name => contains q (lower name)
  | None => false
  end.

(** The dict a name pass that ends leaves behind. *)
Definition named_matches (q : string) (sessions : list SessionRow)
  : list (string * SessionRow) :=
  fold_left (fun d s => if name_test q s then dict_set (id s) s d else d) sessions [].

Lemma name_pass_ok (q : string) (sessions : list SessionRow)
    (d d' : list (string * SessionRow)) :
  name_pass q sessions d = Ok d' ->
  d' = fold_left (fun d s => if name_test q s then dict_set (id s) s d else d) sessions d
  /\ forall s, In s sessions -> session_name s <> None.
Proof.
  revert d. induction sessions as [|s sessions IH]; intros d; cbn [name_pass fold_left].
  - intros [= <-]. split; [reflexivity | intros s []].
  - unfold name_test at 2. destruct (session_name s) as [name|] eqn:E; [|discriminate].
    intros H. apply IH in H as [-> Hnamed]. split; [reflexivity|].
    intros s' [<-|Hin]; [congruence | now apply Hnamed].
Qed.

Lemma name_pass_named (q : string) (sessions : list SessionRow)
    (d : list (string * SessionRow)) :
  (forall s, In s sessions -> session_name s <> None) ->
  name_pass q sessions d
  = Ok (fold_left (fun d s => if name_test q s then dict_set (id s) s d else d) sessions d).
Proof.
  revert d. induction sessions as [|s sessions IH]; intros d Hnamed;
    cbn [name_pass fold_left]; [reflexivity|].
  unfold name_test at 2. destruct (session_name s) as [name|] eqn:E.
  - apply IH. intros s' Hin. apply Hnamed. now right.
  - exfalso. apply (Hnamed s); [now left | exact E].
Qed.

(** The name pass raises nothing but the [AttributeError] of [name.lower()],
    and only when a session of the list has no name. *)
Lemma name_pass_raises (q : string) (sessions : list SessionRow)
    (d : list (string * SessionRow)) (e : exn) :
  name_pass q sessions d = Raise e ->
  e = AttributeError "'NoneType' object has no attribute 'lower'"
  /\ exists s, In s sessions /\ session_name s = None.
Proof.
  revert d. induction sessions as [|s sessions IH]; intros d; cbn [name_pass];
    [discriminate|].
  destruct (session_name s) as [name|] eqn:E.
  - intros H. apply IH in H as [-> (s' & Hin & Hnone)].
    split; [reflexivity|]. exists s'. split; [now right | exact Hnone].
  - intros [= <-]. split; [reflexivity|]. exists s. split; [now left | exact E].
Qed.

(** The sessions of a first pass that ends are those whose lowered name
    contains [q], the text the pass is given. *)
Lemma name_matches_keys (q : string) (sessions : list SessionRow)
    (d : list (string * SessionRow)) (sid : string) :
  name_matches q sessions = Ok d ->
  (In sid (dict_keys d)
   <-> exists s, In s sessions /\ id s = sid /\ name_test q s = true).
Proof.
  unfold name_matches. intros Hd. apply name_pass_ok in Hd as [-> _].
  assert (H : forall d,
    In sid (dict_keys
              (fold_left
                 (fun d s => if name_test q s then dict_set (id s) s d else d) sessions d))
    <-> In sid (dict_keys d)
        \/ exists s, In s sessions /\ id s = sid /\ name_test q s = true).
  { induction sessions as [|s sessions IH]; intros d; simpl.
    - split; [auto | intros [H|(s & [] & _)]; exact H].
    - rewrite IH. destruct (name_test q s) eqn:E.
      + rewrite dict_set_keys. split.
        * intros [[->|H]|(s' & Hin & Hid & Hc)]; eauto 7.
        * intros [H|(s' & [<-|Hin] & Hid & Hc)]; eauto 7.
      + split.
        * intros [H|(s' & Hin & Hid & Hc)]; eauto 7.
        * intros [H|(s' & [<-|Hin] & Hid & Hc)]; eauto 7. congruence. }
  rewrite H. simpl. intuition.
Qed.

(** Text without a wildcard or a backslash is left as it is. *)
Lemma escape_sql_like_plain (text : string) :
  has_char backslash text = false ->
  has_char "%" text = false ->
  has_char "_" text = false ->
  escape_sql_like text = text.
Proof.
  induction text as [|c text IH]; [reflexivity|].
  cbn [has_char escape_sql_like]. intros H1 H2 H3.
  apply orb_false_iff in H1 as [H1 H1'], H2 as [H2 H2'], H3 as [H3 H3'].
  rewrite (Ascii.eqb_sym c backslash), (Ascii.eqb_sym c "%"), (Ascii.eqb_sym c "_").
  rewrite H1, H2, H3. cbn [orb]. now rewrite IH.
Qed.

Lemma get_user_sessions_single (so : StoreOrder) (row : SessionRow)
    (rows : list MessageRow) (lines : list string) :
  let w := {| store := {| chat_sessions := [row]; messages := rows |};
              faults := []; log := lines |} in
  get_user_sessions (user_id row) w = (Ok [row], w).
Proof.
  unfold get_user_sessions, try_except, execute, select_user_sessions.
  cbn [faults store chat_sessions filter log]. rewrite String.eqb_refl.
  rewrite order_single. reflexivity.
Qed.

(** The world with the one session [100% Done] of user [u1] and no message. *)
Definition one_session : World :=
  {| store := {| chat_sessions :=
                   [{| id := "s1"; user_id := "u1"; session_name := Some "100% Done";
                       created_at := 100; updated_at := 100 |}];
                 messages := [] |};
     faults := []; log := [] |}.

(** C5, at a query where it fails: the name [100% Done], lowered, contains
    the lowered query [100%], but the first pass looks for the escaped text
    and finds nothing; with no message to match, the search comes back
    empty. *)
Theorem C5_escaped_query_misses_name (so : StoreOrder) :
  create_session "s1" 100200000 "u1" "100% Done" fresh = (Ok (Some "s1"), one_session)
  /\ contains (lower "100%") (lower "100% Done") = true
  /\ escape_sql_like (lower "100%") = String.append "100" (String backslash "%")
  /\ search_sessions "u1" "100%" one_session = (Ok [], one_session).
Proof.
  split; [reflexivity|]. split; [reflexivity|]. split; [reflexivity|].
  unfold search_sessions, and_then, one_session.
  pose proof (get_user_sessions_single so
                {| id := "s1"; user_id := "u1"; session_name := Some "100% Done";
                   created_at := 100; updated_at := 100 |} [] []) as Hlist.
  cbv zeta in Hlist. cbn [user_id] in Hlist. rewrite Hlist.
  reflexivity.
Qed.

End DatabaseFacts.

(** ** More on the completion adapter *)

Module AzureLlmMore.
Import AzureLlm AzureLlmFacts.

(** *** Normalization *)

(** X1: every falsy content (null, [False], [0], the empty string, list or
    dict) normalizes to the empty string. *)
Theorem falsy_content_is_empty (c : value) :
  truthy c = false -> _content_to_text c = Ok "".
Proof.
  destruct c as [|b|n|s|items|entries]; simpl; intros H.
  - reflexivity.
  - unfold py_or. simpl. now rewrite H.
  - unfold py_or. simpl. now rewrite H.
  - destruct s; [reflexivity | discriminate].
  - destruct items; [reflexivity | discriminate].
  - destruct entries; [reflexivity | discriminate].
Qed.

Lemma falsy_content_is_empty_witness :
  _content_to_text (VInt 0) = Ok "" /\ _content_to_text (VDict []) = Ok "".
Proof.
  split.
  - apply (falsy_content_is_empty (VInt 0)). reflexivity.
  - apply (falsy_content_is_empty (VDict [])). reflexivity.
Defined.

Lemma content_parts_concatenated_witness :
  _content_to_text
    (VList [VDict [("type", VStr "text"); ("text", VStr "Go ")];
            VDict [("type", VStr "image_url")];
            VStr "Bulls";
            VDict [("type", VStr "text"); ("text", VStr "")]])
  = Ok "Go Bulls".
Proof.
  apply (content_parts_concatenated
           [VDict [("type", VStr "text"); ("text", VStr "Go ")];
            VDict [("type", VStr "image_url")];
            VStr "Bulls";
            VDict [("type", VStr "text"); ("text", VStr "")]]).
  - repeat constructor.
  - discriminate.
Defined.

Lemma join_from_raises (i : nat) (parts : list value) (e : exn) :
  join_from i parts = Raise e -> exists m, e = TypeError m.
Proof.
  revert i. induction parts as [|part parts IH]; intros i; simpl; [discriminate|].
  destruct part as [| | |s| |];
    try (intros [= <-]; eexists; reflexivity).
  destruct (join_from (S i) parts) eqn:E; [discriminate|].
  intros [= <-]. now apply (IH (S i)).
Qed.

(** X3: normalization raises nothing but [TypeError], and only on a list in
    which some typed part has a [text] that is neither a string nor null. *)
Theorem normalization_fails_on_text_type_only (c : value) (e : exn) :
  _content_to_text c = Raise e ->
  (exists m, e = TypeError m)
  /\ exists items, c = VList items /\ ~ Forall text_is_str items.
Proof.
  destruct c as [| | | |items|]; simpl; try discriminate.
  intros H. split.
  - destruct (text_parts items) as [|part parts]; [discriminate|].
    now apply join_from_raises in H.
  - exists items. split; [reflexivity|]. intros Hstr.
    rewrite (text_parts_texts _ Hstr) in H.
    destruct (texts items) as [|t ts]; [discriminate|].
    change (join (map VStr (t :: ts)) = Raise e) in H.
    unfold join in H. rewrite join_from_strings in H. discriminate.
Qed.

Lemma normalization_fails_on_text_type_only_witness :
  (exists m, TypeError "sequence item 0: expected str instance, int found" = TypeError m)
  /\ exists items, VList [VDict [("text", VInt 7)]] = VList items
                   /\ ~ Forall text_is_str items.
Proof.
  apply (normalization_fails_on_text_type_only (VList [VDict [("text", VInt 7)]])).
  reflexivity.
Defined.

(** *** The transport client *)

Lemma prefix_app (s t : string) : String.prefix s (s ++ t) = true.
Proof.
  induction s as [|a s IH]; simpl; [destruct t; reflexivity|].
  destruct (ascii_dec a a) as [_|Hne]; [exact IH | contradiction].
Qed.

Lemma prefix_refl (s : string) : String.prefix s s = true.
Proof.
  induction s as [|a s IH]; simpl; [reflexivity|].
  destruct (ascii_dec a a) as [_|Hne]; [exact IH | contradiction].
Qed.

Lemma endswith_refl (s : string) : endswith s s = true.
Proof. destruct s; simpl; rewrite ?String.eqb_refl, ?Ascii.eqb_refl; reflexivity. Qed.

Lemma endswith_app (s t : string) : endswith (s ++ t) t = true.
Proof.
  induction s as [|a s IH].
  - apply endswith_refl.
  - change (endswith (String a (s ++ t)) t = true).
    cbn [endswith]. rewrite IH. apply orb_true_r.
Qed.

Lemma endswith_contains (s p r : string) :
  endswith s (p ++ r) = true -> contains p s = true.
Proof.
  induction s as [|a s IH]; cbn [endswith contains]; intros H.
  - apply orb_true_iff in H as [H|H]; [|discriminate].
    apply String.eqb_eq in H. rewrite H, prefix_app. reflexivity.
  - apply orb_true_iff in H as [H|H].
    + apply String.eqb_eq in H. rewrite H, prefix_app. reflexivity.
    + rewrite (IH H). apply orb_true_r.
Qed.

(** X4: whatever the endpoint, the base URL of the OpenAI-compatible client
    starts with the endpoint without its trailing slashes and ends in
    [/openai/v1] or [/openai/v1/]; the key is sent both as the API key and in
    the [api-key] header. *)
Theorem compatible_client_base_url (endpoint key : string) :
  exists base,
    _build_openai_compatible_client endpoint key = OpenAI base key [("api-key", key)]
    /\ String.prefix (rstrip "/" endpoint) base = true
    /\ (endswith base "/openai/v1" || endswith base "/openai/v1/" = true).
Proof.
  unfold _build_openai_compatible_client.
  destruct (endswith (rstrip "/" endpoint) "/openai/v1") eqn:E; simpl negb; cbv iota.
  - exists (rstrip "/" endpoint). repeat split.
    + apply prefix_refl.
    + now rewrite E.
  - exists (rstrip "/" endpoint ++ "/openai/v1/"). repeat split.
    + apply prefix_app.
    + rewrite endswith_app. apply orb_true_r.
Qed.

(** The function under the cache: with the endpoint and the key set, the
    client is the OpenAI-compatible one exactly when the endpoint, less its
    trailing slashes, contains [.services.ai.azure.com] or [/openai/] (the
    test on the ending [/openai/v1] adds nothing); otherwise it is the
    classic client, with the API version of the environment or, when none is
    set, the default. *)
Lemma client_of_environment (env : Env) (endpoint key : string) :
  AZURE_OPENAI_ENDPOINT env = Some endpoint -> endpoint <> "" ->
  AZURE_OPENAI_API_KEY env = Some key -> key <> "" ->
  let stripped := rstrip "/" endpoint in
  get_azure_client_wrapped env
  = Ok (if contains ".services.ai.azure.com" stripped || contains "/openai/" stripped
        then _build_openai_compatible_client stripped key
        else AzureOpenAI key
               (match AZURE_OPENAI_API_VERSION env with
                | Some v => v
                | None => "2024-02-15-preview"
                end) stripped).
Proof.
  intros He Hne Hk Hnk stripped. unfold get_azure_client_wrapped, require_azure_env.
  rewrite He, Hk.
  apply String.eqb_neq in Hne, Hnk. rewrite Hne, Hnk. cbn [bind]. fold stripped.
  destruct (contains ".services.ai.azure.com" stripped); [reflexivity|].
  destruct (contains "/openai/" stripped) eqn:Ec.
  - now rewrite orb_true_r.
  - destruct (endswith stripped "/openai/v1") eqn:Ee; [|reflexivity].
    apply (endswith_contains stripped "/openai/" "v1") in Ee. congruence.
Qed.

(** X5: [get_azure_client] resolves the client from the environment once.
    While nothing is cached and the endpoint and the key are set, the client
    is the OpenAI-compatible one exactly when the endpoint, less its trailing
    slashes, contains [.services.ai.azure.com] or [/openai/], and the classic
    one otherwise, with the API version of the environment or the default;
    that client is then cached.  A call that raises caches nothing.  Once a
    client is cached it is the answer whatever the environment holds: a
    changed or emptied environment is not looked at again. *)
Theorem client_resolution (env : Env) (endpoint key : string) :
  AZURE_OPENAI_ENDPOINT env = Some endpoint -> endpoint <> "" ->
  AZURE_OPENAI_API_KEY env = Some key -> key <> "" ->
  let stripped := rstrip "/" endpoint in
  let client :=
    if contains ".services.ai.azure.com" stripped || contains "/openai/" stripped
    then _build_openai_compatible_client stripped key
    else AzureOpenAI key
           (match AZURE_OPENAI_API_VERSION env with
            | Some v => v
            | None => "2024-02-15-preview"
            end) stripped in
  get_azure_client None env = (Ok client, Some client)
  /\ (forall env', get_azure_client (Some client) env' = (Ok client, Some client))
  /\ (forall env' e, fst (get_azure_client None env') = Raise e ->
                     snd (get_azure_client None env') = None).
Proof.
  intros He Hne Hk Hnk stripped client. unfold get_azure_client.
  rewrite (client_of_environment env endpoint key He Hne Hk Hnk).
  repeat split.
  intros env' e. now destruct (get_azure_client_wrapped env').
Qed.

(** An environment with nothing set. *)
Definition empty_env : Env :=
  {| AZURE_OPENAI_ENDPOINT := None;
     AZURE_OPENAI_API_KEY := None;
     AZURE_OPENAI_API_VERSION := None |}.

Lemma client_resolution_witness :
  get_azure_client None classic_env = (Ok classic_client, Some classic_client)
  /\ get_azure_client (Some classic_client) empty_env
     = (Ok classic_client, Some classic_client).
Proof.
  destruct (client_resolution classic_env "https://usf.openai.azure.com/" "key")
    as (Hfirst & Hcached & _); try reflexivity; try discriminate.
  split; [exact Hfirst | apply Hcached].
Defined.

(** *** Errors at request time *)

Section Operations.

Variable float : Type.
Variable float_str : float -> string.
Variable sdk : Sdk float.
Variable cache : ClientCache.
Variable env : Env.
Variable deployment : option string.
Variable messages : list ChatMessage.
Variable temperature : float.
Variable deployment_name : string.
Variable timeout : float.

Let request (model : string) (streaming : bool) : Request float :=
  {| AzureLlm.model := model; AzureLlm.messages := messages;
     AzureLlm.temperature := temperature; stream := streaming;
     AzureLlm.timeout := timeout |}.

(** X6: a missing or empty deployment name stops both operations with a
    [RuntimeError] that names the variable to set, whatever the environment
    and the cache hold, before the client is resolved and before the SDK is
    called.  With a deployment name and no client cached, a missing endpoint
    does the same, and with an endpoint, a missing key; the cache stays
    empty.  With a client cached the environment is not read: the operations
    do what they do in any other environment, a missing endpoint or key
    raising nothing. *)
Theorem configuration_errors_come_first (model endpoint : string) (e : Env)
    (c : ClientCache) (client : Client) :
  model <> "" -> endpoint <> "" ->
  let missing name := RuntimeError ("Missing required environment variable: " ++ name) in
  let no_endpoint :=
    {| AZURE_OPENAI_ENDPOINT := None;
       AZURE_OPENAI_API_KEY := AZURE_OPENAI_API_KEY e;
       AZURE_OPENAI_API_VERSION := AZURE_OPENAI_API_VERSION e |} in
  let no_key :=
    {| AZURE_OPENAI_ENDPOINT := Some endpoint;
       AZURE_OPENAI_API_KEY := None;
       AZURE_OPENAI_API_VERSION := AZURE_OPENAI_API_VERSION e |} in
  complete_chat float float_str sdk c e None messages temperature deployment_name timeout
  = (Raise (missing deployment_name), c)
  /\ complete_chat float float_str sdk c e (Some "") messages temperature deployment_name
       timeout = (Raise (missing deployment_name), c)
  /\ stream_chat float float_str sdk c e None messages temperature deployment_name timeout
     = (GRaise (missing deployment_name), c)
  /\ stream_chat float float_str sdk c e (Some "") messages temperature deployment_name
       timeout = (GRaise (missing deployment_name), c)
  /\ complete_chat float float_str sdk None no_endpoint (Some model) messages temperature
       deployment_name timeout = (Raise (missing "AZURE_OPENAI_ENDPOINT"), None)
  /\ stream_chat float float_str sdk None no_endpoint (Some model) messages temperature
       deployment_name timeout = (GRaise (missing "AZURE_OPENAI_ENDPOINT"), None)
  /\ complete_chat float float_str sdk None no_key (Some model) messages temperature
       deployment_name timeout = (Raise (missing "AZURE_OPENAI_API_KEY"), None)
  /\ stream_chat float float_str sdk None no_key (Some model) messages temperature
       deployment_name timeout = (GRaise (missing "AZURE_OPENAI_API_KEY"), None)
  /\ (forall e',
        complete_chat float float_str sdk (Some client) e' (Some model) messages
          temperature deployment_name timeout
        = complete_chat float float_str sdk (Some client) e (Some model) messages
            temperature deployment_name timeout
        /\ stream_chat float float_str sdk (Some client) e' (Some model) messages
             temperature deployment_name timeout
           = stream_chat float float_str sdk (Some client) e (Some model) messages
               temperature deployment_name timeout).
Proof.
  intros Hmodel Hendpoint missing no_endpoint no_key.
  apply String.eqb_neq in Hmodel, Hendpoint.
  unfold complete_chat, stream_chat, get_azure_client, get_azure_client_wrapped,
    require_azure_env.
  cbn [AZURE_OPENAI_ENDPOINT AZURE_OPENAI_API_KEY no_endpoint no_key bind].
  rewrite Hmodel, Hendpoint. repeat split.
Qed.

(** A [NotFoundError] of the request becomes a [RuntimeError] that quotes
    the deployment asked for; the SDK's own message is dropped. *)
Theorem unknown_deployment_is_named (model : string) (client : Client)
    (cache' : ClientCache) (m : string) :
  require_azure_env deployment deployment_name = Ok model ->
  get_azure_client cache env = (Ok client, cache') ->
  (create sdk client (request model false) = Raise (NotFoundError m) ->
   exists hint,
     fst (complete_chat float float_str sdk cache env deployment messages temperature
            deployment_name timeout)
     = Raise (RuntimeError ("Azure OpenAI deployment '" ++ model ++ "' was not found. "
                            ++ hint)))
  /\ (create_stream sdk client (request model true) = Raise (NotFoundError m) ->
      exists hint,
        fst (stream_chat float float_str sdk cache env deployment messages temperature
               deployment_name timeout)
        = GRaise (RuntimeError ("Azure OpenAI deployment '" ++ model
                                ++ "' was not found. " ++ hint))).
Proof.
  intros Hmodel Hclient. unfold complete_chat, stream_chat.
  rewrite Hmodel, Hclient. fold (request model false) (request model true).
  split; intros ->; eexists; reflexivity.
Qed.

(** A [BadRequestError] the handler does not classify: no body; a body that
    is an object without an [error] entry, as the error object the SDK keeps
    of a provider payload is; or a body whose [error] is an object with
    another code or none. *)
Definition not_a_filter_rejection (body : value) : Prop :=
  truthy body = false
  \/ (exists entries, body = VDict entries /\ lookup "error" entries = None)
  \/ exists entries detail,
       body = VDict entries
       /\ lookup "error" entries = Some (VDict detail)
       /\ match lookup "code" detail with
          | Some code => eq_str code "content_filter" = false
          | None => True
          end.

(** Such a [BadRequestError] leaves both operations unchanged. *)
Lemma other_bad_requests_pass_through (model : string) (client : Client)
    (cache' : ClientCache) (m : string) (body : value) :
  require_azure_env deployment deployment_name = Ok model ->
  get_azure_client cache env = (Ok client, cache') ->
  not_a_filter_rejection body ->
  (create sdk client (request model false) = Raise (BadRequestError m body) ->
   fst (complete_chat float float_str sdk cache env deployment messages temperature
          deployment_name timeout) = Raise (BadRequestError m body))
  /\ (create_stream sdk client (request model true) = Raise (BadRequestError m body) ->
      fst (stream_chat float float_str sdk cache env deployment messages temperature
             deployment_name timeout) = GRaise (BadRequestError m body)).
Proof.
  intros Hmodel Hclient Hbody.
  assert (Hsame : on_bad_request (BadRequestError m body) body = BadRequestError m body).
  { destruct Hbody as [Hfalsy | [(entries & -> & Hnone)
                                | (entries & detail & -> & Herr & Hcode)]].
    - unfold on_bad_request, py_or. rewrite Hfalsy. reflexivity.
    - now apply on_bad_request_without_error.
    - unfold on_bad_request, py_or.
      rewrite (lookup_some_nonempty _ _ _ Herr). cbn [get bind]. rewrite Herr.
      cbn [get bind]. destruct (lookup "code" detail) as [code|].
      + rewrite Hcode. reflexivity.
      + reflexivity. }
  destruct (rejections_reach_the_caller float float_str sdk cache env deployment messages
              temperature deployment_name timeout model client cache' m body Hmodel
              Hclient) as [Hc Hs].
  split; intros H; [rewrite (Hc H) | rewrite (Hs H)]; now rewrite Hsame.
Qed.

(** An exception of the request that the operations do not classify: one of
    another class, or a [BadRequestError] that is no content-filter
    rejection. *)
Definition unclassified (e : exn) : Prop :=
  match e with
  | BadRequestError _ body => not_a_filter_rejection body
  | NotFoundError _ | TimeoutError _ => False
  | _ => True
  end.

(** X7: an exception of the request that is not classified leaves both
    operations as it came, class, message and body unchanged. *)
Theorem unclassified_errors_pass_through (model : string) (client : Client)
    (cache' : ClientCache) (e : exn) :
  require_azure_env deployment deployment_name = Ok model ->
  get_azure_client cache env = (Ok client, cache') ->
  unclassified e ->
  (create sdk client (request model false) = Raise e ->
   fst (complete_chat float float_str sdk cache env deployment messages temperature
          deployment_name timeout) = Raise e)
  /\ (create_stream sdk client (request model true) = Raise e ->
      fst (stream_chat float float_str sdk cache env deployment messages temperature
             deployment_name timeout) = GRaise e).
Proof.
  intros Hmodel Hclient He.
  assert (Hother : (forall m body, e <> BadRequestError m body) ->
                   (forall m, e <> NotFoundError m) -> (forall m, e <> TimeoutError m) ->
                   (create sdk client (request model false) = Raise e ->
                    fst (complete_chat float float_str sdk cache env deployment messages
                           temperature deployment_name timeout) = Raise e)
                   /\ (create_stream sdk client (request model true) = Raise e ->
                       fst (stream_chat float float_str sdk cache env deployment messages
                              temperature deployment_name timeout) = GRaise e)).
  { intros H1 H2 H3.
    destruct (other_errors_pass_through float float_str sdk cache env deployment
                messages temperature deployment_name timeout model client cache' e
                Hmodel Hclient H1 H2 H3) as [Hc Hs].
    fold (request model false) in Hc. fold (request model true) in Hs.
    split; intros H; [now rewrite (Hc H) | now rewrite (Hs H)]. }
  destruct e as [m body| | | | | |]; try contradiction;
    try (apply Hother; discriminate).
  now apply (other_bad_requests_pass_through model client cache').
Qed.

End Operations.

Lemma configuration_errors_come_first_witness :
  complete_chat Z seconds_str (timing_out_sdk Z) (Some classic_client) empty_env None [] 0
    "AZURE_PHI4_SPECIALIST" 60
  = (Raise (RuntimeError "Missing required environment variable: AZURE_PHI4_SPECIALIST"),
     Some classic_client)
  /\ complete_chat Z seconds_str (timing_out_sdk Z) None
       {| AZURE_OPENAI_ENDPOINT := None;
          AZURE_OPENAI_API_KEY := Some "key";
          AZURE_OPENAI_API_VERSION := None |}
       (Some "phi-4") [] 0 "AZURE_PHI4_SPECIALIST" 60
     = (Raise (RuntimeError "Missing required environment variable: AZURE_OPENAI_ENDPOINT"),
        None)
  /\ complete_chat Z seconds_str (answering_sdk Z {| choices := [] |} SEnd)
       (Some classic_client) empty_env (Some "phi-4") [] 0 "AZURE_PHI4_SPECIALIST" 60
     = complete_chat Z seconds_str (answering_sdk Z {| choices := [] |} SEnd)
         (Some classic_client) classic_env (Some "phi-4") [] 0 "AZURE_PHI4_SPECIALIST" 60.
Proof.
  split; [|split].
  - apply (configuration_errors_come_first Z seconds_str (timing_out_sdk Z) [] 0
             "AZURE_PHI4_SPECIALIST" 60 "phi-4" "https://usf.openai.azure.com"
             empty_env (Some classic_client) classic_client);
      discriminate.
  - apply (configuration_errors_come_first Z seconds_str (timing_out_sdk Z) [] 0
             "AZURE_PHI4_SPECIALIST" 60 "phi-4" "https://usf.openai.azure.com"
             classic_env None classic_client);
      discriminate.
  - apply (configuration_errors_come_first Z seconds_str
             (answering_sdk Z {| choices := [] |} SEnd) [] 0
             "AZURE_PHI4_SPECIALIST" 60 "phi-4" "https://usf.openai.azure.com"
             classic_env None classic_client);
      discriminate.
Defined.

Lemma unclassified_errors_pass_through_witness :
  let rate_limited := OtherError "RateLimitError" "Error code: 429" in
  let too_long :=
    BadRequestError "Error code: 400"
      (status_error_body
         (VDict [("error", VDict [("message", VStr "The prompt is too long.");
                                  ("code", VStr "context_length_exceeded")])])) in
  fst (complete_chat Z seconds_str (failing_sdk Z rate_limited) None classic_env
         (Some "phi-4") [] 0 "AZURE_PHI4_SPECIALIST" 60) = Raise rate_limited
  /\ fst (stream_chat Z seconds_str (failing_sdk Z too_long) None classic_env
            (Some "phi-4") [] 0 "AZURE_PHI4_ORCHESTRATOR" 60) = GRaise too_long.
Proof.
  split.
  - apply (unclassified_errors_pass_through Z seconds_str
             (failing_sdk Z (OtherError "RateLimitError" "Error code: 429")) None
             classic_env (Some "phi-4") [] 0 "AZURE_PHI4_SPECIALIST" 60 "phi-4"
             classic_client (Some classic_client)
             (OtherError "RateLimitError" "Error code: 429"));
      try reflexivity; try exact I.
  - apply (unclassified_errors_pass_through Z seconds_str
             (failing_sdk Z
                (BadRequestError "Error code: 400"
                   (status_error_body
                      (VDict [("error",
                               VDict [("message", VStr "The prompt is too long.");
                                      ("code", VStr "context_length_exceeded")])]))))
             None classic_env (Some "phi-4") [] 0 "AZURE_PHI4_ORCHESTRATOR" 60 "phi-4"
             classic_client (Some classic_client)
             (BadRequestError "Error code: 400"
                (status_error_body
                   (VDict [("error",
                            VDict [("message", VStr "The prompt is too long.");
                                   ("code", VStr "context_length_exceeded")])]))));
      try reflexivity.
    right. left. eexists. split; reflexivity.
Defined.

Lemma unknown_deployment_is_named_witness :
  exists hint,
    fst (stream_chat Z seconds_str (failing_sdk Z (NotFoundError "Error code: 404")) None
           classic_env (Some "phi-5") [] 0 "AZURE_PHI4_ORCHESTRATOR" 60)
    = GRaise (RuntimeError ("Azure OpenAI deployment 'phi-5' was not found. " ++ hint)).
Proof.
  apply (unknown_deployment_is_named Z seconds_str
           (failing_sdk Z (NotFoundError "Error code: 404")) None classic_env (Some "phi-5")
           [] 0 "AZURE_PHI4_ORCHESTRATOR" 60 "phi-5" classic_client (Some classic_client)
           "Error code: 404");
    reflexivity.
Defined.

(** *** Draining a stream *)

Definition choice_contents (cs : list StreamChoice) : list value :=
  flat_map (fun c => match delta c with
                     | Some d => [content d]
                     | None => []
                     end) cs.

Lemma drain_choices_yields (cs : list StreamChoice) (k : Generator) :
  (forall c, In c (choice_contents cs) -> truthy c = true ->
             exists s, _content_to_text c = Ok s) ->
  map Ok (yielded (drain_choices cs k))
  = (map _content_to_text (filter truthy (choice_contents cs)) ++ map Ok (yielded k))%list
  /\ outcome (drain_choices cs k) = outcome k.
Proof.
  induction cs as [|c cs IH]; intros Hok; [split; reflexivity|].
  unfold choice_contents in *. cbn [flat_map drain_choices] in *.
  destruct (delta c) as [d|]; cbn [app] in *.
  - assert (Hrest : forall c', In c' (flat_map
                       (fun c => match delta c with
                                 | Some d => [content d]
                                 | None => []
                                 end) cs) ->
                     truthy c' = true -> exists s, _content_to_text c' = Ok s)
      by (intros c' Hin; apply Hok; now right).
    specialize (IH Hrest). cbn [filter].
    destruct (truthy (content d)) eqn:Htrue; [|exact IH].
    destruct (Hok (content d) (or_introl eq_refl) Htrue) as [s Hs].
    rewrite Hs. cbn [yielded outcome map app]. rewrite Hs. destruct IH as [IHy IHo].
    rewrite IHy, IHo. split; reflexivity.
  - apply IH. exact Hok.
Qed.

(** X9: when every content that is let through normalizes, the fragments of
    the drain are the normalized truthy contents of the stream, one for one
    and in the order they came; the drain then ends as the stream does,
    normally or with the stream's fault wrapped. *)
Theorem drain_yields_normalized_contents (events : Stream) :
  (forall c, In c (stream_contents events) -> truthy c = true ->
             exists s, _content_to_text c = Ok s) ->
  map Ok (yielded (drain events))
  = map _content_to_text (filter truthy (stream_contents events))
  /\ outcome (drain events) = option_map StreamProcessingError (stream_fault events).
Proof.
  induction events as [| e | event rest IH]; intros Hok; try (split; reflexivity).
  cbn [stream_contents drain stream_fault] in *.
  fold (choice_contents (event_choices event)) in *.
  destruct IH as [IHy IHo].
  { intros c Hin. apply Hok, in_or_app. now right. }
  destruct (drain_choices_yields (event_choices event) (drain rest)) as [Hy Ho].
  { intros c Hin. apply Hok, in_or_app. now left. }
  rewrite Hy, Ho, IHy, IHo, filter_app, map_app. split; reflexivity.
Qed.

Lemma drain_yields_normalized_contents_witness :
  map Ok (yielded (drain stalling_stream)) = [Ok "Hel"]
  /\ outcome (drain stalling_stream)
     = Some (StreamProcessingError
               (OtherError "ReadTimeout" "The read operation timed out")).
Proof.
  apply (drain_yields_normalized_contents stalling_stream).
  intros c [<-|[]] _. now exists "Hel".
Defined.

Lemma drain_choices_outcome (cs : list StreamChoice) (k : Generator) :
  (outcome k = None \/ exists cause, outcome k = Some (StreamProcessingError cause)) ->
  outcome (drain_choices cs k) = None
  \/ exists cause, outcome (drain_choices cs k) = Some (StreamProcessingError cause).
Proof.
  intros Hk. induction cs as [|c cs IH]; simpl; [exact Hk|].
  destruct (delta c) as [d|]; [|exact IH].
  destruct (truthy (content d)); [|exact IH].
  destruct (_content_to_text (content d)) as [fragment|e]; simpl; [exact IH|].
  right. now exists e.
Qed.

Lemma drain_outcome (events : Stream) :
  outcome (drain events) = None
  \/ exists cause, outcome (drain events) = Some (StreamProcessingError cause).
Proof.
  induction events as [| e | event rest IH]; simpl.
  - now left.
  - right. now exists e.
  - now apply drain_choices_outcome.
Qed.

(** X10: once the request has been accepted, [stream_chat] ends normally or
    raises a [StreamProcessingError]: no other exception leaves the drain,
    whatever the stream holds and however it fails. *)
Theorem accepted_stream_raises_wrapped_only (float : Type) (float_str : float -> string)
    (sdk : Sdk float) (cache : ClientCache) (env : Env) (deployment : option string)
    (messages : list ChatMessage) (temperature : float) (deployment_name : string)
    (timeout : float) (model : string) (client : Client) (cache' : ClientCache)
    (events : Stream) :
  require_azure_env deployment deployment_name = Ok model ->
  get_azure_client cache env = (Ok client, cache') ->
  create_stream sdk client
    {| AzureLlm.model := model; AzureLlm.messages := messages;
       AzureLlm.temperature := temperature; stream := true;
       AzureLlm.timeout := timeout |} = Ok events ->
  let g := fst (stream_chat float float_str sdk cache env deployment messages temperature
                  deployment_name timeout) in
  outcome g = None \/ exists cause, outcome g = Some (StreamProcessingError cause).
Proof.
  intros Hmodel Hclient Hcreate. unfold stream_chat.
  rewrite Hmodel, Hclient, Hcreate. apply drain_outcome.
Qed.

(** A stream whose second delta cannot be normalized. *)
Definition ill_typed_stream : Stream :=
  SEvent {| event_choices :=
              [ {| delta := Some {| content := VStr "Hi" |} |};
                {| delta := Some {| content := VList [VDict [("text", VInt 7)]] |} |} ] |}
    SEnd.

Lemma accepted_stream_raises_wrapped_only_witness :
  let g := fst (stream_chat Z seconds_str
                  (answering_sdk Z {| choices := [] |} ill_typed_stream) None
                  classic_env (Some "phi-4") [] 0 "AZURE_PHI4_ORCHESTRATOR" 60) in
  outcome g = None \/ exists cause, outcome g = Some (StreamProcessingError cause).
Proof.
  apply (accepted_stream_raises_wrapped_only Z seconds_str
           (answering_sdk Z {| choices := [] |} ill_typed_stream) None classic_env
           (Some "phi-4") [] 0 "AZURE_PHI4_ORCHESTRATOR" 60 "phi-4" classic_client
           (Some classic_client) ill_typed_stream);
    reflexivity.
Defined.

Lemma stream_chat_fragments_nonempty_witness :
  Forall (fun fragment => fragment <> "")
    (yielded (fst (stream_chat Z seconds_str
                     (answering_sdk Z {| choices := [] |} stalling_stream) None
                     classic_env (Some "phi-4") [] 0 "AZURE_PHI4_ORCHESTRATOR" 60))).
Proof.
  apply (stream_chat_fragments_nonempty Z seconds_str
           (answering_sdk Z {| choices := [] |} stalling_stream)).
  intros client request events [= <-]. repeat constructor.
Defined.

End AzureLlmMore.

(** ** More on the persistence gateway *)

Module DatabaseMore.
Import Database StoreOrders DatabaseFacts.

(** The next store call goes through. *)
Definition next_call_succeeds (w : World) : Prop := hd false (faults w) = false.

(** The world after one store call that left the store as it was. *)
Definition after_call (w : World) : World :=
  {| store := store w; faults := tl (faults w); log := log w |}.

(** The world after one store call that failed and was logged. *)
Definition after_failure (line : string) (w : World) : World :=
  {| store := store w; faults := tl (faults w); log := (log w ++ [line])%list |}.

Lemma execute_succeeds (A : Type) (op : Store -> A * Store) (w : World) :
  next_call_succeeds w ->
  execute op w
  = (Ok (fst (op (store w))),
     {| store := snd (op (store w)); faults := tl (faults w); log := log w |}).
Proof.
  unfold next_call_succeeds, execute. destruct w as [s f l]; simpl.
  destruct f as [|[|] rest]; simpl; intros H; try discriminate;
    destruct (op s); reflexivity.
Qed.

Lemma execute_fails (A : Type) (op : Store -> A * Store) (w : World) :
  hd false (faults w) = true ->
  execute op w = (Raise store_failure, after_call w).
Proof.
  unfold execute, after_call. destruct w as [s f l]; simpl.
  destruct f as [|[|] rest]; simpl; intros H; try discriminate. reflexivity.
Qed.

(** *** Failures stay inside *)

Lemma try_except_returns (A : Type) (body : Action A) (handler : exn -> Action A) :
  (forall e w, exists a, fst (handler e w) = Ok a) ->
  forall w, exists a, fst (try_except body handler w) = Ok a.
Proof.
  intros Hh w. unfold try_except. destruct (body w) as [[a|e] w']; simpl; eauto.
Qed.

Lemma logged_default_returns (A : Type) (line : string) (a : A) (w : World) :
  exists a', fst ((logger_error line ;;; ret a) w) = Ok a'.
Proof. now exists a. Qed.

Section Methods.

Context {store_order : StoreOrder}.

(** X13: a read whose store call fails answers as if nothing were there --
    no session, no sessions, no messages, a count of zero -- leaves the store
    as it was and writes one line to the log. *)
Theorem failed_reads_look_empty (w : World) (sid user : string) :
  hd false (faults w) = true ->
  get_session sid w
  = (Ok None,
     after_failure ("Failed to get session " ++ sid ++ ": " ++ exn_str store_failure) w)
  /\ get_user_sessions user w
     = (Ok [],
        after_failure ("Failed to get user sessions for " ++ user ++ ": "
                       ++ exn_str store_failure) w)
  /\ get_session_messages sid w
     = (Ok [],
        after_failure ("Failed to get session messages for " ++ sid ++ ": "
                       ++ exn_str store_failure) w)
  /\ get_total_message_count user w
     = (Ok 0,
        after_failure ("Failed to get total message count for user " ++ user ++ ": "
                       ++ exn_str store_failure) w).
Proof.
  intros H.
  unfold get_session, get_user_sessions, get_session_messages, get_total_message_count,
    try_except, and_then.
  rewrite !execute_fails by exact H. repeat split.
Qed.

(** When its store call goes through, [get_user_sessions] returns the
    rows of that user, each once and no other, the most recently updated
    first, and changes nothing in the store. *)
Lemma user_sessions_listing (w : World) (user : string) :
  next_call_succeeds w ->
  exists rows,
    get_user_sessions user w = (Ok rows, after_call w)
    /\ Permutation (filter (fun r => (user_id r =? user)%string) (chat_sessions (store w)))
         rows
    /\ (forall r, In r rows <-> In r (chat_sessions (store w)) /\ user_id r = user)
    /\ StronglySorted (fun a b => updated_at b <= updated_at a) rows.
Proof.
  intros H. eexists. unfold get_user_sessions, try_except.
  rewrite execute_succeeds by exact H. cbn [select_user_sessions fst snd].
  split; [reflexivity|].
  pose proof (order_perm _ updated_at true
                (filter (fun r => (user_id r =? user)%string) (chat_sessions (store w))))
    as Hperm.
  split; [exact Hperm|]. split.
  - intros r. split.
    + intros Hin. apply (Permutation_in _ (Permutation_sym Hperm)) in Hin.
      apply filter_In in Hin as [Hin Hu]. now apply String.eqb_eq in Hu.
    + intros [Hin Hu]. apply (Permutation_in _ Hperm), filter_In.
      split; [exact Hin | now apply String.eqb_eq].
  - apply (order_sorted _ updated_at true).
Qed.

(** When its store call goes through, [get_session_messages] returns the
    messages of that session, each once and no other, in non-decreasing
    created-at order, and changes nothing in the store. *)
Lemma session_messages_listing (w : World) (sid : string) :
  next_call_succeeds w ->
  exists rows,
    get_session_messages sid w = (Ok rows, after_call w)
    /\ Permutation
         (filter (fun m => (msg_session_id m =? sid)%string) (messages (store w))) rows
    /\ (forall m, In m rows <-> In m (messages (store w)) /\ msg_session_id m = sid)
    /\ StronglySorted (fun a b => msg_created_at a <= msg_created_at b) rows.
Proof.
  intros H. eexists. unfold get_session_messages, try_except.
  rewrite execute_succeeds by exact H. cbn [select_session_messages fst snd].
  split; [reflexivity|].
  pose proof (order_perm _ msg_created_at false
                (filter (fun m => (msg_session_id m =? sid)%string) (messages (store w))))
    as Hperm.
  split; [exact Hperm|]. split.
  - intros m. split.
    + intros Hin. apply (Permutation_in _ (Permutation_sym Hperm)) in Hin.
      apply filter_In in Hin as [Hin Hs]. now apply String.eqb_eq in Hs.
    + intros [Hin Hs]. apply (Permutation_in _ Hperm), filter_In.
      split; [exact Hin | now apply String.eqb_eq].
  - apply (order_sorted _ msg_created_at false).
Qed.

(** X14: when its store call goes through, a listing is exact and ordered:
    [get_user_sessions] returns the rows of that user, each once and no
    other, the most recently updated first; [get_session_messages] returns
    the messages of that session, each once and no other, in non-decreasing
    created-at order.  Neither changes the store. *)
Theorem listings_are_exact (w : World) (user sid : string) :
  next_call_succeeds w ->
  (exists rows,
     get_user_sessions user w = (Ok rows, after_call w)
     /\ Permutation
          (filter (fun r => (user_id r =? user)%string) (chat_sessions (store w))) rows
     /\ StronglySorted (fun a b => updated_at b <= updated_at a) rows)
  /\ (exists rows,
        get_session_messages sid w = (Ok rows, after_call w)
        /\ Permutation
             (filter (fun m => (msg_session_id m =? sid)%string) (messages (store w)))
             rows
        /\ StronglySorted (fun a b => msg_created_at a <= msg_created_at b) rows).
Proof.
  intros H. split.
  - destruct (user_sessions_listing w user H) as (rows & H1 & H2 & _ & H3). eauto.
  - destruct (session_messages_listing w sid H) as (rows & H1 & H2 & _ & H3). eauto.
Qed.

End Methods.

(** *** Writes and what a later read shows *)

(** The next [n] store calls go through. *)
Definition next_calls_succeed (n : nat) (w : World) : Prop :=
  forallb negb (firstn n (faults w)) = true.

Lemma next_calls_step (n : nat) (w : World) :
  next_calls_succeed (S n) w ->
  next_call_succeeds w
  /\ forall s l, next_calls_succeed n {| store := s; faults := tl (faults w); log := l |}.
Proof.
  unfold next_calls_succeed, next_call_succeeds. destruct w as [s f l]; simpl.
  destruct f as [|[|] rest]; simpl; intros H; try discriminate; split; auto.
  intros _ _. now destruct n.
Qed.

Lemma no_faults_succeed (n : nat) (w : World) : faults w = [] -> next_calls_succeed n w.
Proof. unfold next_calls_succeed. intros ->. now destruct n. Qed.

Lemma get_session_first (w : World) (sid : string) :
  next_call_succeeds w ->
  get_session sid w
  = (Ok (hd_error (filter (fun r => (id r =? sid)%string) (chat_sessions (store w)))),
     after_call w).
Proof.
  intros H. unfold get_session, try_except, and_then.
  rewrite execute_succeeds by exact H. cbn [select_session fst snd ret].
  now destruct (filter (fun r => (id r =? sid)%string) (chat_sessions (store w))).
Qed.

Lemma filter_absent_id (sid : string) (rows : list SessionRow) :
  (forall r, In r rows -> id r <> sid) ->
  filter (fun r => (id r =? sid)%string) rows = [].
Proof.
  induction rows as [|r rows IH]; intros H; [reflexivity|]. simpl.
  destruct (id r =? sid)%string eqn:E.
  - apply String.eqb_eq in E. exfalso. apply (H r); [now left | exact E].
  - apply IH. intros r' Hin. apply H. now right.
Qed.

(** X15: a session created under an identifier no row has yet is what
    [get_session] returns next: the user and name given, created-at and
    updated-at both the creation's clock reading cut to whole seconds. *)
Theorem create_then_get (w : World) (sid user name : string) (clock : Z) :
  next_calls_succeed 2 w ->
  (forall r, In r (chat_sessions (store w)) -> id r <> sid) ->
  let row := {| id := sid; user_id := user; session_name := Some name;
                created_at := isoformat_seconds clock;
                updated_at := isoformat_seconds clock |} in
  exists w1 w2,
    create_session sid clock user name w = (Ok (Some sid), w1)
    /\ get_session sid w1 = (Ok (Some row), w2)
    /\ chat_sessions (store w1) = (chat_sessions (store w) ++ [row])%list
    /\ messages (store w1) = messages (store w)
    /\ store w2 = store w1.
Proof.
  intros Hcalls Hnew row.
  apply next_calls_step in Hcalls as [H1 H2].
  do 2 eexists. split.
  - unfold create_session, try_except, and_then.
    rewrite execute_succeeds by exact H1. reflexivity.
  - split.
    + rewrite get_session_first.
      * cbn [store insert_session snd with_sessions chat_sessions].
        rewrite filter_app, (filter_absent_id _ _ Hnew). simpl.
        rewrite String.eqb_refl. reflexivity.
      * specialize (H2 (snd (insert_session row (store w))) (log w)).
        apply next_calls_step in H2 as [H2 _]. exact H2.
    + repeat split.
Qed.

Lemma create_then_get_witness :
  exists w1 w2,
    create_session "s1" 100200000 "u1" "Math Help" fresh = (Ok (Some "s1"), w1)
    /\ get_session "s1" w1
       = (Ok (Some {| id := "s1"; user_id := "u1"; session_name := Some "Math Help";
                      created_at := 100; updated_at := 100 |}), w2).
Proof.
  destruct (create_then_get fresh "s1" "u1" "Math Help" 100200000)
    as (w1 & w2 & Hcreate & Hget & _).
  - reflexivity.
  - intros r [].
  - now exists w1, w2.
Defined.

Lemma add_message_some (w w1 : World) (mid sid role content returned : string)
    (clock : Z) (tokens_in tokens_out : option Z) :
  add_message mid clock sid role content tokens_in tokens_out w = (Ok (Some returned), w1) ->
  returned = mid
  /\ chat_sessions (store w1)
     = touched (isoformat_seconds clock) sid (chat_sessions (store w))
  /\ messages (store w1)
     = (messages (store w)
        ++ [{| msg_id := mid; msg_session_id := sid; msg_role := role;
               msg_content := content; msg_tokens_in := tokens_in;
               msg_tokens_out := tokens_out;
               msg_created_at := isoformat_seconds clock |}])%list.
Proof.
  unfold add_message, try_except, and_then, execute, logger_error, ret.
  destruct w as [s f l]; simpl.
  destruct f as [|[|] [|[|] rest]]; simpl; intros H; inversion H; repeat split.
Qed.

(** X16: after an [add_message] that returned an identifier, the identifier is
    the one drawn, the message is the last row of the table, and a
    [get_session] that finds the parent shows an updated-at equal to the
    message's created-at. *)
Theorem append_bumps_parent (w w1 w2 : World) (mid sid role content returned : string)
    (clock : Z) (tokens_in tokens_out : option Z) (row : SessionRow) :
  add_message mid clock sid role content tokens_in tokens_out w = (Ok (Some returned), w1) ->
  get_session sid w1 = (Ok (Some row), w2) ->
  returned = mid
  /\ exists m, messages (store w1) = (messages (store w) ++ [m])%list
               /\ msg_id m = mid /\ msg_session_id m = sid
               /\ msg_content m = content
               /\ updated_at row = msg_created_at m
               /\ msg_created_at m = isoformat_seconds clock.
Proof.
  intros Hadd Hget.
  apply add_message_some in Hadd as (-> & Hsessions & Hmessages).
  split; [reflexivity|]. eexists. split; [exact Hmessages|]. simpl.
  repeat split.
  apply get_session_some in Hget as [Hin Hid].
  rewrite Hsessions in Hin. unfold touched in Hin.
  apply in_map_iff in Hin as [r [Hrow _]].
  destruct (id r =? sid)%string eqn:E.
  - now subst row.
  - subst row. apply String.eqb_neq in E. contradiction.
Qed.

Lemma append_bumps_parent_witness :
  exists m,
    messages (store (snd (add_message "m1" 103700000 "s1" "user" "2+2?" None None
                            one_session)))
    = [m]
    /\ msg_id m = "m1" /\ msg_created_at m = 103.
Proof.
  destruct (append_bumps_parent one_session _ _ "m1" "s1" "user" "2+2?" "m1" 103700000
              None None _ eq_refl eq_refl)
    as (_ & m & Hm & Hid & _ & _ & _ & Hstamp).
  exists m. repeat split; assumption.
Defined.

(** X17: the two writes of [add_message] are not one: when the second fails,
    the call returns [None] and logs the failure, yet the message stays
    written and no session is touched; when the first fails nothing is
    written. *)
Theorem append_is_not_atomic (s : Store) (lines : list string) (rest : list bool)
    (mid sid role content : string) (clock : Z) (tokens_in tokens_out : option Z) :
  let m := {| msg_id := mid; msg_session_id := sid; msg_role := role;
              msg_content := content; msg_tokens_in := tokens_in;
              msg_tokens_out := tokens_out;
              msg_created_at := isoformat_seconds clock |} in
  let line := "Failed to add message to session " ++ sid ++ ": "
              ++ exn_str store_failure in
  add_message mid clock sid role content tokens_in tokens_out
    {| store := s; faults := false :: true :: rest; log := lines |}
  = (Ok None,
     {| store := {| chat_sessions := chat_sessions s;
                    messages := (messages s ++ [m])%list |};
        faults := rest; log := (lines ++ [line])%list |})
  /\ add_message mid clock sid role content tokens_in tokens_out
       {| store := s; faults := true :: rest; log := lines |}
     = (Ok None, {| store := s; faults := rest; log := (lines ++ [line])%list |}).
Proof. split; reflexivity. Qed.

(** X18: a [rename_session] whose store call goes through returns [True]
    whether or not a session has the identifier.  It rewrites the name and the
    updated-at of the rows with that identifier and nothing else: no other
    row, no other column, no message; with no such row the store is left as
    it was. *)
Theorem rename_changes_name_and_stamp_only (w : World) (sid new_name : string) (clock : Z) :
  next_call_succeeds w ->
  exists w1,
    rename_session clock sid new_name w = (Ok true, w1)
    /\ messages (store w1) = messages (store w)
    /\ map id (chat_sessions (store w1)) = map id (chat_sessions (store w))
    /\ map user_id (chat_sessions (store w1)) = map user_id (chat_sessions (store w))
    /\ map created_at (chat_sessions (store w1)) = map created_at (chat_sessions (store w))
    /\ (forall r, id r <> sid ->
          (In r (chat_sessions (store w1)) <-> In r (chat_sessions (store w))))
    /\ ((forall r, In r (chat_sessions (store w)) -> id r <> sid) -> store w1 = store w).
Proof.
  intros H. eexists. unfold rename_session, try_except, and_then.
  rewrite execute_succeeds by exact H.
  cbn [update_session fst snd ret store with_sessions chat_sessions messages].
  split; [reflexivity|]. split; [reflexivity|].
  set (change := fun r : SessionRow =>
                   if (id r =? sid)%string
                   then {| id := id r; user_id := user_id r;
                           session_name := Some new_name;
                           created_at := created_at r;
                           updated_at := isoformat_seconds clock |}
                   else r).
  assert (Hcol : forall (B : Type) (f : SessionRow -> B),
             (forall r, f (change r) = f r) ->
             map f (map change (chat_sessions (store w))) = map f (chat_sessions (store w))).
  { intros B f Hf. rewrite map_map. apply map_ext. exact Hf. }
  assert (Hkeep : forall r, id r <> sid -> change r = r).
  { intros r Hr. unfold change. apply String.eqb_neq in Hr. now rewrite Hr. }
  repeat split.
  - apply Hcol. intros r. unfold change. now destruct (id r =? sid)%string.
  - apply Hcol. intros r. unfold change. now destruct (id r =? sid)%string.
  - apply Hcol. intros r. unfold change. now destruct (id r =? sid)%string.
  - intros Hin. apply in_map_iff in Hin as [r' [Hr' Hin]].
    destruct (String.eqb_spec (id r') sid) as [E|E].
    + exfalso. apply H0. rewrite <- Hr'. unfold change.
      apply String.eqb_eq in E. rewrite E. simpl. now apply String.eqb_eq.
    + rewrite (Hkeep r' E) in Hr'. now subst r'.
  - intros Hin. apply in_map_iff. exists r. split; [now apply Hkeep | exact Hin].
  - intros Hnone.
    assert (Hrows : map change (chat_sessions (store w)) = chat_sessions (store w)).
    { transitivity (map (fun r : SessionRow => r) (chat_sessions (store w)));
        [|apply map_id].
      apply map_ext_in. intros r Hin. apply Hkeep. now apply Hnone. }
    unfold with_sessions. rewrite Hrows. now destruct (store w).
Qed.

Lemma rename_changes_name_and_stamp_only_witness :
  exists w1,
    rename_session 103700000 "s9" "Algebra" one_session = (Ok true, w1)
    /\ store w1 = store one_session.
Proof.
  destruct (rename_changes_name_and_stamp_only one_session "s9" "Algebra" 103700000
              eq_refl) as (w1 & Hrename & _ & _ & _ & _ & _ & Hsame).
  exists w1. split; [exact Hrename|]. apply Hsame.
  intros r [<-|[]]. discriminate.
Defined.

Section Deleting.

Context {store_order : StoreOrder}.

Ltac reduce_store :=
  cbn [delete_session_messages delete_session_row select_session_messages
       select_user_sessions fst snd store faults log with_sessions with_messages
       chat_sessions messages].

Lemma order_nil (A : Type) (key : A -> Z) (desc : bool) : order key desc [] = [].
Proof. apply Permutation_nil, order_perm. Qed.

Lemma filter_out_then_in (A : Type) (f : A -> bool) (rows : list A) :
  filter f (filter (fun r => negb (f r)) rows) = [].
Proof.
  induction rows as [|r rows IH]; [reflexivity|]. simpl.
  destruct (f r) eqn:E; simpl; [exact IH|]. now rewrite E.
Qed.

(** X19: after a [delete_session] whose two store calls go through, as seen
    by reads that go through too, the session is gone and so are its
    messages: [get_session] finds nothing, [get_session_messages] lists
    nothing, no user's listing shows it; every other session and every
    message of another session is still there. *)
Theorem delete_then_read (w : World) (sid : string) :
  next_calls_succeed 3 w ->
  exists w1,
    delete_session sid w = (Ok tt, w1)
    /\ fst (get_session sid w1) = Ok None
    /\ fst (get_session_messages sid w1) = Ok []
    /\ (forall user rows, fst (get_user_sessions user w1) = Ok rows ->
          forall r, In r rows -> id r <> sid)
    /\ (forall r, In r (chat_sessions (store w1))
                  <-> In r (chat_sessions (store w)) /\ id r <> sid)
    /\ (forall m, In m (messages (store w1))
                  <-> In m (messages (store w)) /\ msg_session_id m <> sid).
Proof.
  intros Hcalls.
  apply next_calls_step in Hcalls as [H1 Hcalls].
  pose proof (fun s l => proj1 (next_calls_step _ _ (Hcalls s l))) as H2.
  pose proof (fun s l s' l' =>
                proj1 (next_calls_step _ _
                         (proj2 (next_calls_step _ _ (Hcalls s l)) s' l'))) as H3.
  cbn [faults] in H2, H3.
  eexists. split.
  { unfold delete_session, try_except, and_then.
    rewrite execute_succeeds by exact H1.
    rewrite execute_succeeds by apply H2. reflexivity. }
  reduce_store.
  assert (Hsessions : forall r,
            In r (filter (fun r => negb (id r =? sid)%string) (chat_sessions (store w)))
            <-> In r (chat_sessions (store w)) /\ id r <> sid).
  { intros r. rewrite filter_In, negb_true_iff, String.eqb_neq. reflexivity. }
  assert (Hmessages : forall m,
            In m (filter (fun m => negb (msg_session_id m =? sid)%string)
                    (messages (store w)))
            <-> In m (messages (store w)) /\ msg_session_id m <> sid).
  { intros m. rewrite filter_In, negb_true_iff, String.eqb_neq. reflexivity. }
  split; [|split; [|split; [|split; assumption]]].
  - rewrite get_session_first by apply (H3 (store w) (log w)).
    reduce_store.
    now rewrite (filter_out_then_in _ (fun r => (id r =? sid)%string)).
  - unfold get_session_messages, try_except.
    rewrite execute_succeeds by apply (H3 (store w) (log w)).
    reduce_store.
    rewrite (filter_out_then_in _ (fun m => (msg_session_id m =? sid)%string)).
    now rewrite order_nil.
  - intros user rows. unfold get_user_sessions, try_except.
    rewrite execute_succeeds by apply (H3 (store w) (log w)).
    reduce_store. intros [= <-] r Hin.
    eapply Permutation_in in Hin; [|apply Permutation_sym, order_perm].
    apply filter_In in Hin as [Hin _]. now apply Hsessions in Hin.
Qed.

(** *** Counting *)

(** The message belongs to a session of the user. *)
Definition owned_by (user : string) (sessions : list SessionRow) (m : MessageRow) : bool :=
  existsb (fun r => (user_id r =? user)%string && (msg_session_id m =? id r)%string)
    sessions.

Lemma mem_user_ids (user : string) (sessions : list SessionRow) (m : MessageRow) :
  mem (msg_session_id m)
    (map id (filter (fun r => (user_id r =? user)%string) sessions))
  = owned_by user sessions m.
Proof.
  unfold mem, owned_by. induction sessions as [|r rows IH]; [reflexivity|]. simpl.
  destruct (user_id r =? user)%string; simpl; now rewrite IH.
Qed.

Lemma filter_nothing (A : Type) (f : A -> bool) (rows : list A) :
  (forall r, f r = false) -> filter f rows = [].
Proof.
  intros H. induction rows as [|r rows IH]; [reflexivity|]. simpl. now rewrite H.
Qed.

(** X20: when its store calls go through, [get_total_message_count] returns
    the number of messages that belong to a session of the user; for a user
    with no session it returns 0 after the one query for the session
    identifiers, the count query not being made. *)
Theorem total_message_count (w : World) (user : string) :
  next_calls_succeed 2 w ->
  fst (get_total_message_count user w)
  = Ok (Z.of_nat (List.length
                    (filter (owned_by user (chat_sessions (store w)))
                       (messages (store w)))))
  /\ ((forall r, In r (chat_sessions (store w)) -> user_id r <> user) ->
      get_total_message_count user w = (Ok 0, after_call w)).
Proof.
  intros Hcalls. apply next_calls_step in Hcalls as [H1 Hcalls].
  pose proof (fun s l => proj1 (next_calls_step _ _ (Hcalls s l))) as H2.
  unfold get_total_message_count, try_except, and_then.
  rewrite execute_succeeds by exact H1.
  cbn [select_user_session_ids fst snd].
  destruct (map id (filter (fun r => (user_id r =? user)%string)
                      (chat_sessions (store w)))) as [|i ids] eqn:E.
  - split.
    + cbn [ret fst]. rewrite filter_nothing; [reflexivity|].
      intros m. rewrite <- mem_user_ids, E. reflexivity.
    + intros _. reflexivity.
  - split.
    + rewrite execute_succeeds by apply H2.
      cbn [count_messages_in fst store]. do 3 f_equal.
      apply filter_ext. intros m. rewrite <- E. apply mem_user_ids.
    + intros Hnone. exfalso.
      assert (Hin : In i (map id (filter (fun r => (user_id r =? user)%string)
                                    (chat_sessions (store w)))))
        by (rewrite E; now left).
      apply in_map_iff in Hin as [r [_ Hin]]. apply filter_In in Hin as [Hin Hu].
      apply String.eqb_eq in Hu. now apply (Hnone r).
Qed.

End Deleting.

Lemma delete_then_read_witness :
  exists w1,
    delete_session "s1" one_session = (Ok tt, w1)
    /\ fst (get_session "s1" w1) = Ok None
    /\ fst (@get_session_messages stable_store "s1" w1) = Ok [].
Proof.
  destruct (@delete_then_read stable_store one_session "s1" eq_refl)
    as (w1 & Hdelete & Hget & Hlist & _).
  now exists w1.
Defined.

Lemma total_message_count_witness :
  fst (get_total_message_count "u1" one_session) = Ok 0
  /\ get_total_message_count "u2" one_session = (Ok 0, after_call one_session).
Proof.
  destruct (@total_message_count one_session "u1" eq_refl) as [Hcount _].
  destruct (@total_message_count one_session "u2" eq_refl) as [_ Hnone].
  split; [exact Hcount|]. apply Hnone. intros r [<-|[]]. discriminate.
Defined.


(** *** The content pattern *)

Lemma like_percent (text : string) : like "%" text = true.
Proof.
  cbn [like]. change ("%" =? "%")%char with true. cbv iota.
  induction text as [|a text IH]; [reflexivity|]. exact IH.
Qed.

Lemma like_escaped_prefix (q text : string) :
  like (escape_sql_like q ++ "%") text = String.prefix q text.
Proof.
  revert text. induction q as [|c q IH]; intros text.
  - cbn [escape_sql_like append]. rewrite like_percent. now destruct text.
  - cbn [escape_sql_like].
    destruct ((c =? backslash)%char || (c =? "%")%char || (c =? "_")%char) eqn:E.
    + cbn [append like].
      change (backslash =? "%")%char with false.
      change (backslash =? "_")%char with false.
      rewrite Ascii.eqb_refl. cbv iota.
      destruct text as [|a text]; [reflexivity|].
      rewrite IH. cbn [String.prefix].
      destruct (ascii_dec c a) as [->|Hne].
      * now rewrite Ascii.eqb_refl.
      * apply not_eq_sym, Ascii.eqb_neq in Hne. now rewrite Hne.
    + apply orb_false_iff in E as [E E3]. apply orb_false_iff in E as [E1 E2].
      cbn [append like]. rewrite E1, E2, E3.
      destruct text as [|a text]; [reflexivity|].
      rewrite IH. cbn [String.prefix].
      destruct (ascii_dec c a) as [->|Hne].
      * now rewrite Ascii.eqb_refl.
      * apply not_eq_sym, Ascii.eqb_neq in Hne. now rewrite Hne.
Qed.

Lemma like_escaped_anywhere (q text : string) :
  like ("%" ++ escape_sql_like q ++ "%") text = contains q text.
Proof.
  cbn [append like]. change ("%" =? "%")%char with true. cbv iota.
  induction text as [|a text IH].
  - cbn [contains]. now rewrite like_escaped_prefix, orb_false_r.
  - cbn [contains]. rewrite like_escaped_prefix. f_equal. exact IH.
Qed.

Lemma lower_char_special (c : ascii) :
  (lower_char c =? backslash)%char = (c =? backslash)%char
  /\ (lower_char c =? "%")%char = (c =? "%")%char
  /\ (lower_char c =? "_")%char = (c =? "_")%char
  /\ lower_char (lower_char c) = lower_char c.
Proof. destruct c as [[] [] [] [] [] [] [] []]; repeat split. Qed.

Lemma lower_escape (text : string) :
  lower (escape_sql_like text) = escape_sql_like (lower text).
Proof.
  induction text as [|c text IH]; [reflexivity|].
  cbn [escape_sql_like lower].
  destruct (lower_char_special c) as (H1 & H2 & H3 & _). rewrite H1, H2, H3.
  destruct ((c =? backslash)%char || (c =? "%")%char || (c =? "_")%char);
    cbn [lower]; rewrite IH; reflexivity.
Qed.

Lemma lower_app (s t : string) : lower (s ++ t) = lower s ++ lower t.
Proof. induction s as [|c s IH]; [reflexivity|]. cbn [append lower]. now rewrite IH. Qed.

Lemma lower_lower (s : string) : lower (lower s) = lower s.
Proof.
  induction s as [|c s IH]; [reflexivity|]. cbn [lower]. rewrite IH.
  now destruct (lower_char_special c) as (_ & _ & _ & ->).
Qed.

Lemma ilike_escaped (query text : string) :
  ilike ("%" ++ escape_sql_like (lower query) ++ "%") text
  = contains (lower query) (lower text).
Proof.
  unfold ilike. rewrite !lower_app, lower_escape, lower_lower.
  change (lower "%") with "%". apply like_escaped_anywhere.
Qed.

(** *** What a search returns *)

Lemma mem_In (k : string) (ks : list string) : mem k ks = true <-> In k ks.
Proof.
  unfold mem. rewrite existsb_exists. split.
  - intros (k' & Hin & E). apply String.eqb_eq in E. now subst k'.
  - intros Hin. exists k. split; [exact Hin | apply String.eqb_refl].
Qed.

Section Dicts.

Variable A : Type.

Lemma dict_set_in (k : string) (x : A) (d : list (string * A)) (kv : string * A) :
  In kv (dict_set k x d) -> kv = (k, x) \/ In kv d.
Proof.
  induction d as [|[k' v'] d IH]; simpl.
  - intros [<-|[]]. now left.
  - destruct (k =? k')%string; simpl.
    + intros [<-|H]; auto.
    + intros [<-|H]; auto. destruct (IH H); auto.
Qed.

Lemma dict_set_has (k : string) (x : A) (d : list (string * A)) :
  In (k, x) (dict_set k x d).
Proof.
  induction d as [|[k' v'] d IH]; simpl; [now left|].
  destruct (k =? k')%string; simpl; auto.
Qed.

Lemma dict_set_keeps (k : string) (x : A) (d : list (string * A)) (k' : string) (v : A) :
  In (k', v) d -> (k' = k -> v = x) -> In (k', v) (dict_set k x d).
Proof.
  intros Hin Hsame. induction d as [|[k0 v0] d IH]; simpl in *; [contradiction|].
  destruct (String.eqb_spec k k0) as [<-|Hne]; simpl.
  - destruct Hin as [[= <- <-]|Hin]; [|now right].
    left. now rewrite (Hsame eq_refl).
  - destruct Hin as [Hin|Hin]; [now left | right; now apply IH].
Qed.

Lemma dict_set_nodup (k : string) (x : A) (d : list (string * A)) :
  NoDup (dict_keys d) -> NoDup (dict_keys (dict_set k x d)).
Proof.
  induction d as [|[k' v'] d IH]; simpl; intros H.
  - repeat constructor. intros [].
  - inversion H as [|? ? Hnotin Hrest]; subst.
    destruct (String.eqb_spec k k') as [<-|Hne]; simpl.
    + now constructor.
    + constructor; [|now apply IH].
      intros Hin. apply Hnotin.
      apply in_map_iff in Hin as [[k0 v0] [E Hin]]. simpl in E. subst k0.
      apply dict_set_in in Hin as [[= -> ->]|Hin]; [contradiction|].
      apply in_map_iff. now exists (k', v0).
Qed.

End Dicts.

Section Passes.

Variable test : SessionRow -> bool.

(** One pass of [search_sessions] over the sessions: a session that passes the
    test is stored under its identifier. *)
Definition pass (d : list (string * SessionRow)) (sessions : list SessionRow)
  : list (string * SessionRow) :=
  fold_left (fun d s => if test s then dict_set (id s) s d else d) sessions d.

Definition keyed (d : list (string * SessionRow)) : Prop :=
  forall k v, In (k, v) d -> k = id v.

Lemma pass_in (sessions : list SessionRow) (d : list (string * SessionRow))
    (kv : string * SessionRow) :
  In kv (pass d sessions) ->
  In kv d \/ (In (snd kv) sessions /\ test (snd kv) = true /\ fst kv = id (snd kv)).
Proof.
  revert d. induction sessions as [|s sessions IH]; intros d; simpl; [auto|].
  intros H. apply IH in H as [H|(H1 & H2 & H3)]; [|right; auto].
  destruct (test s) eqn:E; [|auto].
  apply dict_set_in in H as [->|H]; [right; simpl; auto | auto].
Qed.

Lemma pass_keyed_nodup (sessions : list SessionRow) (d : list (string * SessionRow)) :
  keyed d -> NoDup (dict_keys d) ->
  keyed (pass d sessions) /\ NoDup (dict_keys (pass d sessions)).
Proof.
  revert d. induction sessions as [|s sessions IH]; intros d Hk Hn; simpl; [auto|].
  apply IH.
  - destruct (test s); [|exact Hk].
    intros k v Hin. apply dict_set_in in Hin as [[= -> ->]|Hin]; auto.
  - destruct (test s); [|exact Hn]. now apply dict_set_nodup.
Qed.

Variable all : list SessionRow.
Hypothesis ids_identify :
  forall a b, In a all -> In b all -> id a = id b -> a = b.

Definition good (d : list (string * SessionRow)) : Prop :=
  forall k v, In (k, v) d -> k = id v /\ In v all.

Lemma pass_entries (sessions : list SessionRow) (d : list (string * SessionRow)) :
  (forall s, In s sessions -> In s all) -> good d ->
  good (pass d sessions)
  /\ forall k v, In (k, v) (pass d sessions)
                 <-> In (k, v) d \/ (In v sessions /\ test v = true /\ k = id v).
Proof.
  revert d. induction sessions as [|s sessions IH]; intros d Hsub Hgood; simpl.
  - split; [exact Hgood|]. intros k v. intuition.
  - assert (Hs : In s all) by (apply Hsub; now left).
    set (d1 := if test s then dict_set (id s) s d else d).
    assert (Hgood1 : good d1).
    { unfold d1. destruct (test s); [|exact Hgood].
      intros k v Hin. apply dict_set_in in Hin as [[= -> ->]|Hin]; auto. }
    assert (Hd1 : forall k v, In (k, v) d1
                              <-> In (k, v) d \/ (v = s /\ test s = true /\ k = id s)).
    { intros k v. unfold d1. destruct (test s) eqn:E.
      - split.
        + intros Hin. apply dict_set_in in Hin as [[= -> ->]|Hin]; auto.
        + intros [Hin|(-> & _ & ->)]; [|apply dict_set_has].
          apply dict_set_keeps; [exact Hin|].
          intros ->. destruct (Hgood _ _ Hin) as [Hid Hv].
          now apply ids_identify.
      - split; [auto|]. intros [Hin|(_ & [=] & _)]. exact Hin. }
    destruct (IH d1 (fun s' H => Hsub s' (or_intror H)) Hgood1) as [Hgood2 Hin2].
    split; [exact Hgood2|].
    intros k v. rewrite Hin2, Hd1. split.
    + intros [[H|(-> & H2 & H3)]|(H1 & H2 & H3)]; auto.
    + intros [H|([<-|H1] & H2 & H3)]; auto.
Qed.

End Passes.

Section Searching.

Context {store_order : StoreOrder}.

(** The session identifiers the message pass is restricted to, the
    identifiers it gets back, and the dict after it. *)
Definition candidates (q : string) (sessions : list SessionRow) : list string :=
  map id (filter (fun s => negb (mem (id s) (dict_keys (named_matches q sessions))))
            sessions).

Definition matched (q : string) (sessions : list SessionRow) (s : Store) : list string :=
  fst (select_matching_session_ids (candidates q sessions) ("%" ++ q ++ "%") s).

Definition after_message_pass (q : string) (sessions : list SessionRow) (s : Store)
  : list (string * SessionRow) :=
  pass (fun r => mem (id r) (matched q sessions s)) (named_matches q sessions) sessions.

Lemma listed_sessions_are_owned (w w1 : World) (user : string)
    (sessions : list SessionRow) :
  get_user_sessions user w = (Ok sessions, w1) ->
  store w1 = store w
  /\ forall r, In r sessions -> In r (chat_sessions (store w)) /\ user_id r = user.
Proof.
  unfold get_user_sessions, try_except.
  destruct (hd false (faults w)) eqn:E.
  - rewrite execute_fails by exact E. intros [= <- <-]. split; [reflexivity|].
    intros r [].
  - rewrite execute_succeeds by exact E. cbn [select_user_sessions fst snd].
    intros [= <- <-]. split; [reflexivity|]. intros r Hin.
    eapply Permutation_in in Hin; [|apply Permutation_sym, order_perm].
    apply filter_In in Hin as [Hin Hu]. now apply String.eqb_eq in Hu.
Qed.

(** An exception of the name pass leaves [search_sessions] as it is, after
    the listing and before any other store call. *)
Lemma search_raises (w w1 : World) (user query : string) (sessions : list SessionRow)
    (e : exn) :
  query <> "" ->
  get_user_sessions user w = (Ok sessions, w1) ->
  name_matches (escape_sql_like (lower query)) sessions = Raise e ->
  search_sessions user query w = (Raise e, w1).
Proof.
  intros Hq Hget Hname. unfold search_sessions, and_then. rewrite Hget.
  apply String.eqb_neq in Hq. rewrite Hq. unfold lift. now rewrite Hname.
Qed.

Lemma search_cases (w w1 : World) (user query : string) (sessions : list SessionRow) :
  query <> "" ->
  get_user_sessions user w = (Ok sessions, w1) ->
  (forall s, In s sessions -> session_name s <> None) ->
  let q := escape_sql_like (lower query) in
  exists w2,
    store w2 = store w1
    /\ search_sessions user query w
       = (Ok (dict_values
                (match candidates q sessions with
                 | [] => named_matches q sessions
                 | _ => if hd false (faults w1) then named_matches q sessions
                        else after_message_pass q sessions (store w1)
                 end)), w2).
Proof.
  intros Hq Hget Hnamed q. unfold search_sessions, and_then. rewrite Hget.
  apply String.eqb_neq in Hq. rewrite Hq. fold q.
  unfold lift, name_matches. rewrite (name_pass_named q sessions [] Hnamed).
  fold (named_matches q sessions).
  unfold try_except, and_then. fold (candidates q sessions).
  destruct (candidates q sessions) as [|c cs] eqn:Ec.
  - exists w1. split; reflexivity.
  - destruct (hd false (faults w1)) eqn:E.
    + rewrite execute_fails by exact E. eexists. split; [|reflexivity]. reflexivity.
    + rewrite execute_succeeds by exact E. unfold after_message_pass, matched.
      rewrite Ec. eexists. split; [|reflexivity]. reflexivity.
Qed.

Lemma keyed_values_ids (d : list (string * SessionRow)) :
  keyed d -> map id (dict_values d) = dict_keys d.
Proof.
  unfold dict_values, dict_keys. intros Hk. rewrite map_map.
  apply map_ext_in. intros [k v] Hin. simpl. symmetry. now apply Hk.
Qed.

Lemma named_matches_keyed (q : string) (sessions : list SessionRow) :
  keyed (named_matches q sessions) /\ NoDup (dict_keys (named_matches q sessions)).
Proof.
  apply (pass_keyed_nodup (name_test q) sessions []).
  - intros k v [].
  - constructor.
Qed.

(** X21: whatever the query and whatever the store calls do, every row
    [search_sessions] returns is a session of the store that belongs to the
    user; for a non-empty query no two rows returned share an identifier. *)
Theorem search_returns_own_sessions (w w' : World) (user query : string)
    (rows : list SessionRow) :
  search_sessions user query w = (Ok rows, w') ->
  (forall r, In r rows -> In r (chat_sessions (store w)) /\ user_id r = user)
  /\ (query <> "" -> NoDup (map id rows)).
Proof.
  intros Hsearch.
  destruct (get_user_sessions_returns store_order user w) as [sessions Hs].
  destruct (get_user_sessions user w) as [r w1] eqn:Hget. simpl in Hs. subst r.
  destruct (listed_sessions_are_owned _ _ _ _ Hget) as [_ Howned].
  destruct (String.eqb_spec query "") as [->|Hq].
  - unfold search_sessions, and_then in Hsearch. rewrite Hget in Hsearch.
    cbn [String.eqb] in Hsearch. injection Hsearch as <- _.
    split; [exact Howned | congruence].
  - assert (Hnamed : forall s, In s sessions -> session_name s <> None).
    { destruct (name_matches (escape_sql_like (lower query)) sessions) as [d|e] eqn:Hname.
      - now apply name_pass_ok in Hname as [_ Hnamed].
      - rewrite (search_raises _ _ _ _ _ _ Hq Hget Hname) in Hsearch. discriminate. }
    destruct (search_cases _ _ _ _ _ Hq Hget Hnamed) as (w2 & _ & Hrows).
    rewrite Hrows in Hsearch. injection Hsearch as <- _.
    set (q := escape_sql_like (lower query)) in *.
    assert (Hd : forall d,
               d = named_matches q sessions \/ d = after_message_pass q sessions (store w1) ->
               (forall r, In r (dict_values d) -> In r sessions)
               /\ NoDup (map id (dict_values d))).
    { destruct (named_matches_keyed q sessions) as [Hk Hn].
      intros d [->| ->].
      - split.
        + intros r Hin. apply in_map_iff in Hin as [[k v] [<- Hin]].
          apply (pass_in (name_test q)) in Hin as [[]|(Hin & _)]. exact Hin.
        + now rewrite keyed_values_ids.
      - unfold after_message_pass.
        destruct (pass_keyed_nodup (fun r => mem (id r) (matched q sessions (store w1)))
                    sessions _ Hk Hn) as [Hk2 Hn2].
        split.
        + intros r Hin. apply in_map_iff in Hin as [[k v] [<- Hin]].
          apply pass_in in Hin as [Hin|(Hin & _)]; [|exact Hin].
          apply (pass_in (name_test q)) in Hin as [[]|(Hin & _)]. exact Hin.
        + now rewrite keyed_values_ids. }
    match goal with |- context [dict_values ?d] =>
      destruct (Hd d) as [Hin Hnodup] end.
    { destruct (candidates q sessions); [now left|].
      destruct (hd false (faults w1)); [now left | now right]. }
    split; [|intros _; exact Hnodup].
    intros r Hr. apply Howned, Hin, Hr.
Qed.

(** Some message of the session contains the query text, letter case apart. *)
Definition content_hit (query : string) (rows : list MessageRow) (r : SessionRow) : bool :=
  existsb (fun m => (msg_session_id m =? id r)%string
                    && contains (lower query) (lower (msg_content m))) rows.

(** The session's name, lowered, contains the text the name pass looks for:
    the lowered query after escaping. *)
Definition name_hit (query : string) (r : SessionRow) : bool :=
  name_test (escape_sql_like (lower query)) r.

Lemma matched_hit (query : string) (sessions : list SessionRow) (s : Store)
    (r : SessionRow) :
  mem (id r) (matched (escape_sql_like (lower query)) sessions s) = true
  <-> In (id r) (candidates (escape_sql_like (lower query)) sessions)
      /\ content_hit query (messages s) r = true.
Proof.
  unfold matched, content_hit. cbn [select_matching_session_ids fst].
  rewrite mem_In, in_map_iff, existsb_exists. split.
  - intros (m & Hid & Hin). apply filter_In in Hin as [Hin Hm].
    apply andb_true_iff in Hm as [Hc Hl]. rewrite ilike_escaped in Hl.
    rewrite Hid in Hc. split; [now apply mem_In|].
    exists m. split; [exact Hin|]. now rewrite Hid, String.eqb_refl.
  - intros (Hc & m & Hin & Hm). apply andb_true_iff in Hm as [Hid Hl].
    apply String.eqb_eq in Hid. exists m. split; [exact Hid|].
    apply filter_In. split; [exact Hin|].
    rewrite Hid, ilike_escaped, Hl. apply mem_In in Hc. now rewrite Hc.
Qed.

(** The text is ASCII and has no asterisk. *)
Definition plain_ascii (text : string) : Prop :=
  is_ascii text = true /\ has_char "*" text = false.

(** X22: for a non-empty query, when the store calls go through, no two of
    the user's sessions share an identifier and every one of them has a name,
    [search_sessions] returns exactly the user's sessions that the name pass
    or the message pass hits: those whose lowered name contains the escaped
    lowered query, and those with a message that contains the query text,
    letter case apart.  The texts compared -- the query, the names, the
    contents -- are ASCII, on which [str.lower] and the store's
    case-insensitive match fold the same letters; the query has no asterisk,
    a character the interface in front of the store may read as one more
    wildcard. *)
Theorem search_finds_name_or_content (w : World) (user query : string) :
  next_calls_succeed 2 w ->
  query <> "" ->
  plain_ascii query ->
  (forall a b, In a (chat_sessions (store w)) -> In b (chat_sessions (store w)) ->
               user_id a = user -> user_id b = user -> id a = id b -> a = b) ->
  (forall r, In r (chat_sessions (store w)) -> user_id r = user ->
             exists name, session_name r = Some name /\ is_ascii name = true) ->
  (forall m, In m (messages (store w)) -> is_ascii (msg_content m) = true) ->
  exists rows w',
    search_sessions user query w = (Ok rows, w')
    /\ store w' = store w
    /\ forall r, In r rows
                 <-> In r (chat_sessions (store w)) /\ user_id r = user
                     /\ name_hit query r || content_hit query (messages (store w)) r
                        = true.
Proof.
  intros Hcalls Hq _ Hids Hnames _.
  apply next_calls_step in Hcalls as [H1 Hcalls].
  pose proof (proj1 (next_calls_step _ _ (Hcalls (store w) (log w)))) as H2.
  set (sessions := order updated_at true
                     (filter (fun r => (user_id r =? user)%string)
                        (chat_sessions (store w)))).
  assert (Hget : get_user_sessions user w = (Ok sessions, after_call w)).
  { unfold get_user_sessions, try_except. now rewrite execute_succeeds by exact H1. }
  assert (Hsessions : forall r, In r sessions
                                <-> In r (chat_sessions (store w)) /\ user_id r = user).
  { intros r. unfold sessions. split.
    - intros Hin. eapply Permutation_in in Hin; [|apply Permutation_sym, order_perm].
      apply filter_In in Hin as [Hin Hu]. now apply String.eqb_eq in Hu.
    - intros [Hin Hu]. eapply Permutation_in; [apply order_perm|].
      apply filter_In. split; [exact Hin | now apply String.eqb_eq]. }
  assert (Hinj : forall a b, In a sessions -> In b sessions -> id a = id b -> a = b).
  { intros a b Ha Hb. apply Hsessions in Ha as [Ha Hua], Hb as [Hb Hub].
    now apply Hids. }
  assert (Hnamed : forall s, In s sessions -> session_name s <> None).
  { intros s Hin. apply Hsessions in Hin as [Hin Hu].
    destruct (Hnames s Hin Hu) as (name & -> & _). discriminate. }
  destruct (search_cases _ _ _ _ _ Hq Hget Hnamed) as (w2 & Hstore & Hrows).
  eexists. exists w2. split; [exact Hrows|]. split; [exact Hstore|].
  unfold next_call_succeeds in H2. cbn [faults after_call] in H2 |- *. rewrite H2.
  set (q := escape_sql_like (lower query)) in *.
  destruct (pass_entries (name_test q) sessions Hinj
              sessions [] (fun s H => H)) as [Hgood1 Hin1].
  { intros k v []. }
  fold (named_matches q sessions) in Hgood1, Hin1.
  assert (Hkey : forall r, In r sessions ->
                   (mem (id r) (dict_keys (named_matches q sessions)) = true
                    <-> name_hit query r = true)).
  { intros r Hr. rewrite mem_In. unfold dict_keys. rewrite in_map_iff. split.
    - intros ([k v] & Hk & Hin). simpl in Hk. subst k.
      apply Hin1 in Hin as [[]|(Hv & Hn & Hid)].
      rewrite (Hinj r v Hr Hv Hid). exact Hn.
    - intros Hn. exists (id r, r). split; [reflexivity|]. apply Hin1. right. auto. }
  assert (Hcand : forall r, In r sessions ->
                    (In (id r) (candidates q sessions) <-> name_hit query r = false)).
  { intros r Hr. unfold candidates. rewrite in_map_iff. split.
    - intros (s & Hid & Hin). apply filter_In in Hin as [Hs Hn].
      rewrite (Hinj r s Hr Hs (eq_sym Hid)).
      apply negb_true_iff in Hn. destruct (name_hit query s) eqn:E; [|reflexivity].
      apply (Hkey s Hs) in E. congruence.
    - intros Hn. exists r. split; [reflexivity|]. apply filter_In. split; [exact Hr|].
      apply negb_true_iff.
      destruct (mem (id r) (dict_keys (named_matches q sessions))) eqn:E; [|reflexivity].
      apply (Hkey r Hr) in E. congruence. }
  intros r. rewrite <- and_assoc, <- Hsessions.
  destruct (candidates q sessions) as [|c cs] eqn:Ec.
  - split.
    + intros Hin. apply in_map_iff in Hin as [[k v] [<- Hin]].
      apply Hin1 in Hin as [[]|(Hv & Hn & _)]. split; [exact Hv|].
      unfold name_hit. fold q. simpl. now rewrite Hn.
    + intros [Hr _]. apply in_map_iff. exists (id r, r). split; [reflexivity|].
      apply Hin1. right. split; [exact Hr|]. split; [|reflexivity].
      destruct (name_hit query r) eqn:E; [exact E|].
      apply (Hcand r Hr) in E. contradiction.
  - rewrite <- Ec in *. clear Ec c cs.
    destruct (pass_entries (fun r => mem (id r) (matched q sessions (store (after_call w))))
                sessions Hinj sessions (named_matches q sessions) (fun s H => H) Hgood1)
      as [_ Hin2].
    fold (after_message_pass q sessions (store (after_call w))) in Hin2.
    split.
    + intros Hin. apply in_map_iff in Hin as [[k v] [<- Hin]]. simpl.
      apply Hin2 in Hin as [Hin|(Hv & Hm & _)].
      * apply Hin1 in Hin as [[]|(Hv & Hn & _)]. split; [exact Hv|].
        unfold name_hit. fold q. now rewrite Hn.
      * split; [exact Hv|]. apply matched_hit in Hm as [_ Hc].
        cbn [store after_call] in Hc. rewrite Hc. apply orb_true_r.
    + intros [Hr Hhit]. apply in_map_iff. exists (id r, r). split; [reflexivity|].
      apply Hin2. destruct (name_hit query r) eqn:En.
      * left. apply Hin1. right. auto.
      * right. split; [exact Hr|]. split; [|reflexivity].
        apply matched_hit. split; [now apply Hcand|].
        simpl in Hhit. exact Hhit.
Qed.

Variable json_dumps : ExportData -> string.

Lemma name_pass_null (q : string) (sessions : list SessionRow)
    (d : list (string * SessionRow)) :
  (exists s, In s sessions /\ session_name s = None) ->
  name_pass q sessions d
  = Raise (AttributeError "'NoneType' object has no attribute 'lower'").
Proof.
  intros Hnull. destruct (name_pass q sessions d) as [d'|e] eqn:E.
  - apply name_pass_ok in E as [_ Hnamed]. destruct Hnull as (s & Hin & Hnone).
    now apply Hnamed in Hin.
  - now apply name_pass_raises in E as [-> _].
Qed.

(** X12: a failure of the store never leaves the gateway: nine of the ten
    methods return a value in every world, whatever the store calls do.
    [search_sessions] is the exception, and not for a failure of the store:
    its pass over the names stands outside the [try] and lowers each name, so
    with a query that is not empty it raises [AttributeError] when a session
    of the user has a null name, and that is all it ever raises. *)
Theorem store_failures_stay_inside (w : World) (sid user name role content query : string)
    (clock : Z) (tokens_in tokens_out : option Z) :
  let null_name := AttributeError "'NoneType' object has no attribute 'lower'" in
  (exists r, fst (create_session sid clock user name w) = Ok r)
  /\ (exists r, fst (get_user_sessions user w) = Ok r)
  /\ (exists r, fst (get_session sid w) = Ok r)
  /\ (exists r, fst (rename_session clock sid name w) = Ok r)
  /\ (exists r, fst (delete_session sid w) = Ok r)
  /\ (exists r, fst (get_session_messages sid w) = Ok r)
  /\ (exists r, fst (add_message name clock sid role content tokens_in tokens_out w) = Ok r)
  /\ (exists r, fst (get_total_message_count user w) = Ok r)
  /\ (exists r, fst (export_session_json json_dumps user sid w) = Ok r)
  /\ (forall e, fst (search_sessions user query w) = Raise e ->
        e = null_name /\ query <> ""
        /\ exists row, In row (chat_sessions (store w)) /\ user_id row = user
                       /\ session_name row = None)
  /\ ((forall row, In row (chat_sessions (store w)) -> user_id row = user ->
                   session_name row <> None) ->
      exists r, fst (search_sessions user query w) = Ok r)
  /\ (next_call_succeeds w -> query <> "" ->
      (exists row, In row (chat_sessions (store w)) /\ user_id row = user
                   /\ session_name row = None) ->
      search_sessions user query w = (Raise null_name, after_call w)).
Proof.
  intros null_name.
  destruct (get_user_sessions_returns store_order user w) as [sessions Hs].
  destruct (get_user_sessions user w) as [r0 w1] eqn:Hget. simpl in Hs. subst r0.
  destruct (listed_sessions_are_owned _ _ _ _ Hget) as [_ Howned].
  repeat split;
    try (apply try_except_returns; intros e' w'; apply logged_default_returns).
  - now exists sessions.
  - unfold export_session_json, and_then.
    assert (Hfound : exists r, fst (get_session sid w) = Ok r)
      by (apply try_except_returns; intros e' w'; apply logged_default_returns).
    destruct Hfound as [r Hr]. destruct (get_session sid w) as [r' w2].
    simpl in Hr. subst r'. destruct r as [row|]; [|now eexists].
    destruct (negb (user_id row =? user)%string); [now eexists|].
    assert (Hrows : exists r, fst (get_session_messages sid w2) = Ok r)
      by (apply try_except_returns; intros e' w'; apply logged_default_returns).
    destruct Hrows as [rows Hrows]. destruct (get_session_messages sid w2) as [r' w3].
    simpl in Hrows. subst r'. now eexists.
  - destruct (String.eqb_spec query "") as [->|Hq].
    + unfold search_sessions, and_then in H. rewrite Hget in H. discriminate.
    + destruct (name_matches (escape_sql_like (lower query)) sessions) as [d|e'] eqn:Hname.
      * apply name_pass_ok in Hname as [_ Hnamed].
        destruct (search_cases _ _ _ _ _ Hq Hget Hnamed) as (w2 & _ & Hrows).
        rewrite Hrows in H. discriminate.
      * rewrite (search_raises _ _ _ _ _ _ Hq Hget Hname) in H. injection H as <-.
        now apply name_pass_raises in Hname as [-> _].
  - intros ->. unfold search_sessions, and_then in H. rewrite Hget in H. discriminate.
  - destruct (String.eqb_spec query "") as [->|Hq].
    + unfold search_sessions, and_then in H. rewrite Hget in H. discriminate.
    + destruct (name_matches (escape_sql_like (lower query)) sessions) as [d|e'] eqn:Hname.
      * apply name_pass_ok in Hname as [_ Hnamed].
        destruct (search_cases _ _ _ _ _ Hq Hget Hnamed) as (w2 & _ & Hrows).
        rewrite Hrows in H. discriminate.
      * apply name_pass_raises in Hname as [_ (s & Hin & Hnone)].
        exists s. destruct (Howned s Hin) as [Hstore Huser]. auto.
  - intros Hnamed.
    destruct (String.eqb_spec query "") as [->|Hq].
    + unfold search_sessions, and_then. rewrite Hget. now exists sessions.
    + destruct (search_cases _ _ _ _ _ Hq Hget) as (w2 & _ & Hrows).
      * intros s Hin. destruct (Howned s Hin) as [Hstore Huser]. now apply Hnamed.
      * rewrite Hrows. now eexists.
  - intros Hcall Hq (row & Hin & Huser & Hnone).
    assert (Hlist : get_user_sessions user w
                    = (Ok (order updated_at true
                             (filter (fun r => (user_id r =? user)%string)
                                (chat_sessions (store w)))), after_call w)).
    { unfold get_user_sessions, try_except. now rewrite execute_succeeds by exact Hcall. }
    apply (search_raises _ _ _ _ _ _ Hq Hlist).
    apply name_pass_null. exists row. split; [|exact Hnone].
    eapply Permutation_in; [apply order_perm|].
    apply filter_In. split; [exact Hin | now apply String.eqb_eq].
Qed.

End Searching.

Lemma search_finds_name_or_content_witness :
  exists rows w',
    @search_sessions stable_store "u1" "DONE" one_session = (Ok rows, w')
    /\ (In {| id := "s1"; user_id := "u1"; session_name := Some "100% Done";
              created_at := 100; updated_at := 100 |} rows).
Proof.
  destruct (@search_finds_name_or_content stable_store one_session "u1" "DONE")
    as (rows & w' & Hsearch & _ & Hrows).
  - reflexivity.
  - discriminate.
  - split; reflexivity.
  - intros a b [<-|[]] [<-|[]] _ _ _. reflexivity.
  - intros r [<-|[]] _. now exists "100% Done".
  - intros m [].
  - exists rows, w'. split; [exact Hsearch|]. apply Hrows.
    repeat split. now left.
Defined.

Lemma search_returns_own_sessions_witness :
  let row := {| id := "s1"; user_id := "u1"; session_name := Some "100% Done";
                created_at := 100; updated_at := 100 |} in
  (forall r, In r [row] -> In r (chat_sessions (store one_session)) /\ user_id r = "u1")
  /\ ("done" <> "" -> NoDup (map id [row])).
Proof.
  exact (@search_returns_own_sessions stable_store one_session one_session "u1" "done" _
           eq_refl).
Defined.

Lemma failed_reads_look_empty_witness :
  get_session "s1"
    {| store := store one_session; faults := [true]; log := [] |}
  = (Ok None,
     {| store := store one_session; faults := [];
        log := ["Failed to get session s1: store request failed"] |}).
Proof.
  apply (@failed_reads_look_empty stable_store
           {| store := store one_session; faults := [true]; log := [] |} "s1" "u1").
  reflexivity.
Defined.

Lemma listings_are_exact_witness :
  (exists rows,
     @get_user_sessions stable_store "u1" one_session = (Ok rows, after_call one_session)
     /\ Permutation (chat_sessions (store one_session)) rows
     /\ StronglySorted (fun a b => updated_at b <= updated_at a) rows)
  /\ (exists rows,
        @get_session_messages stable_store "s1" one_session
        = (Ok rows, after_call one_session)
        /\ Permutation [] rows
        /\ StronglySorted (fun a b => msg_created_at a <= msg_created_at b) rows).
Proof.
  exact (@listings_are_exact stable_store one_session "u1" "s1" eq_refl).
Defined.

(** *** Exporting *)

Section Exporting.

Context {store_order : StoreOrder}.
Variable json_dumps : ExportData -> string.


(** X24: for a session the user owns, found by a read that goes through, the
    export is the bundle of the session's name, its created-at and the rows
    [get_session_messages] returns then; when that second read fails, the
    bundle is exported with no messages rather than as an error. *)
Theorem export_bundles_conversation (w : World) (user sid : string) (row : SessionRow) :
  next_call_succeeds w ->
  hd_error (filter (fun r => (id r =? sid)%string) (chat_sessions (store w))) = Some row ->
  user_id row = user ->
  exists rows w2,
    get_session_messages sid (after_call w) = (Ok rows, w2)
    /\ export_session_json json_dumps user sid w
       = (Ok (json_dumps (ExportBundle (session_name row) (created_at row) rows)), w2)
    /\ (hd false (faults (after_call w)) = true -> rows = []).
Proof.
  intros H1 Hrow Huser. unfold export_session_json, and_then.
  rewrite get_session_first by exact H1. rewrite Hrow.
  apply String.eqb_eq in Huser. rewrite Huser. cbn [negb].
  assert (H : exists r, fst (get_session_messages sid (after_call w)) = Ok r)
    by (apply try_except_returns; intros e' w'; apply logged_default_returns).
  destruct H as [rows Hrows].
  destruct (get_session_messages sid (after_call w)) as [r w2] eqn:Hlist.
  simpl in Hrows. subst r. exists rows, w2. repeat split.
  intros Hfail. unfold get_session_messages, try_except in Hlist.
  rewrite execute_fails in Hlist by exact Hfail. now injection Hlist as <- _.
Qed.

End Exporting.

(** A serializer that tells an error payload from a bundle of so many rows. *)
Definition sketch (data : ExportData) : string :=
  match data with
  | ExportError error => error
  | ExportBundle name _ rows =>
      match name with
      | Some text => text
      | None => "null"
      end ++ ": " ++ repr_int (Z.of_nat (List.length rows))
  end.

(** The world [one_session] with a second session of the same user, its name
    null. *)
Definition unnamed_session : World :=
  {| store := {| chat_sessions :=
                   chat_sessions (store one_session)
                   ++ [{| id := "s2"; user_id := "u1"; session_name := None;
                          created_at := 101; updated_at := 101 |}];
                 messages := [] |};
     faults := []; log := [] |}.

Lemma store_failures_stay_inside_witness :
  @search_sessions stable_store "u1" "done" unnamed_session
  = (Raise (AttributeError "'NoneType' object has no attribute 'lower'"),
     after_call unnamed_session)
  /\ exists rows, fst (@search_sessions stable_store "u1" "" unnamed_session) = Ok rows.
Proof.
  destruct (@store_failures_stay_inside stable_store sketch unnamed_session "s1" "u1"
              "Algebra" "user" "2+2?" "done" 0 None None)
    as (_ & _ & _ & _ & _ & _ & _ & _ & _ & _ & _ & Hraises).
  destruct (@store_failures_stay_inside stable_store sketch unnamed_session "s1" "u1"
              "Algebra" "user" "2+2?" "" 0 None None)
    as (_ & _ & _ & _ & _ & _ & _ & _ & _ & Honly & _).
  split.
  - apply Hraises; [reflexivity | discriminate |].
    eexists. split; [right; left; reflexivity | split; reflexivity].
  - destruct (fst (@search_sessions stable_store "u1" "" unnamed_session)) as [rows|e].
    + now exists rows.
    + destruct (Honly e eq_refl) as (_ & Hq & _). now contradiction Hq.
Defined.



Lemma export_bundles_conversation_witness :
  exists rows w2,
    @export_session_json stable_store sketch "u1" "s1"
      {| store := store one_session; faults := [false; true]; log := [] |}
    = (Ok (sketch (ExportBundle (Some "100% Done") 100 rows)), w2)
    /\ rows = [].
Proof.
  destruct (@export_bundles_conversation stable_store sketch
              {| store := store one_session; faults := [false; true]; log := [] |}
              "u1" "s1" _ eq_refl eq_refl eq_refl)
    as (rows & w2 & _ & Hexport & Hempty).
  exists rows, w2. split; [exact Hexport|]. now apply Hempty.
Defined.

(** *** Time stamps across calls *)

(** No session is updated before it was created, and no message is younger
    than the updated-at of a session it belongs to. *)
Definition stamps_consistent (s : Store) : Prop :=
  (forall r, In r (chat_sessions s) -> created_at r <= updated_at r)
  /\ (forall r m, In r (chat_sessions s) -> In m (messages s) ->
                  msg_session_id m = id r -> msg_created_at m <= updated_at r).

(** No stamp in the store is later than the clock reading [t]. *)
Definition stamps_until (t : Z) (s : Store) : Prop :=
  (forall r, In r (chat_sessions s) -> updated_at r <= isoformat_seconds t)
  /\ (forall m, In m (messages s) -> msg_created_at m <= isoformat_seconds t).

(** A call of one of the writing methods, with what it draws from the
    environment. *)
Inductive Call : Type :=
| CallCreate (sid : string) (clock : Z) (user name : string)
| CallAdd (mid : string) (clock : Z) (sid role content : string)
    (tokens_in tokens_out : option Z)
| CallRename (clock : Z) (sid new_name : string)
| CallDelete (sid : string).

Definition call_clock (c : Call) : option Z :=
  match c with
  | CallCreate _ clock _ _ | CallAdd _ clock _ _ _ _ _ | CallRename clock _ _ => Some clock
  | CallDelete _ => None
  end.

Definition perform (c : Call) : Action unit :=
  match c with
  | CallCreate sid clock user name => create_session sid clock user name ;;; ret tt
  | CallAdd mid clock sid role content tokens_in tokens_out =>
      add_message mid clock sid role content tokens_in tokens_out ;;; ret tt
  | CallRename clock sid new_name => rename_session clock sid new_name ;;; ret tt
  | CallDelete sid => delete_session sid
  end.

Fixpoint perform_all (calls : list Call) : Action unit :=
  match calls with
  | [] => ret tt
  | c :: rest => perform c ;;; perform_all rest
  end.

(** The clock readings of the calls never go back, starting from [t]. *)
Fixpoint clock_never_goes_back (t : Z) (calls : list Call) : Prop :=
  match calls with
  | [] => True
  | c :: rest =>
      match call_clock c with
      | Some clock => t <= clock /\ clock_never_goes_back clock rest
      | None => clock_never_goes_back t rest
      end
  end.

Definition clock_after (t : Z) (c : Call) : Z :=
  match call_clock c with
  | Some clock => clock
  | None => t
  end.

Lemma restamped_rows (t k : Z) (sid : string) (name_of : SessionRow -> option string)
    (s : Store) (rows : list MessageRow) :
  stamps_consistent s -> stamps_until t s -> t <= k ->
  (forall m, In m rows ->
     (In m (messages s) \/ (msg_session_id m = sid /\ msg_created_at m = isoformat_seconds k))) ->
  let s' := {| chat_sessions :=
                 map (fun r => if (id r =? sid)%string
                               then {| id := id r; user_id := user_id r;
                                       session_name := name_of r;
                                       created_at := created_at r;
                                       updated_at := isoformat_seconds k |}
                               else r) (chat_sessions s);
               messages := rows |} in
  stamps_consistent s' /\ stamps_until k s'.
Proof.
  intros [Hc1 Hc2] [Hu1 Hu2] Htk Hrows s'.
  pose proof (isoformat_seconds_mono _ _ Htk) as Hmono.
  assert (Hrow : forall r', In r' (chat_sessions s') ->
            exists r, In r (chat_sessions s) /\ id r' = id r
                      /\ created_at r' = created_at r
                      /\ ((id r = sid /\ updated_at r' = isoformat_seconds k)
                          \/ (id r <> sid /\ updated_at r' = updated_at r))).
  { intros r' Hin. apply in_map_iff in Hin as [r [<- Hin]]. exists r.
    destruct (String.eqb_spec (id r) sid) as [E|E]; simpl; auto 6. }
  assert (Hmsg : forall m, In m rows -> msg_created_at m <= isoformat_seconds k).
  { intros m Hin. destruct (Hrows m Hin) as [Hold|[_ ->]]; [|lia].
    specialize (Hu2 m Hold). lia. }
  repeat split.
  - intros r' Hin. destruct (Hrow r' Hin) as (r & Hr & _ & -> & [[_ ->]|[_ ->]]).
    + specialize (Hc1 r Hr). specialize (Hu1 r Hr). lia.
    + now apply Hc1.
  - intros r' m Hin Hm Hsid.
    destruct (Hrow r' Hin) as (r & Hr & Hid & _ & [[_ ->]|[Hne ->]]).
    + now apply Hmsg.
    + destruct (Hrows m Hm) as [Hold|[Hs _]].
      * apply (Hc2 r m Hr Hold). congruence.
      * congruence.
  - intros r' Hin. destruct (Hrow r' Hin) as (r & Hr & _ & _ & [[_ ->]|[_ ->]]).
    + lia.
    + specialize (Hu1 r Hr). lia.
  - exact Hmsg.
Qed.

Lemma perform_keeps_stamps (c : Call) (t : Z) (w : World) :
  faults w = [] -> stamps_consistent (store w) -> stamps_until t (store w) ->
  clock_never_goes_back t [c] ->
  exists w',
    perform c w = (Ok tt, w') /\ faults w' = []
    /\ stamps_consistent (store w') /\ stamps_until (clock_after t c) (store w').
Proof.
  destruct w as [s f l]. cbn [faults store]. intros -> Hc Hu Hclock.
  destruct c as [sid k user name | mid k sid role content ti to | k sid name | sid];
    cbn [clock_never_goes_back call_clock clock_after] in *.
  - destruct Hclock as [Htk _]. eexists. split; [reflexivity|]. split; [reflexivity|].
    cbn [store with_sessions chat_sessions messages insert_session snd].
    destruct Hc as [Hc1 Hc2], Hu as [Hu1 Hu2].
    pose proof (isoformat_seconds_mono _ _ Htk) as Hmono.
    repeat split; cbn [chat_sessions messages].
    + intros r Hin. apply in_app_or in Hin as [Hin|[<-|[]]]; [now apply Hc1|].
      simpl. lia.
    + intros r m Hin Hm Hsid. apply in_app_or in Hin as [Hin|[<-|[]]].
      * now apply (Hc2 r m).
      * simpl. specialize (Hu2 m Hm). lia.
    + intros r Hin. apply in_app_or in Hin as [Hin|[<-|[]]].
      * specialize (Hu1 r Hin). lia.
      * simpl. lia.
    + intros m Hm. specialize (Hu2 m Hm). lia.
  - destruct Hclock as [Htk _]. eexists. split; [reflexivity|]. split; [reflexivity|].
    apply (restamped_rows t k sid session_name s); try assumption.
    intros m Hin. apply in_app_or in Hin as [Hin|[<-|[]]]; auto.
  - destruct Hclock as [Htk _]. eexists. split; [reflexivity|]. split; [reflexivity|].
    apply (restamped_rows t k sid (fun _ => Some name) s); try assumption.
    intros m Hin. now left.
  - eexists. split; [reflexivity|]. split; [reflexivity|].
    cbn [store with_sessions with_messages chat_sessions messages
         delete_session_messages delete_session_row snd].
    destruct Hc as [Hc1 Hc2], Hu as [Hu1 Hu2].
    repeat split; cbn [chat_sessions messages].
    + intros r Hin. apply filter_In in Hin as [Hin _]. now apply Hc1.
    + intros r m Hin Hm. apply filter_In in Hin as [Hin _], Hm as [Hm _].
      now apply Hc2.
    + intros r Hin. apply filter_In in Hin as [Hin _]. now apply Hu1.
    + intros m Hm. apply filter_In in Hm as [Hm _]. now apply Hu2.
Qed.

Lemma perform_all_keeps_stamps (calls : list Call) (t : Z) (w : World) :
  faults w = [] -> stamps_consistent (store w) -> stamps_until t (store w) ->
  clock_never_goes_back t calls ->
  exists w', perform_all calls w = (Ok tt, w') /\ stamps_consistent (store w').
Proof.
  revert t w. induction calls as [|c calls IH]; intros t w Hf Hc Hu Hclock.
  - exists w. split; [reflexivity | exact Hc].
  - destruct (perform_keeps_stamps c t w Hf Hc Hu) as (w1 & Hrun & Hf1 & Hc1 & Hu1).
    { cbn [clock_never_goes_back] in *. destruct (call_clock c); [|exact I].
      split; [apply Hclock | exact I]. }
    destruct (IH (clock_after t c) w1 Hf1 Hc1 Hu1) as (w' & Hrest & Hc').
    { cbn [clock_never_goes_back] in Hclock. unfold clock_after.
      destruct (call_clock c); [apply Hclock | exact Hclock]. }
    exists w'. cbn [perform_all]. unfold and_then. rewrite Hrun. split; assumption.
Qed.

(** X25: starting from the empty store, after any run of [create_session],
    [add_message], [rename_session] and [delete_session] calls whose store
    calls all go through and whose clock readings never go back, every session
    has an updated-at not before its created-at and not before the created-at
    of any of its messages. *)
Theorem stamps_stay_consistent (calls : list Call) (t : Z) :
  clock_never_goes_back t calls ->
  exists w', perform_all calls fresh = (Ok tt, w') /\ stamps_consistent (store w').
Proof.
  intros Hclock. apply (perform_all_keeps_stamps calls t fresh); try assumption.
  - reflexivity.
  - split; [intros r [] | intros r m []].
  - split; [intros r [] | intros m []].
Qed.

Lemma stamps_stay_consistent_witness :
  exists w',
    perform_all
      [CallCreate "s1" 100200000 "u1" "Math Help";
       CallAdd "m1" 100300000 "s1" "user" "2+2?" None None;
       CallRename 100900000 "s1" "Algebra";
       CallAdd "m2" 103700000 "s1" "assistant" "4" None None;
       CallDelete "s0"] fresh = (Ok tt, w')
    /\ stamps_consistent (store w').
Proof.
  apply (stamps_stay_consistent _ 0). cbn. lia.
Defined.

End DatabaseMore.

(** ** The session state *)

Module StateManagerFacts.
Import StateManager.

Lemma lookup_setattr (k k' : string) (v : value) (state : SessionState) :
  lookup k (setattr k' v state) = if (k =? k')%string then Some v else lookup k state.
Proof.
  induction state as [|[k0 v0] state IH]; simpl; [reflexivity|].
  destruct (String.eqb_spec k' k0) as [<-|Hne]; simpl.
  - now destruct (k =? k')%string.
  - rewrite IH. destruct (String.eqb_spec k k0) as [->|_]; [|reflexivity].
    destruct (String.eqb_spec k0 k') as [E|_]; [|reflexivity]. now subst.
Qed.

Lemma lookup_setdefault (k k' : string) (v : value) (state : SessionState) :
  lookup k (setdefault k' v state)
  = match lookup k state with
    | Some x => Some x
    | None => if (k =? k')%string then Some v else None
    end.
Proof.
  unfold setdefault, has_key. destruct (lookup k' state) as [x|] eqn:E.
  - destruct (lookup k state) eqn:Ek; [reflexivity|].
    destruct (String.eqb_spec k k') as [->|_]; [congruence | reflexivity].
  - rewrite lookup_setattr. destruct (String.eqb_spec k k') as [->|_].
    + now rewrite E.
    + now destruct (lookup k state).
Qed.

Lemma lookup_defaults (defs : list (string * value)) (state : SessionState) (k : string) :
  lookup k (fold_left (fun st kv => setdefault (fst kv) (snd kv) st) defs state)
  = match lookup k state with
    | Some x => Some x
    | None => lookup k defs
    end.
Proof.
  revert state. induction defs as [|[k' v] defs IH]; intros state; simpl.
  - now destruct (lookup k state).
  - rewrite IH, lookup_setdefault. destruct (lookup k state); [reflexivity|].
    now destruct (k =? k')%string.
Qed.

Lemma defaults_in_place (defs : list (string * value)) (state : SessionState) :
  (forall kv, In kv defs -> has_key (fst kv) state = true) ->
  fold_left (fun st kv => setdefault (fst kv) (snd kv) st) defs state = state.
Proof.
  induction defs as [|kv defs IH]; intros H; simpl; [reflexivity|].
  unfold setdefault at 2. rewrite (H kv (or_introl eq_refl)).
  apply IH. intros kv' Hin. apply H. now right.
Qed.

Lemma lookup_listed (k : string) (defs : list (string * value)) :
  In k (map fst defs) -> lookup k defs <> None.
Proof.
  induction defs as [|[k' v] defs IH]; simpl; [contradiction|].
  intros [->|Hin].
  - now rewrite String.eqb_refl.
  - destruct (k =? k')%string; [discriminate | now apply IH].
Qed.

(** X26: [initialize_session_state] only fills gaps: a key that is set keeps
    its value, a key that is not set gets the default listed for it, and no
    other key appears; a second call, at whatever date and time, changes
    nothing. *)
Theorem initialize_fills_gaps_only (today now_time today' now_time' : value)
    (state : SessionState) :
  (forall k, lookup k (initialize_session_state today now_time state)
             = match lookup k state with
               | Some v => Some v
               | None => lookup k (defaults today now_time)
               end)
  /\ initialize_session_state today' now_time'
       (initialize_session_state today now_time state)
     = initialize_session_state today now_time state.
Proof.
  split.
  - intros k. apply lookup_defaults.
  - unfold initialize_session_state at 1. apply defaults_in_place.
    intros kv Hin. unfold has_key, initialize_session_state. rewrite lookup_defaults.
    destruct (lookup (fst kv) state); [reflexivity|].
    destruct (lookup (fst kv) (defaults today now_time)) eqn:E; [reflexivity|].
    exfalso. apply (lookup_listed (fst kv) (defaults today now_time)); [|exact E].
    change (map fst (defaults today now_time))
      with (map fst (defaults today' now_time')).
    now apply in_map.
Qed.

(** *** The assistants *)

Definition is_open (builder : string) (state : SessionState) : bool :=
  match lookup builder state with
  | Some v => truthy v
  | None => false
  end.

(** X27: [activate_assistant] leaves the email builder open exactly when the
    kind is [email], the meeting builder exactly when it is [meeting], and
    the tool picker closed, so never both builders open; it touches no other
    key, and asks for a rerun exactly when told to. *)
Theorem activate_opens_one_builder (kind : option string) (rerun : bool)
    (state : SessionState) :
  let state' := fst (activate_assistant kind rerun state) in
  lookup "show_email_builder" state'
  = Some (VBool (match kind with Some k => (k =? "email")%string | None => false end))
  /\ lookup "show_meeting_builder" state'
     = Some (VBool (match kind with Some k => (k =? "meeting")%string | None => false end))
  /\ lookup "show_tool_picker" state' = Some (VBool false)
  /\ is_open "show_email_builder" state' && is_open "show_meeting_builder" state' = false
  /\ (forall k, k <> "show_email_builder" -> k <> "show_meeting_builder" ->
                k <> "show_tool_picker" -> lookup k state' = lookup k state)
  /\ snd (activate_assistant kind rerun state) = rerun.
Proof.
  cbn [activate_assistant fst snd]. unfold is_open. rewrite !lookup_setattr.
  cbn [String.eqb Ascii.eqb Bool.eqb]. repeat split.
  - destruct kind as [k|]; [|reflexivity]. simpl.
    destruct (String.eqb_spec k "email") as [->|_]; reflexivity.
  - intros k H1 H2 H3. rewrite !lookup_setattr.
    apply String.eqb_neq in H1, H2, H3. now rewrite H1, H2, H3.
Qed.

(** *** Collapsed actions *)

(** An entry as [queue_action_collapse] makes them: a dict with a [type]. *)
Definition is_entry (e : value) : Prop :=
  match e with
  | VDict entries => lookup "type" entries <> None
  | _ => False
  end.

Definition has_type (t : string) (e : value) : bool :=
  match e with
  | VDict entries =>
      match lookup "type" entries with
      | Some v => eq_str v t
      | None => false
      end
  | _ => false
  end.

(** What the loop over the pending entries leaves under a key. *)
Definition after_collapse (pending : list value) (state : SessionState) (k : string)
  : option value :=
  if (k =? "show_email_builder")%string && existsb (has_type "email") pending
  then Some (VBool false)
  else if (k =? "show_meeting_builder")%string && existsb (has_type "meeting") pending
       then Some (VBool false)
       else lookup k state.

Lemma eq_str_email_meeting (t : value) :
  eq_str t "email" = true -> eq_str t "meeting" = false.
Proof.
  destruct t as [| | |s| |]; simpl; try discriminate.
  intros H. apply String.eqb_eq in H. now subst s.
Qed.

Lemma collapse_builders_entries (pending : list value) (state : SessionState) :
  Forall is_entry pending ->
  exists state',
    collapse_builders pending state = (Ok tt, state')
    /\ forall k, lookup k state' = after_collapse pending state k.
Proof.
  intros Hentries. revert state.
  induction Hentries as [|e pending He _ IH]; intros state.
  - exists state. split; [reflexivity|]. intros k. unfold after_collapse. simpl.
    now rewrite !andb_false_r.
  - destruct e as [| | | | |entries]; try contradiction. simpl in He.
    cbn [collapse_builders entry_type].
    destruct (lookup "type" entries) as [t|] eqn:Et; [|contradiction].
    match goal with |- context [collapse_builders pending ?s] =>
      destruct (IH s) as (state' & Hrun & Hlook) end.
    exists state'. split; [exact Hrun|].
    intros k. rewrite Hlook. unfold after_collapse.
    cbn [existsb has_type]. rewrite Et.
    destruct (eq_str t "email") eqn:Ee.
    + rewrite (eq_str_email_meeting t Ee). rewrite lookup_setattr.
      destruct (String.eqb_spec k "show_email_builder") as [->|_]; simpl;
        [now destruct (existsb (has_type "email") pending) | reflexivity].
    + destruct (eq_str t "meeting") eqn:Em; [|reflexivity].
      rewrite lookup_setattr.
      destruct (String.eqb_spec k "show_meeting_builder") as [->|_]; simpl;
        [now destruct (existsb (has_type "meeting") pending) | reflexivity].
Qed.

(** X28: with entries pending, [handle_pending_action_collapses] puts them
    in front of the recent actions, oldest first, and keeps the first
    [RECENT_ACTION_LIMIT] of the lot; it empties the pending list and closes
    the builder of every type that was pending.  No other key changes, and
    nothing is raised. *)
Theorem handle_moves_pending_to_recent (state : SessionState) (e : value)
    (pending recent : list value) :
  lookup "pending_action_collapses" state = Some (VList (e :: pending)) ->
  Forall is_entry (e :: pending) ->
  lookup "recent_actions" state = Some (VList recent) ->
  exists state',
    handle_pending_action_collapses state = (Ok tt, state')
    /\ lookup "recent_actions" state'
       = Some (VList (firstn RECENT_ACTION_LIMIT ((e :: pending) ++ recent)))
    /\ lookup "pending_action_collapses" state' = Some (VList [])
    /\ (forall k, k <> "recent_actions" -> k <> "pending_action_collapses" ->
                  lookup k state' = after_collapse (e :: pending) state k).
Proof.
  intros Hpending Hentries Hrecent.
  destruct (collapse_builders_entries _ state Hentries) as (state1 & Hrun & Hlook).
  unfold handle_pending_action_collapses, getattr. rewrite Hpending.
  cbn [truthy negb]. rewrite Hrun.
  rewrite (Hlook "recent_actions"). unfold after_collapse at 1.
  cbn [String.eqb Ascii.eqb Bool.eqb andb]. rewrite Hrecent.
  eexists. split; [reflexivity|].
  rewrite !lookup_setattr. cbn [String.eqb Ascii.eqb Bool.eqb].
  repeat split.
  intros k H1 H2. rewrite !lookup_setattr.
  apply String.eqb_neq in H1, H2. rewrite H1, H2. apply Hlook.
Qed.

Definition two_pending : SessionState :=
  [("show_email_builder", VBool true);
   ("pending_action_collapses",
    VList [VDict [("type", VStr "email"); ("timestamp", VInt 100); ("data", VDict [])];
           VDict [("type", VStr "meeting"); ("timestamp", VInt 101); ("data", VDict [])]]);
   ("recent_actions",
    VList [VStr "d"; VStr "c"; VStr "b"; VStr "a"])].

Lemma handle_moves_pending_to_recent_witness :
  exists state',
    handle_pending_action_collapses two_pending = (Ok tt, state')
    /\ lookup "recent_actions" state'
       = Some (VList
                 [VDict [("type", VStr "email"); ("timestamp", VInt 100);
                         ("data", VDict [])];
                  VDict [("type", VStr "meeting"); ("timestamp", VInt 101);
                         ("data", VDict [])];
                  VStr "d"; VStr "c"; VStr "b"])
    /\ lookup "show_email_builder" state' = Some (VBool false).
Proof.
  assert (Hentries : Forall is_entry
            [VDict [("type", VStr "email"); ("timestamp", VInt 100); ("data", VDict [])];
             VDict [("type", VStr "meeting"); ("timestamp", VInt 101);
                    ("data", VDict [])]])
    by (repeat constructor; discriminate).
  destruct (handle_moves_pending_to_recent two_pending _ _
              [VStr "d"; VStr "c"; VStr "b"; VStr "a"] eq_refl Hentries eq_refl)
    as (state' & Hrun & Hrecent & _ & Hother).
  exists state'. split; [exact Hrun|]. split; [exact Hrecent|].
  now rewrite Hother.
Defined.

(** *** Across calls *)

(** A call of one of the functions of the module. *)
Inductive UiCall : Type :=
| UiInitialize (today now_time : value)
| UiActivate (kind : option string) (rerun : bool)
| UiQueue (clock : Z) (action_type : string) (data : value)
| UiHandle
| UiAutoOpen (response_text : option string).

(** How a call leaves the script: it returns; or it ends the run of the
    script with [st.rerun()], Streamlit's signal to stop the run and start
    the script again, after which nothing of that run is executed; or it
    raises an error. *)
Inductive Exit : Type :=
| Returned
| Rerun
| Raised (e : exn).

Definition exit_of (r : result unit) : Exit :=
  match r with
  | Ok _ => Returned
  | Raise e => Raised e
  end.

Section ScriptRuns.

(** [str.lower], whatever its case mapping is. *)
Variable lower : string -> string.

Definition run (c : UiCall) (state : SessionState) : Exit * SessionState :=
  match c with
  | UiInitialize today now_time => (Returned, initialize_session_state today now_time state)
  | UiActivate kind rerun =>
      (if snd (activate_assistant kind rerun state) then Rerun else Returned,
       fst (activate_assistant kind rerun state))
  | UiQueue clock action_type data =>
      (exit_of (fst (queue_action_collapse clock action_type data state)),
       snd (queue_action_collapse clock action_type data state))
  | UiHandle =>
      (exit_of (fst (handle_pending_action_collapses state)),
       snd (handle_pending_action_collapses state))
  | UiAutoOpen response_text =>
      (Returned, maybe_auto_open_assistant lower response_text state)
  end.

(** One run of the script: the calls one after the other, up to the first
    that does not return. *)
Fixpoint run_all (calls : list UiCall) (state : SessionState) : Exit * SessionState :=
  match calls with
  | [] => (Returned, state)
  | c :: rest =>
      match run c state with
      | (Returned, state') => run_all rest state'
      | (exit, state') => (exit, state')
      end
  end.

(** The runs of the script over a session.  The session state outlives a
    run, however the run ended: the next run starts from the state the last
    one left.  The first exception is reported. *)
Fixpoint run_session (runs : list (list UiCall)) (state : SessionState)
  : option exn * SessionState :=
  match runs with
  | [] => (None, state)
  | calls :: rest =>
      match run_all calls state with
      | (Raised e, state') => (Some e, state')
      | (_, state') => run_session rest state'
      end
  end.

(** The pending and the recent actions are lists, the pending ones entries
    with a type, the recent ones no more than [RECENT_ACTION_LIMIT], and the
    two builders are not both open. *)
Definition well_formed (state : SessionState) : Prop :=
  exists pending recent,
    lookup "pending_action_collapses" state = Some (VList pending)
    /\ Forall is_entry pending
    /\ lookup "recent_actions" state = Some (VList recent)
    /\ (List.length recent <= RECENT_ACTION_LIMIT)%nat
    /\ is_open "show_email_builder" state && is_open "show_meeting_builder" state = false.

(** The call is [activate_assistant(kind, rerun=True)] for some kind. *)
Definition asks_rerun (c : UiCall) : bool :=
  match c with
  | UiActivate _ rerun => rerun
  | _ => false
  end.

Lemma is_open_setattr (b k : string) (v : value) (state : SessionState) :
  is_open b (setattr k v state) = if (b =? k)%string then truthy v else is_open b state.
Proof. unfold is_open. rewrite lookup_setattr. now destruct (b =? k)%string. Qed.

Lemma activate_keeps_well_formed (kind : option string) (rerun : bool)
    (state : SessionState) :
  well_formed state -> well_formed (fst (activate_assistant kind rerun state)).
Proof.
  intros (pending & recent & Hp & He & Hr & Hl & _).
  exists pending, recent. cbn [activate_assistant fst].
  rewrite !lookup_setattr, !is_open_setattr. cbn [String.eqb Ascii.eqb Bool.eqb truthy].
  repeat split; try assumption.
  destruct kind as [k|]; [|reflexivity].
  destruct (String.eqb_spec k "email") as [->|_]; reflexivity.
Qed.

Lemma close_builder_lookup (action_type k : string) (state : SessionState) :
  k <> "show_email_builder" -> k <> "show_meeting_builder" ->
  lookup k (close_builder action_type state) = lookup k state.
Proof.
  intros H1 H2. apply String.eqb_neq in H1, H2. unfold close_builder.
  destruct (action_type =? "email")%string; [now rewrite lookup_setattr, H1|].
  destruct (action_type =? "meeting")%string; [now rewrite lookup_setattr, H2|].
  reflexivity.
Qed.

Lemma close_builder_open (action_type : string) (state : SessionState) :
  is_open "show_email_builder" state && is_open "show_meeting_builder" state = false ->
  is_open "show_email_builder" (close_builder action_type state)
  && is_open "show_meeting_builder" (close_builder action_type state) = false.
Proof.
  intros H. unfold close_builder.
  destruct (action_type =? "email")%string;
    [rewrite !is_open_setattr; reflexivity|].
  destruct (action_type =? "meeting")%string; [|exact H].
  rewrite !is_open_setattr. cbn [String.eqb Ascii.eqb Bool.eqb truthy].
  apply andb_false_r.
Qed.

Lemma after_collapse_open (pending : list value) (state state' : SessionState) :
  (forall k, k <> "recent_actions" -> k <> "pending_action_collapses" ->
             lookup k state' = after_collapse pending state k) ->
  is_open "show_email_builder" state && is_open "show_meeting_builder" state = false ->
  is_open "show_email_builder" state' && is_open "show_meeting_builder" state' = false.
Proof.
  intros Hlook H. unfold is_open in *.
  rewrite !Hlook by discriminate. unfold after_collapse.
  cbn [String.eqb Ascii.eqb Bool.eqb andb].
  destruct (existsb (has_type "email") pending); [reflexivity|].
  destruct (existsb (has_type "meeting") pending); [|exact H].
  apply andb_false_r.
Qed.

(** On a well-formed state a call raises nothing: it ends the run when it is
    an [activate_assistant] told to rerun, and returns otherwise; the state
    it leaves is well-formed. *)
Lemma run_keeps_well_formed (c : UiCall) (state : SessionState) :
  well_formed state ->
  exists state',
    run c state = (if asks_rerun c then Rerun else Returned, state')
    /\ well_formed state'.
Proof.
  intros Hwf. destruct c as [today now_time | kind rerun | clock t data | | text];
    cbn [run asks_rerun].
  - eexists. split; [reflexivity|].
    destruct Hwf as (pending & recent & Hp & He & Hr & Hl & Ho).
    exists pending, recent. unfold is_open, initialize_session_state in *.
    rewrite !lookup_defaults, Hp, Hr. repeat split; try assumption.
    destruct (lookup "show_email_builder" state);
      destruct (lookup "show_meeting_builder" state); try exact Ho;
      cbn; rewrite ?andb_false_r; reflexivity.
  - eexists. split; [reflexivity|]. now apply activate_keeps_well_formed.
  - destruct Hwf as (pending & recent & Hp & He & Hr & Hl & Ho).
    unfold queue_action_collapse, getattr.
    rewrite lookup_setattr, close_builder_lookup by discriminate.
    cbn [String.eqb Ascii.eqb Bool.eqb]. rewrite Hp.
    eexists. split; [reflexivity|]. cbn [snd]. eexists. exists recent.
    rewrite !lookup_setattr, !is_open_setattr. cbn [String.eqb Ascii.eqb Bool.eqb].
    rewrite close_builder_lookup by discriminate.
    split; [reflexivity|]. split.
    { apply Forall_app. split; [exact He|]. repeat constructor. discriminate. }
    split; [exact Hr|]. split; [exact Hl|]. now apply close_builder_open.
  - destruct Hwf as (pending & recent & Hp & He & Hr & Hl & Ho).
    destruct pending as [|e pending].
    + exists state. split.
      * unfold handle_pending_action_collapses, getattr. now rewrite Hp.
      * exists [], recent. auto.
    + destruct (collapse_builders_entries _ state He) as (state1 & Hrun & Hlook).
      unfold handle_pending_action_collapses, getattr. rewrite Hp.
      cbn [truthy negb]. rewrite Hrun.
      rewrite (Hlook "recent_actions"). unfold after_collapse at 1 2.
      cbn [String.eqb Ascii.eqb Bool.eqb andb]. rewrite Hr.
      eexists. split; [reflexivity|]. cbn [snd].
      exists [], (firstn RECENT_ACTION_LIMIT ((e :: pending) ++ recent)).
      rewrite !lookup_setattr. cbn [String.eqb Ascii.eqb Bool.eqb].
      split; [reflexivity|]. split; [constructor|]. split; [reflexivity|].
      split; [apply firstn_le_length|].
      apply (after_collapse_open (e :: pending) state); [|exact Ho].
      intros k H1 H2. rewrite !lookup_setattr.
      apply String.eqb_neq in H1, H2. rewrite H1, H2. apply Hlook.
  - eexists. split; [reflexivity|]. unfold maybe_auto_open_assistant.
    destruct text as [text|]; [|exact Hwf].
    destruct (text =? "")%string; [exact Hwf|].
    destruct (existsb _ email_cues); [now apply activate_keeps_well_formed|].
    destruct (existsb _ meeting_cues); [now apply activate_keeps_well_formed|].
    exact Hwf.
Qed.

Lemma run_all_keeps_well_formed (calls : list UiCall) (state : SessionState) :
  well_formed state ->
  exists state',
    run_all calls state = (if existsb asks_rerun calls then Rerun else Returned, state')
    /\ well_formed state'.
Proof.
  revert state. induction calls as [|c calls IH]; intros state Hwf.
  - now exists state.
  - destruct (run_keeps_well_formed c state Hwf) as (state1 & Hrun & Hwf1).
    cbn [run_all existsb]. rewrite Hrun.
    destruct (asks_rerun c); cbn [orb].
    + now exists state1.
    + now apply IH.
Qed.

(** X29: from a state that [initialize_session_state] built from nothing,
    over any number of runs of the script and whatever calls of the five
    functions each run makes, in whatever order, no call raises an error.  A
    run ends
    at its first [activate_assistant] that is told to rerun, the calls after
    it not being made, and runs to its end when there is none; either way the
    state carries over to the next run.  Throughout, the recent actions never
    number more than [RECENT_ACTION_LIMIT], the pending actions stay entries
    with a type, and the email and the meeting builder are never both
    open. *)
Theorem session_state_stays_well_formed (runs : list (list UiCall))
    (today now_time : value) :
  (exists state',
     run_session runs (initialize_session_state today now_time []) = (None, state')
     /\ well_formed state')
  /\ (forall calls state, well_formed state ->
        exists state',
          run_all calls state
          = (if existsb asks_rerun calls then Rerun else Returned, state')
          /\ well_formed state')
  /\ (forall before c after state,
        asks_rerun c = true ->
        run_all (before ++ c :: after) state = run_all (before ++ [c]) state).
Proof.
  split; [|split].
  - assert (Hstart : well_formed (initialize_session_state today now_time [])).
    { exists [], []. repeat split; try constructor. cbn. lia. }
    revert Hstart. generalize (initialize_session_state today now_time []).
    induction runs as [|calls runs IH]; intros state Hwf.
    + now exists state.
    + destruct (run_all_keeps_well_formed calls state Hwf) as (state1 & Hrun & Hwf1).
      cbn [run_session]. rewrite Hrun.
      destruct (existsb asks_rerun calls); now apply IH.
  - exact run_all_keeps_well_formed.
  - intros before c after state Hc. revert state.
    induction before as [|b before IH]; intros state; cbn [app run_all].
    + destruct c as [| kind rerun | | |]; try discriminate.
      cbn [asks_rerun] in Hc. subst rerun. reflexivity.
    + destruct (run b state) as [[| |e] state1]; [apply IH | reflexivity | reflexivity].
Qed.

(** *** Opening an assistant from a response *)

(** X30: a response whose text, lowered, contains an email cue opens the
    email assistant even when it contains a meeting cue as well; one with a
    meeting cue and no email cue opens the meeting assistant; a response with
    no cue, an empty one or none at all leaves the state as it was.  This
    holds whatever the case mapping of [str.lower] is. *)
Theorem auto_open_follows_cues (text : string) (state : SessionState) :
  let mentions cues := exists cue, In cue cues /\ contains cue (lower text) = true in
  (text <> "" -> mentions email_cues ->
   maybe_auto_open_assistant lower (Some text) state
   = fst (activate_assistant (Some "email") false state))
  /\ (text <> "" -> ~ mentions email_cues -> mentions meeting_cues ->
      maybe_auto_open_assistant lower (Some text) state
      = fst (activate_assistant (Some "meeting") false state))
  /\ (~ mentions email_cues -> ~ mentions meeting_cues ->
      maybe_auto_open_assistant lower (Some text) state = state)
  /\ maybe_auto_open_assistant lower (Some "") state = state
  /\ maybe_auto_open_assistant lower None state = state.
Proof.
  intros mentions.
  assert (Hcue : forall cues, existsb (fun cue => contains cue (lower text)) cues = true
                              <-> mentions cues).
  { intros cues. apply existsb_exists. }
  assert (Hnone : forall cues, ~ mentions cues ->
                    existsb (fun cue => contains cue (lower text)) cues = false).
  { intros cues Hno. destruct (existsb _ cues) eqn:E; [|reflexivity].
    apply Hcue in E. contradiction. }
  unfold maybe_auto_open_assistant.
  split; [|split; [|split; [|split; reflexivity]]].
  - intros Htext Hm. apply Hcue in Hm. apply String.eqb_neq in Htext.
    now rewrite Htext, Hm.
  - intros Htext Hno Hm. apply Hnone in Hno. apply Hcue in Hm.
    apply String.eqb_neq in Htext. now rewrite Htext, Hno, Hm.
  - intros Hno1 Hno2. rewrite (Hnone _ Hno1), (Hnone _ Hno2).
    now destruct (text =? "")%string.
Qed.

End ScriptRuns.

Lemma auto_open_follows_cues_witness :
  maybe_auto_open_assistant Py.lower
    (Some "I can Draft an Email, or schedule a meeting.") []
  = [("show_email_builder", VBool true); ("show_meeting_builder", VBool false);
     ("show_tool_picker", VBool false)].
Proof.
  apply (auto_open_follows_cues Py.lower "I can Draft an Email, or schedule a meeting." []).
  - discriminate.
  - exists "draft an email". split; [cbn; auto | reflexivity].
Defined.

End StateManagerFacts.
